(** * discord_stats.py: the archive reader, the channel resolver and the
    statistics aggregator, embedded as Rocq functions.

    Python values are modelled as follows.
    - [str] is a list of Unicode code points ([N]); slices, [len], [min],
      [max] and [sorted] on strings are those of code point sequences.
    - an exception is a constructor of [exn]; code that can raise returns a
      [result].
    - [dict], [Counter] and [defaultdict] are association lists in insertion
      order (the order Python iterates them in).
    - [re] patterns are terms of [re], run by a backtracking matcher with the
      priorities of Python's engine (ordered alternation, greedy and lazy
      repetition). *)

From Stdlib Require Import String Ascii.
From Stdlib Require Import List NArith ZArith Lia Bool.
From Stdlib Require Import Permutation Sorted.
Import ListNotations.

Set Implicit Arguments.

(** ** Exceptions *)

Inductive exn : Type :=
| FileNotFoundError
| KeyError
| JSONDecodeError
| ValueError.

Inductive result (A : Type) : Type :=
| Ok (a : A)
| Raise (e : exn).

Arguments Ok {A} a.
Arguments Raise {A} e.

Definition bind {A B : Type} (r : result A) (f : A -> result B) : result B :=
  match r with
  | Ok a => f a
  | Raise e => Raise e
  end.

Notation "x <- r ;; k" := (bind r (fun x => k))
  (at level 61, r at next level, right associativity).

(** ** Python strings *)

Definition str : Type := list N.

Definition lit (s : string) : str :=
  map N_of_ascii (list_ascii_of_string s).

Fixpoint str_eqb (a b : str) : bool :=
  match a, b with
  | [], [] => true
  | x :: a', y :: b' => N.eqb x y && str_eqb a' b'
  | _, _ => false
  end.

(** [a < b] and [a <= b] on [str]: lexicographic on code points. *)
Fixpoint str_ltb (a b : str) : bool :=
  match a, b with
  | [], [] => false
  | [], _ :: _ => true
  | _ :: _, [] => false
  | x :: a', y :: b' =>
      if N.ltb x y then true
      else if N.eqb x y then str_ltb a' b'
      else false
  end.

Definition str_leb (a b : str) : bool := negb (str_ltb b a).

(** [s.startswith(p)] *)
Fixpoint startswith (p s : str) : bool :=
  match p, s with
  | [], _ => true
  | _ :: _, [] => false
  | x :: p', y :: s' => N.eqb x y && startswith p' s'
  end.

(** [s.endswith(p)] *)
Definition endswith (p s : str) : bool :=
  startswith (rev p) (rev s).

(** [s[:n]] *)
Definition slice_to (n : nat) (s : str) : str := firstn n s.

(** [s[n:]] *)
Definition slice_from (n : nat) (s : str) : str := skipn n s.

(** [s.find(sep)]: index of the first occurrence, [None] for -1. *)
Fixpoint find (sep s : str) : option nat :=
  if startswith sep s then Some 0
  else match s with
       | [] => None
       | _ :: s' => option_map S (find sep s')
       end.

(** [sep in s] *)
Definition contains (sep s : str) : bool :=
  match find sep s with Some _ => true | None => false end.

(** [s.split(sep, 1)] when [sep] occurs in [s]: the text before the first
    occurrence and the text after it. *)
Definition split_once (sep s : str) : option (str * str) :=
  match find sep s with
  | Some i => Some (firstn i s, skipn (i + length sep) s)
  | None => None
  end.

(** [s.split(c)] for a separator of one character. *)
Fixpoint split_chr (c : N) (s : str) : list str :=
  match s with
  | [] => [[]]
  | x :: s' =>
      if N.eqb x c then [] :: split_chr c s'
      else match split_chr c s' with
           | w :: ws => (x :: w) :: ws
           | [] => [[x]]
           end
  end.

(** [s.replace(old, new)] for a non-empty [old]: occurrences are found left
    to right and do not overlap.  [skip] counts the characters of an
    occurrence still to be dropped. *)
Fixpoint replace_from (old new s : str) (skip : nat) : str :=
  match s with
  | [] => []
  | c :: s' =>
      match skip with
      | S n => replace_from old new s' n
      | O =>
          if startswith old s
          then new ++ replace_from old new s' (length old - 1)
          else c :: replace_from old new s' O
      end
  end.

Definition replace (old new s : str) : str := replace_from old new s 0.

(** Truth value of a string: non-empty. *)
Definition truthy (s : str) : bool :=
  match s with [] => false | _ :: _ => true end.

(** [a or b] on strings. *)
Definition str_or (a b : str) : str := if truthy a then a else b.

(** ** Unicode tables used by [re] and [int] *)

(** First code point of every run of ten decimal digits (category Nd,
    Unicode 14.0); the mathematical digits U+1D7CE..U+1D7FF are five such
    runs. *)
Definition decimal_runs : list N :=
  [ 0x30; 0x660; 0x6F0; 0x7C0; 0x966; 0x9E6; 0xA66; 0xAE6; 0xB66; 0xBE6;
    0xC66; 0xCE6; 0xD66; 0xDE6; 0xE50; 0xED0; 0xF20; 0x1040; 0x1090;
    0x17E0; 0x1810; 0x1946; 0x19D0; 0x1A80; 0x1A90; 0x1B50; 0x1BB0;
    0x1C40; 0x1C50; 0xA620; 0xA8D0; 0xA900; 0xA9D0; 0xA9F0; 0xAA50;
    0xABF0; 0xFF10; 0x104A0; 0x10D30; 0x11066; 0x110F0; 0x11136; 0x111D0;
    0x112F0; 0x11450; 0x114D0; 0x11650; 0x116C0; 0x11730; 0x118E0;
    0x11950; 0x11C50; 0x11D50; 0x11DA0; 0x16A60; 0x16AC0; 0x16B50;
    0x1D7CE; 0x1D7D8; 0x1D7E2; 0x1D7EC; 0x1D7F6;
    0x1E140; 0x1E2F0; 0x1E950; 0x1FBF0 ]%N.

Fixpoint decimal_in (runs : list N) (c : N) : option N :=
  match runs with
  | [] => None
  | z :: runs' =>
      if (N.leb z c && N.ltb c (z + 10))%N then Some (c - z)%N
      else decimal_in runs' c
  end.

(** The decimal value of a code point, as [unicodedata.decimal]. *)
Definition decimal (c : N) : option N := decimal_in decimal_runs c.

(** [\d] *)
Definition is_digit (c : N) : bool :=
  match decimal c with Some _ => true | None => false end.

(** [\s]: the code points for which [str.isspace] holds. *)
Definition is_space (c : N) : bool :=
  ((N.leb 0x9 c && N.leb c 0xD) || (N.leb 0x1C c && N.leb c 0x20)
   || N.eqb c 0x85 || N.eqb c 0xA0 || N.eqb c 0x1680
   || (N.leb 0x2000 c && N.leb c 0x200A)
   || N.eqb c 0x2028 || N.eqb c 0x2029 || N.eqb c 0x202F
   || N.eqb c 0x205F || N.eqb c 0x3000)%N.

(** Character classes: a range of code points, a range [[a-b]] of ASCII
    characters, one ASCII character, and [.] (anything but a newline). *)
Definition rng (a b : N) (c : N) : bool := (N.leb a c && N.leb c b)%N.
Definition arng (a b : ascii) : N -> bool := rng (N_of_ascii a) (N_of_ascii b).
Definition one (a : ascii) (c : N) : bool := N.eqb (N_of_ascii a) c.
Definition newline : N := 10%N.
Definition dot (c : N) : bool := negb (N.eqb c newline).
Definition either (p q : N -> bool) (c : N) : bool := p c || q c.

(** ** Regular expressions *)

Inductive re : Type :=
| Eps
| Cls (p : N -> bool)            (* one character of a class *)
| Cat (r1 r2 : re)               (* r1 r2 *)
| Alt (r1 r2 : re)               (* r1|r2, r1 tried first *)
| Opt (r : re)                   (* r?, r tried first *)
| Plus (p : N -> bool)           (* [class]+, longest first *)
| PlusLazy (p : N -> bool)       (* [class]+?, shortest first *)
| Grp (g : nat) (r : re)         (* capturing group number g *)
| Eos.                           (* $ without MULTILINE *)

(** A literal text. *)
Fixpoint Lit (l : str) : re :=
  match l with
  | [] => Eps
  | c :: l' => Cat (Cls (N.eqb c)) (Lit l')
  end.

Fixpoint Seq (rs : list re) : re :=
  match rs with
  | [] => Eps
  | [r] => r
  | r :: rs' => Cat r (Seq rs')
  end.

(** Captured groups, most recent first. *)
Definition caps : Type := list (nat * str).

Fixpoint group (g : nat) (c : caps) : option str :=
  match c with
  | [] => None
  | (g', s) :: c' => if Nat.eqb g g' then Some s else group g c'
  end.

Section Matcher.
Variable A : Type.

(** [[class]+] followed by [k]: take as many characters as possible, give
    them back one at a time while [k] fails. *)
Fixpoint plus_greedy (p : N -> bool) (s : str) (k : str -> option A)
  : option A :=
  match s with
  | [] => None
  | x :: s' =>
      if p x then
        match plus_greedy p s' k with
        | Some a => Some a
        | None => k s'
        end
      else None
  end.

(** [[class]+?] followed by [k]: take one character, then one more each
    time [k] fails. *)
Fixpoint plus_lazy (p : N -> bool) (s : str) (k : str -> option A)
  : option A :=
  match s with
  | [] => None
  | x :: s' =>
      if p x then
        match k s' with
        | Some a => Some a
        | None => plus_lazy p s' k
        end
      else None
  end.

(** [run r s c k]: match [r] at the head of [s] with groups [c], then
    continue with [k] on what is left; the first success in the engine's
    order of choices is the answer. *)
Fixpoint run (r : re) (s : str) (c : caps) (k : str -> caps -> option A)
  : option A :=
  match r with
  | Eps => k s c
  | Cls p =>
      match s with
      | x :: s' => if p x then k s' c else None
      | [] => None
      end
  | Cat r1 r2 => run r1 s c (fun s' c' => run r2 s' c' k)
  | Alt r1 r2 =>
      match run r1 s c k with
      | Some a => Some a
      | None => run r2 s c k
      end
  | Opt r1 =>
      match run r1 s c k with
      | Some a => Some a
      | None => k s c
      end
  | Plus p => plus_greedy p s (fun s' => k s' c)
  | PlusLazy p => plus_lazy p s (fun s' => k s' c)
  | Grp g r1 =>
      run r1 s c
        (fun s' c' => k s' ((g, firstn (length s - length s') s) :: c'))
  | Eos =>
      match s with
      | [] => k s c
      | [x] => if N.eqb x newline then k s c else None
      | _ => None
      end
  end.
End Matcher.

(** [re.match(r, s)]: what is left of [s] after the match, and the groups. *)
Definition re_match (r : re) (s : str) : option (str * caps) :=
  run r s [] (fun s' c => Some (s', c)).

(** [re.findall(r, s)] for a pattern without groups that matches no empty
    text: scan left to right, resume after each match.  [skip] counts the
    characters of the last match still to be passed. *)
Fixpoint findall_from (r : re) (s : str) (skip : nat) : list str :=
  match s with
  | [] => []
  | _ :: s' =>
      match skip with
      | S n => findall_from r s' n
      | O =>
          match re_match r s with
          | Some (rest, _) =>
              let m := length s - length rest in
              firstn m s :: findall_from r s' (m - 1)
          | None => findall_from r s' O
          end
      end
  end.

Definition findall (r : re) (s : str) : list str := findall_from r s 0.

(** ** [int] on the text of a matched group *)

Fixpoint lstrip (s : str) : str :=
  match s with
  | c :: s' => if is_space c then lstrip s' else s
  | [] => []
  end.

Fixpoint digits_value (s : str) (acc : N) : option N :=
  match s with
  | [] => Some acc
  | c :: s' =>
      match decimal c with
      | Some d => digits_value s' (10 * acc + d)%N
      | None => None
      end
  end.

(** [int(s)] for a text made of optional leading blanks and decimal digits
    (all a group of the formats below can hold); [None] is [ValueError]. *)
Definition py_int (s : str) : option Z :=
  match lstrip s with
  | [] => None
  | t => option_map Z.of_N (digits_value t 0%N)
  end.

(** ** Dates: [datetime] and [datetime.strptime] *)

Record datetime : Type := {
  year : Z; month : Z; day : Z;
  hour : Z; minute : Z; second : Z
}.

Local Open Scope Z_scope.

Definition is_leap (y : Z) : bool :=
  (y mod 4 =? 0) && (negb (y mod 100 =? 0) || (y mod 400 =? 0)).

Definition DAYS_IN_MONTH : list Z :=
  [-1; 31; 28; 31; 30; 31; 30; 31; 31; 30; 31; 30; 31].

Definition DAYS_BEFORE_MONTH : list Z :=
  [-1; 0; 31; 59; 90; 120; 151; 181; 212; 243; 273; 304; 334].

Definition days_in_month (y m : Z) : Z :=
  if (m =? 2) && is_leap y then 29
  else nth (Z.to_nat m) DAYS_IN_MONTH 0.

Definition days_before_year (y : Z) : Z :=
  let y1 := y - 1 in
  y1 * 365 + y1 / 4 - y1 / 100 + y1 / 400.

Definition days_before_month (y m : Z) : Z :=
  nth (Z.to_nat m) DAYS_BEFORE_MONTH 0
  + (if (2 <? m) && is_leap y then 1 else 0).

Definition ymd2ord (y m d : Z) : Z :=
  days_before_year y + days_before_month y m + d.

Definition toordinal (dt : datetime) : Z :=
  ymd2ord (year dt) (month dt) (day dt).

(** [dt.weekday()]: Monday is 0. *)
Definition weekday (dt : datetime) : Z := (toordinal dt + 6) mod 7.

(** The constructor's range checks; [None] is the [ValueError] a field out
    of range raises. *)
Definition new_datetime (y m d hh mm ss : Z) : option datetime :=
  if (1 <=? y) && (y <=? 9999) && (1 <=? m) && (m <=? 12)
     && (1 <=? d) && (d <=? days_in_month y m)
     && (0 <=? hh) && (hh <=? 23) && (0 <=? mm) && (mm <=? 59)
     && (0 <=? ss) && (ss <=? 59)
  then Some {| year := y; month := m; day := d;
               hour := hh; minute := mm; second := ss |}
  else None.

(** Group numbers of the directives. *)
Definition gY : nat := 1%nat.
Definition gm : nat := 2%nat.
Definition gd : nat := 3%nat.
Definition gH : nat := 4%nat.
Definition gM : nat := 5%nat.
Definition gS : nat := 6%nat.

(** The patterns [_strptime.TimeRE] gives the directives (CPython 3.11). *)
Definition re_Y : re :=
  Grp gY (Seq [Cls is_digit; Cls is_digit; Cls is_digit; Cls is_digit]).
Definition re_m : re :=
  Grp gm (Alt (Cat (Cls (one "1")) (Cls (arng "0" "2")))
         (Alt (Cat (Cls (one "0")) (Cls (arng "1" "9")))
              (Cls (arng "1" "9")))).
Definition re_d : re :=
  Grp gd (Alt (Cat (Cls (one "3")) (Cls (arng "0" "1")))
         (Alt (Cat (Cls (arng "1" "2")) (Cls is_digit))
         (Alt (Cat (Cls (one "0")) (Cls (arng "1" "9")))
         (Alt (Cls (arng "1" "9"))
              (Cat (Cls (one " ")) (Cls (arng "1" "9"))))))).
Definition re_H : re :=
  Grp gH (Alt (Cat (Cls (one "2")) (Cls (arng "0" "3")))
         (Alt (Cat (Cls (arng "0" "1")) (Cls is_digit))
              (Cls is_digit))).
Definition re_M : re :=
  Grp gM (Alt (Cat (Cls (arng "0" "5")) (Cls is_digit)) (Cls is_digit)).
Definition re_S : re :=
  Grp gS (Alt (Cat (Cls (one "6")) (Cls (arng "0" "1")))
         (Alt (Cat (Cls (arng "0" "5")) (Cls is_digit))
              (Cls is_digit))).

(** ["%Y-%m-%d"] *)
Definition fmt_date : re :=
  Seq [re_Y; Cls (one "-"); re_m; Cls (one "-"); re_d].

(** ["%Y-%m-%d %H:%M:%S"]; the blank of the format stands for [\s+]. *)
Definition fmt_datetime : re :=
  Seq [re_Y; Cls (one "-"); re_m; Cls (one "-"); re_d; Plus is_space;
       re_H; Cls (one ":"); re_M; Cls (one ":"); re_S].

(** The value of a directive: [int] of its group, or the default when the
    format has no such directive. *)
Definition field (g : nat) (default : Z) (c : caps) : option Z :=
  match group g c with
  | Some s => py_int s
  | None => Some default
  end.

(** [datetime.strptime(data, fmt)]: the pattern must match at the start of
    [data] and leave nothing over, and the fields must make a valid date.
    [None] is [ValueError], the one exception it raises on a [str]. *)
Definition strptime (fmt : re) (data : str) : option datetime :=
  match re_match fmt data with
  | None => None
  | Some (_ :: _, _) => None
  | Some ([], c) =>
      match field gY 1900 c, field gm 1 c, field gd 1 c,
            field gH 0 c, field gM 0 c, field gS 0 c with
      | Some y, Some m, Some d, Some hh, Some mm, Some ss =>
          new_datetime y m d hh mm ss
      | _, _, _, _, _, _ => None
      end
  end.

Local Close Scope Z_scope.

(** ** Dictionaries, sets and sorting *)

(** A [dict] with keys [str]: pairs in insertion order, one per key. *)
Definition dict (V : Type) : Type := list (str * V).

(** [d.get(k)] *)
Fixpoint dict_get {V : Type} (k : str) (d : dict V) : option V :=
  match d with
  | [] => None
  | (k', v) :: d' => if str_eqb k k' then Some v else dict_get k d'
  end.

(** [d.get(k, default)] *)
Definition get_or {V : Type} (k : str) (default : V) (d : dict V) : V :=
  match dict_get k d with
  | Some v => v
  | None => default
  end.

(** A default for an absent (or null) string field. *)
Definition or_empty (o : option str) : str :=
  match o with
  | Some s => s
  | None => []
  end.

Fixpoint mem (x : str) (l : list str) : bool :=
  match l with
  | [] => false
  | y :: l' => str_eqb x y || mem x l'
  end.

(** [set.add]: a [set] of strings is a list without repetition. *)
Definition set_add (x : str) (l : list str) : list str :=
  if mem x l then l else l ++ [x].

Definition set_of (l : list str) : list str :=
  fold_left (fun acc x => set_add x acc) l [].

Section Sorting.
Variable A : Type.
Variable leb : A -> A -> bool.

(** Put [x], which came before all of [l], in its place: before the first
    element that is not smaller, hence before its equals. *)
Fixpoint insert (x : A) (l : list A) : list A :=
  match l with
  | [] => [x]
  | y :: l' => if leb x y then x :: l else y :: insert x l'
  end.

(** [sorted(l)] and [l.sort()]: a stable sort. *)
Definition sorted (l : list A) : list A := fold_right insert [] l.
End Sorting.

(** ** The archive *)

Record raw_message : Type := {
  Timestamp : option str;
  Contents : option str;
  Attachments : option str
}.

(** A message with the keys [_channel], [_group] and [_type] added. *)
Record message : Type := {
  msg : raw_message;
  tag_channel : str;
  tag_group : str;
  tag_type : str
}.

Record guild_meta : Type := {
  guild_name_field : option str
}.

(** [channel.json]: the keys the reader looks at. *)
Record channel_meta : Type := {
  meta_type : option str;
  meta_guild : option guild_meta;
  meta_name : option str;
  meta_recipients : option (list str)
}.

Record user_profile : Type := {
  user_id : option str;
  user_global_name : option str;
  user_username : option str;
  user_created_at : option str
}.

Definition empty_user : user_profile :=
  {| user_id := None; user_global_name := None;
     user_username := None; user_created_at := None |}.

(** The content of an entry: text [json.load] rejects, or the value it
    returns. *)
Inductive body (A : Type) : Type :=
| Undecodable
| Json (a : A).

Arguments Undecodable {A}.
Arguments Json {A} a.

(** An open [ZipFile]: entries by name, each held at the type of the file
    its name is read as. *)
Record zipfile : Type := {
  index_json : option (body (dict str));          (* Messages/index.json *)
  user_json : option (body user_profile);         (* Account/user.json *)
  channel_jsons : dict (body channel_meta);       (* .../channel.json *)
  messages_jsons : dict (body (list raw_message)); (* .../messages.json *)
  other_names : list str
}.

Definition present {A : Type} (name : string) (e : option A) : list str :=
  match e with
  | Some _ => [lit name]
  | None => []
  end.

(** [zf.namelist()] *)
Definition namelist (zf : zipfile) : list str :=
  present "Messages/index.json" (index_json zf)
  ++ present "Account/user.json" (user_json zf)
  ++ map fst (channel_jsons zf)
  ++ map fst (messages_jsons zf)
  ++ other_names zf.

(** [json.load(zf.open(name))] *)
Definition load {A : Type} (e : option (body A)) : result A :=
  match e with
  | None => Raise KeyError
  | Some Undecodable => Raise JSONDecodeError
  | Some (Json a) => Ok a
  end.

(** [try: x = r  except <caught>: x = default] *)
Definition try_except {A : Type} (caught : exn -> bool) (default : A)
  (r : result A) : result A :=
  match r with
  | Ok a => Ok a
  | Raise e => if caught e then Ok default else Raise e
  end.

Definition only_KeyError (e : exn) : bool :=
  match e with KeyError => true | _ => false end.

Definition KeyError_or_JSONDecodeError (e : exn) : bool :=
  match e with KeyError | JSONDecodeError => true | _ => false end.

(** One entry of the [channels] list. *)
Record channel : Type := {
  c_id : str;
  c_name : str;
  c_group : str;
  c_type : str;
  message_count : nat;
  recipients : list str
}.

Record package : Type := {
  channels : list channel;
  messages : list message;
  user : user_profile
}.

(** ** The channel resolver (lines 60-83 of [parse_package]) *)

Definition DM : str := lit "DM".
Definition GROUP_DM : str := lit "GROUP_DM".
Definition dm_prefix : str := lit "Direct Message with ".
Definition sep_in : str := lit " in ".

(** [Direct Message with (.+?)(?:#\d+)?$] *)
Definition dm_pattern : re :=
  Seq [Lit dm_prefix; Grp 1 (PlusLazy dot);
       Opt (Cat (Cls (one "#")) (Plus is_digit)); Eos].

(** [s.split(sep, 1)] *)
Definition split1 (sep s : str) : list str :=
  match split_once sep s with
  | Some (l, r) => [l; r]
  | None => [s]
  end.

Definition resolve (ch_type ch_name guild_name channel_id idx_val : str)
  : str * str :=
  if str_eqb ch_type DM then
    let friend_name :=
      match re_match dm_pattern idx_val with
      | Some (_, c) => or_empty (group 1 c)
      | None => replace dm_prefix [] idx_val
      end in
    (friend_name, lit "Direct Messages")
  else if str_eqb ch_type GROUP_DM then
    (str_or ch_name (str_or idx_val (lit "Group DM")), lit "Group DMs")
  else if contains sep_in idx_val then
    let parts := split1 sep_in idx_val in
    (lit "#" ++ nth 0 parts [], nth 1 parts [])
  else
    (if truthy ch_name then lit "#" ++ ch_name else lit "#" ++ channel_id,
     str_or guild_name (lit "Unknown Server")).

(** [meta.get("type", "UNKNOWN")] *)
Definition ch_type_of (meta : channel_meta) : str :=
  match meta_type meta with
  | Some t => t
  | None => lit "UNKNOWN"
  end.

(** [guild.get("name", "") if guild else ""] *)
Definition guild_name_of (meta : channel_meta) : str :=
  match meta_guild meta with
  | Some g => or_empty (guild_name_field g)
  | None => []
  end.

(** [(display, group)] of a channel from its metadata, its id and the
    index's hint for it. *)
Definition resolve_channel (meta : channel_meta) (channel_id idx_val : str)
  : str * str :=
  resolve (ch_type_of meta) (or_empty (meta_name meta)) (guild_name_of meta)
    channel_id idx_val.

(** ** [parse_package] *)

Definition tag (display group ch_type : str) (m : raw_message) : message :=
  {| msg := m; tag_channel := display; tag_group := group;
     tag_type := ch_type |}.

Definition slash : N := 47%N.

(** The channel folders: the second path component of every name that
    starts with [Messages/c] and ends with [/channel.json]. *)
Definition channel_dirs (zf : zipfile) : list str :=
  set_of
    (map (fun name => nth 1 (split_chr slash name) [])
       (filter (fun name => startswith (lit "Messages/c") name
                            && endswith (lit "/channel.json") name)
          (namelist zf))).

(** The body of the loop over the channel folders; the state is
    [(channels, all_messages)]. *)
Definition channel_step (zf : zipfile) (index : dict str)
  (st : list channel * list message) (cdir : str)
  : result (list channel * list message) :=
  let channel_id := slice_from 1 cdir in
  match load (dict_get (lit "Messages/" ++ cdir ++ lit "/channel.json")
                (channel_jsons zf)) with
  | Raise e =>
      if KeyError_or_JSONDecodeError e then Ok st (* continue *)
      else Raise e
  | Ok meta =>
      msgs <- try_except KeyError_or_JSONDecodeError []
                (load (dict_get
                         (lit "Messages/" ++ cdir ++ lit "/messages.json")
                         (messages_jsons zf))) ;;
      let ch_type := ch_type_of meta in
      let idx_val := get_or channel_id [] index in
      let '(display, group) := resolve_channel meta channel_id idx_val in
      let tagged := map (tag display group ch_type) msgs in
      Ok (fst st ++ [ {| c_id := channel_id; c_name := display;
                         c_group := group; c_type := ch_type;
                         message_count := length msgs;
                         recipients :=
                           match meta_recipients meta with
                           | Some r => r
                           | None => []
                           end |} ],
          snd st ++ tagged)
  end.

Fixpoint channel_loop (zf : zipfile) (index : dict str)
  (st : list channel * list message) (dirs : list str)
  : result (list channel * list message) :=
  match dirs with
  | [] => Ok st
  | cdir :: dirs' =>
      st' <- channel_step zf index st cdir ;;
      channel_loop zf index st' dirs'
  end.

(** [parse_package(zip_path)]; [container] is what [zip_path] names, [None]
    when [zipfile.ZipFile] cannot open it. *)
Definition parse_package (container : option zipfile) : result package :=
  match container with
  | None => Raise FileNotFoundError
  | Some zf =>
      index <- try_except only_KeyError [] (load (index_json zf)) ;;
      user <- try_except only_KeyError empty_user (load (user_json zf)) ;;
      st <- channel_loop zf index ([], [])
              (sorted str_leb (channel_dirs zf)) ;;
      Ok {| channels := fst st; messages := snd st; user := user |}
  end.

(** ** Counters *)

Section Counter.
Variable K : Type.
Variable eqb : K -> K -> bool.

(** [c[k] += n] on a [Counter] or a [defaultdict(int)]: a new key goes
    last. *)
Fixpoint counter_add (k : K) (n : nat) (c : list (K * nat))
  : list (K * nat) :=
  match c with
  | [] => [(k, n)]
  | (k', v) :: c' =>
      if eqb k k' then (k', v + n) :: c'
      else (k', v) :: counter_add k n c'
  end.

(** [c.get(k, 0)] *)
Fixpoint counter_get (k : K) (c : list (K * nat)) : nat :=
  match c with
  | [] => 0
  | (k', v) :: c' => if eqb k k' then v else counter_get k c'
  end.

(** [Counter.most_common(1)[0]]: the first item of greatest count. *)
Fixpoint first_max (best : K * nat) (c : list (K * nat)) : K * nat :=
  match c with
  | [] => best
  | kv :: c' =>
      if snd best <? snd kv then first_max kv c' else first_max best c'
  end.
End Counter.

Definition pair_eqb (a b : Z * Z) : bool :=
  Z.eqb (fst a) (fst b) && Z.eqb (snd a) (snd b).

Definition pair_leb (a b : Z * Z) : bool :=
  Z.ltb (fst a) (fst b) || (Z.eqb (fst a) (fst b) && Z.leb (snd a) (snd b)).

(** ** [compute_stats] *)

Record rank : Type := {
  r_name : str;
  r_count : nat
}.

Record channel_rank : Type := {
  cr_name : str;
  cr_server : str;
  cr_count : nat
}.

Definition is_DM (c : channel) : bool := str_eqb (c_type c) DM.
Definition is_GROUP_DM (c : channel) : bool := str_eqb (c_type c) GROUP_DM.

(** [c["type"] not in ("DM", "GROUP_DM")] *)
Definition is_server (c : channel) : bool :=
  negb (is_DM c || is_GROUP_DM c).

Definition has_messages (c : channel) : bool := 0 <? message_count c.

Definition to_rank (c : channel) : rank :=
  {| r_name := c_name c; r_count := message_count c |}.

Definition to_channel_rank (c : channel) : channel_rank :=
  {| cr_name := c_name c; cr_server := c_group c;
     cr_count := message_count c |}.

(** The sort key [-x["count"]]: [x] is not after [y]. *)
Definition by_count (x y : rank) : bool := r_count y <=? r_count x.
Definition by_cr_count (x y : channel_rank) : bool :=
  cr_count y <=? cr_count x.

Definition top_dms_of (cs : list channel) : list rank :=
  firstn 25
    (sorted by_count
       (map to_rank (filter (fun c => is_DM c && has_messages c) cs))).

Definition top_group_dms_of (cs : list channel) : list rank :=
  firstn 15
    (sorted by_count
       (map to_rank (filter (fun c => is_GROUP_DM c && has_messages c) cs))).

(** The [server_msgs] dictionary after the loop over the channels. *)
Definition server_msgs_of (cs : list channel) : list (str * nat) :=
  fold_left
    (fun d c =>
       if is_server c then counter_add str_eqb (c_group c) (message_count c) d
       else d)
    cs [].

Definition top_servers_of (cs : list channel) : list rank :=
  firstn 20
    (sorted by_count
       (map (fun kv => {| r_name := fst kv; r_count := snd kv |})
          (filter (fun kv => 0 <? snd kv) (server_msgs_of cs)))).

Definition top_channels_of (cs : list channel) : list channel_rank :=
  firstn 20
    (sorted by_cr_count
       (map to_channel_rank
          (filter (fun c => is_server c && has_messages c) cs))).

(** [msg.get("Timestamp", "")] *)
Definition timestamp_of (m : message) : str := or_empty (Timestamp (msg m)).

(** The four counters of the loop over the messages. *)
Record buckets : Type := {
  b_monthly : list ((Z * Z) * nat);
  b_hourly : list (Z * nat);
  b_daily_dow : list (Z * nat);
  b_yearly : list (Z * nat)
}.

Definition no_buckets : buckets :=
  {| b_monthly := []; b_hourly := []; b_daily_dow := []; b_yearly := [] |}.

(** [datetime.strptime(ts[:19], "%Y-%m-%d %H:%M:%S")] under its [try]. *)
Definition parse_timestamp (ts : str) : option datetime :=
  strptime fmt_datetime (slice_to 19 ts).

(** One turn of the loop.  The month key stands for the text
    [dt.strftime("%Y-%m")]. *)
Definition bucket_step (b : buckets) (m : message) : buckets :=
  let ts := timestamp_of m in
  if negb (truthy ts) then b
  else
    match parse_timestamp ts with
    | None => b
    | Some dt =>
        {| b_monthly := counter_add pair_eqb (year dt, month dt) 1 (b_monthly b);
           b_hourly := counter_add Z.eqb (hour dt) 1 (b_hourly b);
           b_daily_dow := counter_add Z.eqb (weekday dt) 1 (b_daily_dow b);
           b_yearly := counter_add Z.eqb (year dt) 1 (b_yearly b) |}
    end.

Definition bucket_loop (ms : list message) : buckets :=
  fold_left bucket_step ms no_buckets.

Definition dow_names : list str :=
  [lit "Mon"; lit "Tue"; lit "Wed"; lit "Thu"; lit "Fri"; lit "Sat";
   lit "Sun"].

(** [range(n)] *)
Definition range (n : nat) : list Z := map Z.of_nat (seq 0 n).

(** [sorted(monthly.items())]: by year, then month, which is the order of
    the keys' texts for years of four digits. *)
Definition monthly_of (ms : list message) : list ((Z * Z) * nat) :=
  sorted (fun a b => pair_leb (fst a) (fst b)) (b_monthly (bucket_loop ms)).

Definition hourly_of (ms : list message) : list (Z * nat) :=
  map (fun h => (h, counter_get Z.eqb h (b_hourly (bucket_loop ms))))
    (range 24).

Definition daily_dow_of (ms : list message) : list (str * nat) :=
  map (fun d => (nth (Z.to_nat d) dow_names [],
                 counter_get Z.eqb d (b_daily_dow (bucket_loop ms))))
    (range 7).

Definition yearly_of (ms : list message) : list (Z * nat) :=
  sorted (fun a b => Z.leb (fst a) (fst b)) (b_yearly (bucket_loop ms)).

(** The non-empty timestamps, in stream order. *)
Definition timestamps_of (ms : list message) : list str :=
  filter truthy (map timestamp_of ms).

(** [msg_dates]: the set of the [ts[:10]]. *)
Definition msg_dates_of (ms : list message) : list str :=
  set_of (map (slice_to 10) (timestamps_of ms)).

(** The variables of the streak scan. *)
Record streak_state : Type := {
  longest_streak_v : nat;
  current_streak : nat;
  streak_start : str;
  best_streak_start : str
}.

Definition parse_date (s : str) : result datetime :=
  match strptime fmt_date s with
  | Some dt => Ok dt
  | None => Raise ValueError
  end.

(** The loop [for i in range(1, len(sorted_dates))]: [prev] is
    [sorted_dates[i - 1]] and the list holds [sorted_dates[i:]]. *)
Fixpoint streak_loop (prev : str) (rest : list str) (st : streak_state)
  : result streak_state :=
  match rest with
  | [] => Ok st
  | cur :: rest' =>
      p <- parse_date prev ;;
      c <- parse_date cur ;;
      let st' :=
        if (toordinal c - toordinal p =? 1)%Z then
          {| longest_streak_v := longest_streak_v st;
             current_streak := current_streak st + 1;
             streak_start := streak_start st;
             best_streak_start := best_streak_start st |}
        else if longest_streak_v st <? current_streak st then
          {| longest_streak_v := current_streak st;
             current_streak := 1;
             streak_start := cur;
             best_streak_start := streak_start st |}
        else
          {| longest_streak_v := longest_streak_v st;
             current_streak := 1;
             streak_start := cur;
             best_streak_start := best_streak_start st |} in
      streak_loop cur rest' st'
  end.

(** [(longest_streak, longest_streak_start)] from [sorted_dates]. *)
Definition streak_of_dates (sorted_dates : list str) : result (nat * str) :=
  let start := match sorted_dates with d :: _ => d | [] => [] end in
  let st0 := {| longest_streak_v := 0; current_streak := 1;
                streak_start := start; best_streak_start := start |} in
  st <- match sorted_dates with
        | [] => Ok st0
        | d :: rest => streak_loop d rest st0
        end ;;
  if longest_streak_v st <? current_streak st
  then Ok (current_streak st, streak_start st)
  else Ok (longest_streak_v st, best_streak_start st).

Definition streak_of (ms : list message) : result (nat * str) :=
  streak_of_dates (sorted str_leb (msg_dates_of ms)).

(** [min(l)] and [max(l)] on a non-empty list of strings. *)
Definition min_str (x : str) (l : list str) : str :=
  fold_left (fun best y => if str_ltb y best then y else best) l x.
Definition max_str (x : str) (l : list str) : str :=
  fold_left (fun best y => if str_ltb best y then y else best) l x.

(** [(first_message, last_message, active_days)] *)
Definition first_last_of (ms : list message) : str * str * nat :=
  match timestamps_of ms with
  | t :: ts => (min_str t ts, max_str t ts, length (msg_dates_of ms))
  | [] => ([], [], 0)
  end.

(** [day_counts] *)
Definition day_counts_of (ms : list message) : list (str * nat) :=
  fold_left (fun c ts => counter_add str_eqb (slice_to 10 ts) 1 c)
    (timestamps_of ms) [].

(** [(busiest_day, busiest_day_count)] *)
Definition busiest_of (ms : list message) : str * nat :=
  match day_counts_of ms with
  | kv :: c => first_max kv c
  | [] => ([], 0)
  end.

(** The result, without the entries that only read [Contents] and
    [Attachments] (lengths, attachments, words, emoji) and [time_of_day];
    none of those can raise. *)
Record stats : Type := {
  total_messages : nat;
  total_channels : nat;
  total_dms : nat;
  total_group_dms : nat;
  total_servers : nat;
  top_dms : list rank;
  top_group_dms : list rank;
  top_servers : list rank;
  top_channels : list channel_rank;
  monthly : list ((Z * Z) * nat);
  hourly : list (Z * nat);
  daily_dow : list (str * nat);
  yearly : list (Z * nat);
  longest_streak : nat;
  longest_streak_start : str;
  first_message : str;
  last_message : str;
  active_days : nat;
  busiest_day : str;
  busiest_day_count : nat
}.

Definition compute_stats (data : package) : result stats :=
  let cs := channels data in
  let ms := messages data in
  streak <- streak_of ms ;;
  let '(first, last, days) := first_last_of ms in
  Ok {| total_messages := length ms;
        total_channels := length cs;
        total_dms := length (filter is_DM cs);
        total_group_dms := length (filter is_GROUP_DM cs);
        total_servers := length (set_of (map c_group (filter is_server cs)));
        top_dms := top_dms_of cs;
        top_group_dms := top_group_dms_of cs;
        top_servers := top_servers_of cs;
        top_channels := top_channels_of cs;
        monthly := monthly_of ms;
        hourly := hourly_of ms;
        daily_dow := daily_dow_of ms;
        yearly := yearly_of ms;
        longest_streak := fst streak;
        longest_streak_start := snd streak;
        first_message := first;
        last_message := last;
        active_days := days;
        busiest_day := fst (busiest_of ms);
        busiest_day_count := snd (busiest_of ms) |}.

(** ** Words and emoji (lines 203-258 of [compute_stats]) *)

(** [msg.get("Contents", "")] *)
Definition contents_of (m : message) : str := or_empty (Contents (msg m)).

Definition stopwords : list str :=
  [lit "the"; lit "a"; lit "an"; lit "is"; lit "are"; lit "was";
    lit "were"; lit "be"; lit "been"; lit "being"; lit "have"; lit "has";
    lit "had"; lit "do"; lit "does"; lit "did"; lit "will"; lit "would";
    lit "could"; lit "should"; lit "may"; lit "might"; lit "shall";
    lit "can"; lit "to"; lit "of"; lit "in"; lit "for"; lit "on";
    lit "with"; lit "at"; lit "by"; lit "from"; lit "as"; lit "into";
    lit "through"; lit "during"; lit "before"; lit "after"; lit "and";
    lit "but"; lit "or"; lit "nor"; lit "not"; lit "so"; lit "yet";
    lit "both"; lit "either"; lit "neither"; lit "each"; lit "every";
    lit "all"; lit "any"; lit "few"; lit "more"; lit "most"; lit "other";
    lit "some"; lit "such"; lit "no"; lit "only"; lit "own"; lit "same";
    lit "than"; lit "too"; lit "very"; lit "just"; lit "i"; lit "me";
    lit "my"; lit "we"; lit "our"; lit "you"; lit "your"; lit "he";
    lit "him"; lit "his"; lit "she"; lit "her"; lit "it"; lit "its";
    lit "they"; lit "them"; lit "their"; lit "what"; lit "which";
    lit "who"; lit "whom"; lit "this"; lit "that"; lit "these";
    lit "those"; lit "am"; lit "if"; lit "then"; lit "else"; lit "when";
    lit "up"; lit "out"; lit "about"; lit "how"; lit "why"; lit "where";
    lit "there"; lit "here"; lit "also"; lit "like"; lit "oh"; lit "im";
    lit "ok"; lit "yeah"; lit "dont"; lit "thats"; lit "lol"; lit "omg";
    lit "u"; lit "ur" ].

(** [c.lower()] for one code point, exact on ASCII.  Outside ASCII only the
    two code points whose lower case holds an ASCII letter are mapped
    (U+0130 and U+212A); the others are kept, their lower case holding no
    character of the class [[a-zA-Z']]. *)
Definition lower_cp (c : N) : str :=
  if arng "A" "Z" c then [(c + 32)%N]
  else if N.eqb c 0x130 then [0x69; 0x307]%N
  else if N.eqb c 0x212A then [0x6B]%N
  else [c].

(** [text.lower()] *)
Definition lower (text : str) : str := flat_map lower_cp text.

(** [[a-zA-Z']+] *)
Definition word_pattern : re :=
  Plus (either (arng "a" "z") (either (arng "A" "Z") (one "'"))).

(** [re.findall(r"[a-zA-Z']+", text.lower())] *)
Definition words_of (text : str) : list str :=
  findall word_pattern (lower text).

(** The words of [text] that are counted. *)
Definition counted_words (text : str) : list str :=
  filter (fun w => (2 <=? length w) && negb (mem w stopwords))
    (words_of text).

Definition count_all (c : list (str * nat)) (l : list str)
  : list (str * nat) :=
  fold_left (fun c w => counter_add str_eqb w 1 c) l c.

(** [word_counter] after the loop over the messages. *)
Definition word_counter_of (ms : list message) : list (str * nat) :=
  fold_left
    (fun c m =>
       let text := contents_of m in
       if negb (truthy text) then c
       else count_all c (counted_words text))
    ms [].

Definition emoji_class (c : N) : bool :=
  rng 0x1F600 0x1F64F c || rng 0x1F300 0x1F5FF c || rng 0x1F680 0x1F6FF c
  || rng 0x1F900 0x1F9FF c || rng 0x1FA00 0x1FA6F c || rng 0x1FA70 0x1FAFF c
  || rng 0x2702 0x27B0 c || rng 0xFE00 0xFE0F c || N.eqb c 0x200D
  || rng 0x2640 0x2642 c || rng 0x2600 0x26FF c.

Definition emoji_pattern : re := Plus emoji_class.

Section DiscordEmoji.
(** [\w]: the alphanumeric code points of the Unicode database and the
    underscore; the table is left open. *)
Variable word_char : N -> bool.

(** [<a?:\w+:\d+>|:[a-zA-Z0-9_]+:] *)
Definition discord_emoji_pattern : re :=
  Alt (Seq [Cls (one "<"); Opt (Cls (one "a")); Cls (one ":");
            Plus word_char; Cls (one ":"); Plus is_digit; Cls (one ">")])
      (Seq [Cls (one ":");
            Plus (either (arng "a" "z")
                    (either (arng "A" "Z")
                       (either (arng "0" "9") (one "_"))));
            Cls (one ":")]).

(** [emoji_counter] after the loop over the messages. *)
Definition emoji_counter_of (ms : list message) : list (str * nat) :=
  fold_left
    (fun c m =>
       let text := contents_of m in
       if negb (truthy text) then c
       else count_all (count_all c (findall emoji_pattern text))
              (findall discord_emoji_pattern text))
    ms [].
End DiscordEmoji.

(** * Notions used in the statements, and sample inputs *)

Unset Implicit Arguments.

(** A message of a server channel with the given timestamp and no text. *)
Definition stamped (ts : string) : message :=
  {| msg := {| Timestamp := Some (lit ts); Contents := None;
               Attachments := None |};
     tag_channel := lit "#general"; tag_group := lit "My Server";
     tag_type := lit "GUILD_TEXT" |}.

(** A message with the given text and no timestamp. *)
Definition said (text : str) : message :=
  {| msg := {| Timestamp := None; Contents := Some text;
               Attachments := None |};
     tag_channel := lit "#general"; tag_group := lit "My Server";
     tag_type := lit "GUILD_TEXT" |}.

(** A package that holds only a message stream. *)
Definition stream (ms : list message) : package :=
  {| channels := []; messages := ms; user := empty_user |}.

(** The timestamp of [m] is one the bucket loop accepts. *)
Definition parses (m : message) : bool :=
  truthy (timestamp_of m)
  && match parse_timestamp (timestamp_of m) with
     | Some _ => true
     | None => false
     end.

(** The text [Hi there! U+1F600 :custom_emoji:]. *)
Definition sample_text : str :=
  lit "Hi there! " ++ [0x1F600%N] ++ lit " :custom_emoji:".

(** The dates 2024-01-01, -02, -03 and -05. *)
Definition four_days : list message :=
  [stamped "2024-01-01 09:00:00"; stamped "2024-01-02 09:00:00";
   stamped "2024-01-03 09:00:00"; stamped "2024-01-05 09:00:00"].

(** Two messages whose timestamps are no dates. *)
Definition two_bad_dates : list message :=
  [stamped "yesterday"; stamped "today"].

(** A good message, and one of the next day whose hour is 99. *)
Definition early : message := stamped "2024-01-01 10:00:00".
Definition late : message := stamped "2024-01-02 99:00:00".

(** An archive whose [Account/user.json] is not JSON. *)
Definition broken_user : zipfile :=
  {| index_json := None; user_json := Some Undecodable;
     channel_jsons := []; messages_jsons := []; other_names := [] |}.

(** [sum] of a list of counts. *)
Definition total (l : list nat) : nat := list_sum l.

(** The number of distinct strings of a list. *)
Definition distinct (l : list str) : nat :=
  length (nodup (list_eq_dec N.eq_dec) l).

(** A direct-message channel's [channel.json], and an archive with that one
    channel, two messages and the given index entry. *)
Definition dm_meta : channel_meta :=
  {| meta_type := Some DM; meta_guild := None; meta_name := None;
     meta_recipients := None |}.

Definition raw (ts : string) : raw_message :=
  {| Timestamp := Some (lit ts); Contents := None; Attachments := None |}.

Definition one_channel (idx : option (body (dict str))) : zipfile :=
  {| index_json := idx; user_json := None;
     channel_jsons := [(lit "Messages/c1/channel.json", Json dm_meta)];
     messages_jsons :=
       [(lit "Messages/c1/messages.json",
         Json [raw "2024-01-01 10:00:00"; raw "2024-01-02 11:30:00"])];
     other_names := [] |}.

(** What [parse_package] makes of that archive when it has no index. *)
Definition one_channel_package : package :=
  {| channels :=
       [ {| c_id := lit "1"; c_name := []; c_group := lit "Direct Messages";
            c_type := DM; message_count := 2; recipients := [] |} ];
     messages :=
       [ tag [] (lit "Direct Messages") DM (raw "2024-01-01 10:00:00");
         tag [] (lit "Direct Messages") DM (raw "2024-01-02 11:30:00") ];
     user := empty_user |}.

(** The loop of [parse_package] keeps the stream as long as the counts say. *)
Definition counts_agree (st : list channel * list message) : Prop :=
  length (snd st) = total (map message_count (fst st)).

(** The times the bucket loop reads off a stream, in order. *)
Definition parsed_times (ms : list message) : list datetime :=
  flat_map
    (fun m =>
       if truthy (timestamp_of m) then
         match parse_timestamp (timestamp_of m) with
         | Some dt => [dt]
         | None => []
         end
       else [])
    ms.

(** A counter after one [+= 1] for each key of a list. *)
Definition tally {K : Type} (eqb : K -> K -> bool) (l : list K)
  (c : list (K * nat)) : list (K * nat) :=
  fold_left (fun c k => counter_add eqb k 1 c) l c.

(** How often [k] occurs in [l]. *)
Definition occurrences {K : Type} (eqb : K -> K -> bool) (k : K)
  (l : list K) : nat :=
  length (filter (eqb k) l).

(** The date prefixes [ts[:10]] of the non-empty timestamps. *)
Definition date_prefixes (ms : list message) : list str :=
  map (slice_to 10) (timestamps_of ms).

(** What lines 289-297 are to return for a stream: when it holds a
    non-empty timestamp, the least and the greatest of the non-empty
    timestamps and the number of distinct date prefixes; otherwise two empty
    strings and 0. *)
Definition first_last_spec (ms : list message) (r : str * str * nat) : Prop :=
  let '(first, last, days) := r in
  (timestamps_of ms <> [] ->
     In first (timestamps_of ms) /\ In last (timestamps_of ms)
     /\ (forall t, In t (timestamps_of ms) ->
           str_leb first t = true /\ str_leb t last = true)
     /\ str_leb first last = true
     /\ days = distinct (date_prefixes ms))
  /\ (timestamps_of ms = [] -> first = [] /\ last = [] /\ days = 0).

(** A stream whose only timestamp is no date. *)
Definition one_bad_date : list message := [stamped "garbage"].

(** [s] is [left], then the first occurrence of [sep], then [right]. *)
Definition first_split (sep s left right : str) : Prop :=
  s = left ++ sep ++ right
  /\ forall l r, s = l ++ sep ++ r -> length left <= length l.

(** [sep] occurs in [s]. *)
Definition occurs (sep s : str) : Prop :=
  exists l r, s = l ++ sep ++ r.

(** A server channel's [channel.json]. *)
Definition server_meta : channel_meta :=
  {| meta_type := Some (lit "GUILD_TEXT"); meta_guild := None;
     meta_name := None; meta_recipients := None |}.

(** What [(?:#\d+)?$] accepts: nothing or a [#] and digits, then the end of
    the text or a last newline. *)
Definition dm_tail (t : str) : Prop :=
  exists ds e,
    t = ds ++ e
    /\ (e = [] \/ e = [newline])
    /\ (ds = []
        \/ exists ds', ds = N_of_ascii "#" :: ds' /\ ds' <> []
                       /\ Forall (fun c => is_digit c = true) ds').

(** [hint] is the literal ["Direct Message with "], then [name], then an
    accepted tail, and no shorter non-empty name leaves an accepted tail:
    [name] is what the lazy group [(.+?)] takes. *)
Definition dm_name (hint name : str) : Prop :=
  exists tail,
    hint = dm_prefix ++ name ++ tail
    /\ name <> []
    /\ Forall (fun c => c <> newline) name
    /\ dm_tail tail
    /\ forall name' tail',
         hint = dm_prefix ++ name' ++ tail' -> name' <> [] ->
         dm_tail tail' -> length name <= length name'.

(** The rest of [dm_pattern] after the group. *)
Definition dm_tail_re : re :=
  Cat (Opt (Cat (Cls (one "#")) (Plus is_digit))) Eos.

(** The last continuation of [re_match]. *)
Definition done (s : str) (c : caps) : option (str * caps) := Some (s, c).

(** Two hints with the literal at a place that is not its start, and the
    text the claim's prefix stripping would leave of them. *)
Definition hint_reply : str := lit "Re: Direct Message with Bob".
Definition hint_two_lines : str :=
  lit "Direct Message with a" ++ [newline] ++ lit "Direct Message with b".

(** [s.removeprefix(p)] *)
Definition removeprefix (p s : str) : str :=
  if startswith p s then skipn (length p) s else s.

(** [top] is a ranking of [candidates]: the first [cap] entries of a list
    [full] that holds the candidates in descending order of count, those of
    equal count in the order they have in [candidates]. *)
Definition ranking {A : Type} (count : A -> nat) (cap : nat)
  (candidates top : list A) : Prop :=
  exists full,
    top = firstn cap full
    /\ Permutation full candidates
    /\ StronglySorted (fun x y => count y <= count x) full
    /\ forall n, filter (fun x => count x =? n) full
                 = filter (fun x => count x =? n) candidates.

(** The strings of a list without repetition, in the order in which they
    first occur. *)
Fixpoint first_occurrences (l : list str) : list str :=
  match l with
  | [] => []
  | x :: l' => x :: filter (fun y => negb (str_eqb y x)) (first_occurrences l')
  end.

(** The messages of the server channels of group [g]. *)
Definition server_total (g : str) (cs : list channel) : nat :=
  total (map message_count
           (filter (fun c => is_server c && str_eqb (c_group c) g) cs)).

(** The messages of all the channels of group [g], of whatever type. *)
Definition group_total (g : str) (cs : list channel) : nat :=
  total (map message_count (filter (fun c => str_eqb (c_group c) g) cs)).

(** The candidates of the four rankings, in the order of the channel list;
    a server stands where its first channel stands. *)
Definition dm_candidates (cs : list channel) : list rank :=
  map to_rank (filter (fun c => is_DM c && has_messages c) cs).

Definition group_dm_candidates (cs : list channel) : list rank :=
  map to_rank (filter (fun c => is_GROUP_DM c && has_messages c) cs).

Definition server_candidates (cs : list channel) : list rank :=
  map (fun g => {| r_name := g; r_count := server_total g cs |})
    (filter (fun g => 0 <? server_total g cs)
       (first_occurrences (map c_group (filter is_server cs)))).

Definition channel_candidates (cs : list channel) : list channel_rank :=
  map to_channel_rank (filter (fun c => is_server c && has_messages c) cs).

(** The place of the first message of group [g] in a stream. *)
Fixpoint first_seen (g : str) (ms : list message) : option nat :=
  match ms with
  | [] => None
  | m :: ms' =>
      if str_eqb (tag_group m) g then Some 0
      else option_map S (first_seen g ms')
  end.

(** Three channels of two servers: the first channel of server S has no
    messages, so the stream meets server T first. *)
Definition tie_archive : zipfile :=
  {| index_json :=
       Some (Json [(lit "1", lit "rules in S"); (lit "2", lit "chat in T");
                   (lit "3", lit "chat in S")]);
     user_json := None;
     channel_jsons :=
       [(lit "Messages/c1/channel.json", Json server_meta);
        (lit "Messages/c2/channel.json", Json server_meta);
        (lit "Messages/c3/channel.json", Json server_meta)];
     messages_jsons :=
       [(lit "Messages/c2/messages.json", Json [raw "2024-01-01 10:00:00"]);
        (lit "Messages/c3/messages.json", Json [raw "2024-01-01 11:00:00"])];
     other_names := [] |}.

Definition tie_package : package :=
  {| channels :=
       [ {| c_id := lit "1"; c_name := lit "#rules"; c_group := lit "S";
            c_type := lit "GUILD_TEXT"; message_count := 0;
            recipients := [] |};
         {| c_id := lit "2"; c_name := lit "#chat"; c_group := lit "T";
            c_type := lit "GUILD_TEXT"; message_count := 1;
            recipients := [] |};
         {| c_id := lit "3"; c_name := lit "#chat"; c_group := lit "S";
            c_type := lit "GUILD_TEXT"; message_count := 1;
            recipients := [] |} ];
     messages :=
       [ tag (lit "#chat") (lit "T") (lit "GUILD_TEXT")
           (raw "2024-01-01 10:00:00");
         tag (lit "#chat") (lit "S") (lit "GUILD_TEXT")
           (raw "2024-01-01 11:00:00") ];
     user := empty_user |}.

(** A direct-message channel with two messages and a channel of a server
    that is itself called "Direct Messages". *)
Definition namesake_archive : zipfile :=
  {| index_json :=
       Some (Json [(lit "1", lit "Direct Message with Alex#0001");
                   (lit "2", lit "general in Direct Messages")]);
     user_json := None;
     channel_jsons :=
       [(lit "Messages/c1/channel.json", Json dm_meta);
        (lit "Messages/c2/channel.json", Json server_meta)];
     messages_jsons :=
       [(lit "Messages/c1/messages.json",
         Json [raw "2024-01-01 10:00:00"; raw "2024-01-02 11:30:00"]);
        (lit "Messages/c2/messages.json", Json [raw "2024-01-03 09:00:00"])];
     other_names := [] |}.

Definition namesake_package : package :=
  {| channels :=
       [ {| c_id := lit "1"; c_name := lit "Alex";
            c_group := lit "Direct Messages"; c_type := DM;
            message_count := 2; recipients := [] |};
         {| c_id := lit "2"; c_name := lit "#general";
            c_group := lit "Direct Messages"; c_type := lit "GUILD_TEXT";
            message_count := 1; recipients := [] |} ];
     messages :=
       [ tag (lit "Alex") (lit "Direct Messages") DM
           (raw "2024-01-01 10:00:00");
         tag (lit "Alex") (lit "Direct Messages") DM
           (raw "2024-01-02 11:30:00");
         tag (lit "#general") (lit "Direct Messages") (lit "GUILD_TEXT")
           (raw "2024-01-03 09:00:00") ];
     user := empty_user |}.

(** The folder [cdir] has a [channel.json] that is JSON. *)
Definition has_meta (zf : zipfile) (cdir : str) : bool :=
  match dict_get (lit "Messages/" ++ cdir ++ lit "/channel.json")
          (channel_jsons zf) with
  | Some (Json _) => true
  | _ => false
  end.

(** The day number of a text that is a date. *)
Definition day_number (s : str) : option Z :=
  option_map toordinal (strptime fmt_date s).

(** [b] is the day after [a]. *)
Definition next_day (a b : str) : bool :=
  match day_number a, day_number b with
  | Some x, Some y => (y - x =? 1)%Z
  | _, _ => false
  end.

(** The runs of consecutive days of the list [d :: rest], in order: a run
    goes on as long as each date is the day after the one before it. *)
Fixpoint runs_from (d : str) (rest : list str) : list (list str) :=
  match rest with
  | [] => [[d]]
  | e :: rest' =>
      match runs_from e rest' with
      | r :: rs => if next_day d e then (d :: r) :: rs else [d] :: r :: rs
      | [] => [[d]]
      end
  end.

Definition runs (l : list str) : list (list str) :=
  match l with
  | [] => []
  | d :: rest => runs_from d rest
  end.

(** The first of the longest runs. *)
Fixpoint longest_from (best : list str) (rs : list (list str)) : list str :=
  match rs with
  | [] => best
  | r :: rs' =>
      if length best <? length r then longest_from r rs'
      else longest_from best rs'
  end.

Definition longest (rs : list (list str)) : list str :=
  match rs with
  | [] => []
  | r :: rs' => longest_from r rs'
  end.

(** Length and first date of a run. *)
Definition run_info (r : list str) : nat * str := (length r, hd [] r).

(** The better of the runs met so far and the next ones, the earlier
    winning a tie. *)
Fixpoint pick (best : nat * str) (l : list (nat * str)) : nat * str :=
  match l with
  | [] => best
  | c :: l' => pick (if fst best <? fst c then c else best) l'
  end.

(** What the streak scan reports at its end. *)
Definition final (st : streak_state) : nat * str :=
  if longest_streak_v st <? current_streak st
  then (current_streak st, streak_start st)
  else (longest_streak_v st, best_streak_start st).

(** Each date of [r] is the day after the one before it. *)
Fixpoint consecutive (r : list str) : Prop :=
  match r with
  | a :: (b :: _) as r' => next_day a b = true /\ consecutive r'
  | _ => True
  end.

(** No run of [rs] goes on into the next one. *)
Fixpoint separate (rs : list (list str)) : Prop :=
  match rs with
  | r1 :: (r2 :: _) as rs' =>
      next_day (last r1 []) (hd [] r2) = false /\ separate rs'
  | _ => True
  end.

(** [r] is the first of the longest of [rs]. *)
Definition first_longest (r : list str) (rs : list (list str)) : Prop :=
  exists before after,
    rs = before ++ r :: after
    /\ (forall x, In x before -> length x < length r)
    /\ (forall x, In x after -> length x <= length r).

(** * More of discord_stats.py *)

From Stdlib Require Import DecimalNat.

(** ** The other entries of [compute_stats] (lines 185-200, 227, 258 and
    313-323) *)

(** [Counter.most_common(n)], which is [heapq.nlargest(n, items, key=count)]:
    the first [n] of the items sorted by descending count, items of equal
    count in the order of the counter. *)
Definition most_common {K : Type} (n : nat) (c : list (K * nat))
  : list (K * nat) :=
  firstn n (sorted (fun x y => snd y <=? snd x) c).

(** [text.split()]: the maximal pieces of [s] without white space; [word]
    holds the piece being read. *)
Fixpoint split_from (s word : str) : list str :=
  match s with
  | [] => if truthy word then [word] else []
  | c :: s' =>
      if is_space c then
        if truthy word then word :: split_from s' [] else split_from s' []
      else split_from s' (word ++ [c])
  end.

Definition split_ws (s : str) : list str := split_from s [].

(** The texts of the messages for which [msg.get("Contents")] is true. *)
Definition texts_of (ms : list message) : list str :=
  filter truthy (map contents_of ms).

(** [lengths] *)
Definition lengths_of (ms : list message) : list nat :=
  map (@length N) (texts_of ms).

(** [max(l)] on a list of numbers, called on non-empty lists only. *)
Definition max_of (l : list nat) : nat :=
  match l with
  | [] => 0
  | x :: l' => fold_left (fun best y => if best <? y then y else best) l' x
  end.

(** [msg.get("Attachments")] *)
Definition attachments_of (m : message) : str :=
  or_empty (Attachments (msg m)).

(** [sum(hourly.get(h, 0) for h in range(a, b))] *)
Definition window (hourly : list (Z * nat)) (a b : nat) : nat :=
  list_sum
    (map (fun h => counter_get Z.eqb h hourly)
       (map Z.of_nat (seq a (b - a)))).

Record time_of_day : Type := {
  night : nat;
  morning : nat;
  afternoon : nat;
  evening : nat
}.

Definition time_of_day_of (ms : list message) : time_of_day :=
  let hourly := b_hourly (bucket_loop ms) in
  {| night := window hourly 0 6;
     morning := window hourly 6 12;
     afternoon := window hourly 12 18;
     evening := window hourly 18 24 |}.

(** The entries of the result that [stats] leaves out, but for
    [avg_msg_length], which is a rounded float. *)
Record more_stats : Type := {
  max_msg_length : nat;
  total_characters : nat;
  total_words : nat;
  attachment_count : nat;
  top_words : list (str * nat);
  top_emoji : list (str * nat);
  tod : time_of_day
}.

Section MoreStats.
(** [\w], as for [discord_emoji_pattern]. *)
Variable word_char : N -> bool.

(** The three figures on lengths are 0 in the [else] branch of
    [if lengths]. *)
Definition compute_more (data : package) : more_stats :=
  let ms := messages data in
  let lengths := lengths_of ms in
  {| max_msg_length :=
       match lengths with
       | [] => 0
       | _ :: _ => max_of lengths
       end;
     total_characters :=
       match lengths with
       | [] => 0
       | _ :: _ => list_sum lengths
       end;
     total_words :=
       match lengths with
       | [] => 0
       | _ :: _ =>
           list_sum (map (fun t => length (split_ws t)) (texts_of ms))
       end;
     attachment_count := length (filter truthy (map attachments_of ms));
     top_words := most_common 30 (word_counter_of ms);
     top_emoji := most_common 20 (emoji_counter_of word_char ms);
     tod := time_of_day_of ms |}.
End MoreStats.

(** ** [build_html] (lines 328-388 and the values written into the page) *)

(** What [build_html] and the whole run can raise. *)
Inductive failure : Type :=
| Raised (e : exn)
| ZeroDivisionError.

(** [html.escape(s)]: five replacements, [&] first. *)
Definition escape (s : str) : str :=
  replace [39%N] (lit "&#x27;")
    (replace [34%N] (lit "&quot;")
       (replace (lit ">") (lit "&gt;")
          (replace (lit "<") (lit "&lt;")
             (replace (lit "&") (lit "&amp;") s)))).

Fixpoint uint_digits (u : Decimal.uint) : str :=
  match u with
  | Decimal.Nil => []
  | Decimal.D0 u' => 48%N :: uint_digits u'
  | Decimal.D1 u' => 49%N :: uint_digits u'
  | Decimal.D2 u' => 50%N :: uint_digits u'
  | Decimal.D3 u' => 51%N :: uint_digits u'
  | Decimal.D4 u' => 52%N :: uint_digits u'
  | Decimal.D5 u' => 53%N :: uint_digits u'
  | Decimal.D6 u' => 54%N :: uint_digits u'
  | Decimal.D7 u' => 55%N :: uint_digits u'
  | Decimal.D8 u' => 56%N :: uint_digits u'
  | Decimal.D9 u' => 57%N :: uint_digits u'
  end.

(** [str(n)] and [f"{n}"] for a number that is not negative. *)
Definition str_of_nat (n : nat) : str := uint_digits (Nat.to_uint n).

Definition comma : N := 44%N.

(** The digits of a number from the last to the first, a comma put before
    every fourth one; [k] digits of the present group are out. *)
Fixpoint commas_from (rev_digits : str) (k : nat) : str :=
  match rev_digits with
  | [] => []
  | d :: ds =>
      match k with
      | 3 => comma :: d :: commas_from ds 1
      | _ => d :: commas_from ds (S k)
      end
  end.

(** [f"{n:,}"] *)
Definition with_commas (n : nat) : str :=
  rev (commas_from (rev (str_of_nat n)) 0).

(** [f"{h:02d}"] for a number that is not negative. *)
Definition two_digits (n : nat) : str :=
  if n <? 10 then 48%N :: str_of_nat n else str_of_nat n.

(** A double quote. *)
Definition dq : str := [34%N].

(** [json.dumps] on a list of strings or of counts, with its defaults
    ([ensure_ascii] and the separator [", "]). *)

Definition backslash : N := 92%N.

(** One of [0123456789abcdef]. *)
Definition hex_digit (n : N) : N :=
  if (n <? 10)%N then (48 + n)%N else (87 + n)%N.

(** [format(n, "04x")] for [n] below 65536. *)
Definition hex4 (n : N) : str :=
  [hex_digit ((n / 4096) mod 16); hex_digit ((n / 256) mod 16);
   hex_digit ((n / 16) mod 16); hex_digit (n mod 16)]%N.

Definition u_escape (n : N) : str := backslash :: N_of_ascii "u" :: hex4 n.

(** What is written for one character of a string: the quote, the backslash
    and five control characters have short escapes, the other characters from
    the blank to the tilde stand for themselves, and every other one is
    written by its number, as a surrogate pair when above U+FFFF. *)
Definition json_cp (c : N) : str :=
  if N.eqb c 34 then [backslash; 34%N]
  else if N.eqb c backslash then [backslash; backslash]
  else if N.eqb c 8 then backslash :: lit "b"
  else if N.eqb c 12 then backslash :: lit "f"
  else if N.eqb c 10 then backslash :: lit "n"
  else if N.eqb c 13 then backslash :: lit "r"
  else if N.eqb c 9 then backslash :: lit "t"
  else if ((32 <=? c) && (c <=? 126))%N then [c]
  else if (c <? 65536)%N then u_escape c
  else
    let n := (c - 65536)%N in
    u_escape (N.lor 0xD800 (N.land (N.shiftr n 10) 0x3FF))
    ++ u_escape (N.lor 0xDC00 (N.land n 0x3FF)).

Definition json_string (s : str) : str := dq ++ flat_map json_cp s ++ dq.

(** [sep.join(items)] *)
Fixpoint join (sep : str) (items : list str) : str :=
  match items with
  | [] => []
  | [x] => x
  | x :: rest => x ++ sep ++ join sep rest
  end.

(** [json.dumps] of a list whose items are written as [items]. *)
Definition json_list (items : list str) : str :=
  lit "[" ++ join (lit ", ") items ++ lit "]".

(** What the page shows when [top_emoji_html] is empty. *)
Definition no_emoji : str :=
  lit "<span style=" ++ dq ++ lit "color:#949ba4" ++ dq
  ++ lit ">No emoji found</span>".

(** [top_words_html] and [top_emoji_html]: one chip for each item. *)
Definition chips (class : str) (items : list (str * nat)) : str :=
  flat_map
    (fun item =>
       lit "<span class=" ++ dq ++ class ++ dq ++ lit ">"
       ++ escape (fst item) ++ lit " <b>" ++ with_commas (snd item)
       ++ lit "</b></span>")
    items.

(** [enumerate(l, 1)] *)
Definition enumerate1 {A : Type} (l : list A) : list (nat * A) :=
  combine (seq 1 (length l)) l.

(** A row of [dm_table], [gdm_table] and [srv_table]. *)
Definition rank_row (row : nat * rank) : str :=
  lit "<tr><td class=" ++ dq ++ lit "rank" ++ dq ++ lit ">"
  ++ str_of_nat (fst row) ++ lit "</td><td>"
  ++ escape (r_name (snd row))
  ++ lit "</td><td class=" ++ dq ++ lit "num" ++ dq ++ lit ">"
  ++ with_commas (r_count (snd row)) ++ lit "</td></tr>".

(** A row of [ch_table]. *)
Definition channel_row (row : nat * channel_rank) : str :=
  lit "<tr><td class=" ++ dq ++ lit "rank" ++ dq ++ lit ">"
  ++ str_of_nat (fst row) ++ lit "</td><td>"
  ++ escape (cr_name (snd row))
  ++ lit "</td><td class=" ++ dq ++ lit "server" ++ dq ++ lit ">"
  ++ escape (cr_server (snd row))
  ++ lit "</td><td class=" ++ dq ++ lit "num" ++ dq ++ lit ">"
  ++ with_commas (cr_count (snd row)) ++ lit "</td></tr>".

(** The table over [l[:cap]]. *)
Definition rank_table (cap : nat) (l : list rank) : str :=
  flat_map rank_row (enumerate1 (firstn cap l)).

Definition channel_table (cap : nat) (l : list channel_rank) : str :=
  flat_map channel_row (enumerate1 (firstn cap l)).

(** [max(l, key=lambda x: x[1])]: the first item of greatest count;
    [ValueError] on the empty list. *)
Definition max_by_count {K : Type} (l : list (K * nat))
  : failure + (K * nat) :=
  match l with
  | [] => inl (Raised ValueError)
  | kv :: l' => inr (first_max kv l')
  end.

(** [tod] as the dictionary it is, in the order of its keys. *)
Definition tod_items (t : time_of_day) : list (str * nat) :=
  [(lit "night", night t); (lit "morning", morning t);
   (lit "afternoon", afternoon t); (lit "evening", evening t)].

(** [user.get("global_name") or user.get("username") or "User"] *)
Definition username_of (u : user_profile) : str :=
  str_or (or_empty (user_global_name u))
    (str_or (or_empty (user_username u)) (lit "User")).

(** The values [build_html] writes into the page.  [share] holds the two
    numbers whose quotient the page shows as a percentage. *)
Record page : Type := {
  p_username : str;
  p_first_day : str;
  p_last_day : str;
  p_busiest_day : str;
  p_streak_start : str;
  p_top_words_html : str;
  p_top_emoji_html : str;
  p_dm_table : str;
  p_gdm_table : str;
  p_ch_table : str;
  p_srv_table : str;
  p_dm_labels : str;
  p_dm_values : str;
  p_srv_labels : str;
  p_srv_values : str;
  p_peak_hour : str * nat;
  p_peak_dow : str * nat;
  p_night_owl : bool;
  p_share : nat * nat;
  p_hours : str
}.

(** [build_html(stats, user)], the fixed markup, the plain numbers and the
    data of the charts other than the two bar charts left aside.  The quotient
    [max(tod.values()) / sum(tod.values())] is the one operation of the page
    that can raise. *)
Definition build_html (st : stats) (more : more_stats) (u : user_profile)
  : failure + page :=
  match max_by_count (hourly st) with
  | inl e => inl e
  | inr peak_hour =>
      match max_by_count (daily_dow st) with
      | inl e => inl e
      | inr peak_dow =>
          let t := tod more in
          let total := night t + morning t + afternoon t + evening t in
          if total =? 0 then inl ZeroDivisionError
          else
            inr {| p_username := escape (username_of u);
                   p_first_day := escape (slice_to 10 (first_message st));
                   p_last_day := escape (slice_to 10 (last_message st));
                   p_busiest_day := escape (busiest_day st);
                   p_streak_start := escape (longest_streak_start st);
                   p_top_words_html :=
                     chips (lit "word-chip") (top_words more);
                   p_top_emoji_html :=
                     str_or (chips (lit "emoji-chip") (top_emoji more))
                       no_emoji;
                   p_dm_table := rank_table 25 (top_dms st);
                   p_gdm_table := rank_table 15 (top_group_dms st);
                   p_ch_table := channel_table 20 (top_channels st);
                   p_srv_table := rank_table 20 (top_servers st);
                   p_dm_labels :=
                     json_list
                       (map (fun d => json_string (slice_to 20 (r_name d)))
                          (firstn 15 (top_dms st)));
                   p_dm_values :=
                     json_list
                       (map (fun d => str_of_nat (r_count d))
                          (firstn 15 (top_dms st)));
                   p_srv_labels :=
                     json_list
                       (map (fun s => json_string (slice_to 25 (r_name s)))
                          (firstn 15 (top_servers st)));
                   p_srv_values :=
                     json_list
                       (map (fun s => str_of_nat (r_count s))
                          (firstn 15 (top_servers st)));
                   p_peak_hour :=
                     (two_digits (Z.to_nat (fst peak_hour)) ++ lit ":00",
                      snd peak_hour);
                   p_peak_dow := peak_dow;
                   p_night_owl :=
                     morning t + afternoon t <? night t + evening t;
                   p_share := (max_of (map snd (tod_items t)), total);
                   p_hours :=
                     replace (lit "evening") (lit "evening")
                       (replace (lit "night") (lit "late night")
                          (match tod_items t with
                           | kv :: l => fst (first_max kv l)
                           | [] => []
                           end)) |}
      end
  end.

(** ** The run of [main] (lines 730-737) *)

Section Run.
Variable word_char : N -> bool.

(** [build_html(compute_stats(data), data["user"])] for
    [data = parse_package(zip_path)]. *)
Definition run_report (container : option zipfile) : failure + page :=
  match parse_package container with
  | Raise e => inl (Raised e)
  | Ok data =>
      match compute_stats data with
      | Raise e => inl (Raised e)
      | Ok st => build_html st (compute_more word_char data) (user data)
      end
  end.
End Run.

(** * Notions used in the further statements *)

(** The number of occurrences of a character in a text. *)
Definition count_chr (c : N) (s : str) : nat := occurrences N.eqb c s.

(** A month before another. *)
Definition month_before (a b : Z * Z) : Prop :=
  (fst a < fst b)%Z \/ (fst a = fst b /\ (snd a < snd b)%Z).

(** The tags of a message, and those a channel gives its messages. *)
Definition tags_of (m : message) : str * str * str :=
  (tag_channel m, tag_group m, tag_type m).

Definition channel_tags (c : channel) : str * str * str :=
  (c_name c, c_group c, c_type c).

(** The words counted over a stream, in order. *)
Definition all_counted_words (ms : list message) : list str :=
  flat_map
    (fun m =>
       if truthy (contents_of m) then counted_words (contents_of m) else [])
    ms.

(** The least number of characters a match of a pattern takes. *)
Fixpoint min_len (r : re) : nat :=
  match r with
  | Eps => 0
  | Cls _ => 1
  | Cat r1 r2 => min_len r1 + min_len r2
  | Alt r1 r2 => Nat.min (min_len r1) (min_len r2)
  | Opt _ => 0
  | Plus _ => 1
  | PlusLazy _ => 1
  | Grp _ r1 => min_len r1
  | Eos => 0
  end.

(** What [html.escape] makes of one character. *)
Definition escape_cp (c : N) : str :=
  if N.eqb 38 c then lit "&amp;"
  else if N.eqb 60 c then lit "&lt;"
  else if N.eqb 62 c then lit "&gt;"
  else if N.eqb 34 c then lit "&quot;"
  else if N.eqb 39 c then lit "&#x27;"
  else [c].

(** The hour of a time lies in the window from [a] to [b]. *)
Definition in_window (a b : nat) (dt : datetime) : bool :=
  ((Z.of_nat a <=? hour dt) && (hour dt <? Z.of_nat b))%Z.

(** An archive with one group conversation that has neither a name nor a
    hint. *)
Definition group_meta : channel_meta :=
  {| meta_type := Some GROUP_DM; meta_guild := None; meta_name := None;
     meta_recipients := None |}.

Definition group_archive : zipfile :=
  {| index_json := None; user_json := None;
     channel_jsons := [(lit "Messages/c7/channel.json", Json group_meta)];
     messages_jsons :=
       [(lit "Messages/c7/messages.json", Json [raw "2024-01-01 10:00:00"])];
     other_names := [] |}.

Definition group_package : package :=
  {| channels :=
       [ {| c_id := lit "7"; c_name := lit "Group DM";
            c_group := lit "Group DMs"; c_type := GROUP_DM;
            message_count := 1; recipients := [] |} ];
     messages :=
       [ tag (lit "Group DM") (lit "Group DMs") GROUP_DM
           (raw "2024-01-01 10:00:00") ];
     user := empty_user |}.

(** The entry the reader makes for a folder with the given metadata, id,
    hint and number of messages. *)
Definition entry_of (meta : channel_meta) (channel_id idx_val : str)
  (n : nat) : channel :=
  {| c_id := channel_id;
     c_name := fst (resolve_channel meta channel_id idx_val);
     c_group := snd (resolve_channel meta channel_id idx_val);
     c_type := ch_type_of meta;
     message_count := n;
     recipients := match meta_recipients meta with
                   | Some r => r
                   | None => []
                   end |}.

(** What the reader guarantees of an entry: a direct message is filed under
    "Direct Messages", a group conversation under "Group DMs" and has a
    name, and the name of any other channel starts with [#]. *)
Definition well_filed (c : channel) : Prop :=
  (is_DM c = true -> c_group c = lit "Direct Messages")
  /\ (is_GROUP_DM c = true -> c_group c = lit "Group DMs" /\ c_name c <> [])
  /\ (is_server c = true -> exists t, c_name c = N_of_ascii "#" :: t).

(** The emoji counted over a stream, in order. *)
Definition all_emoji (word_char : N -> bool) (ms : list message)
  : list str :=
  flat_map
    (fun m =>
       if truthy (contents_of m)
       then findall emoji_pattern (contents_of m)
            ++ findall (discord_emoji_pattern word_char) (contents_of m)
       else [])
    ms.

(** The distinct texts of a list in the order in which they first occur,
    each with the number of its occurrences. *)
Definition counted (l : list str) : list (str * nat) :=
  map (fun w => (w, occurrences str_eqb w l)) (first_occurrences l).

(** A lower-case letter or an apostrophe. *)
Definition word_cp (c : N) : bool := either (arng "a" "z") (one "'") c.

(** The number of places of [s] where a word starts: a character that is
    not white space and stands first (when [prev_space]) or after white
    space. *)
Fixpoint word_starts (prev_space : bool) (s : str) : nat :=
  match s with
  | [] => 0
  | c :: s' =>
      (if prev_space && negb (is_space c) then 1 else 0)
      + word_starts (is_space c) s'
  end.

(** The characters that open or close a tag or an attribute value:
    [<], [>], the double and the single quote. *)
Definition markup (c : N) : bool :=
  N.eqb c 60 || N.eqb c 62 || N.eqb c 34 || N.eqb c 39.

(** A decimal digit 0-9. *)
Definition ascii_digit (c : N) : bool := arng "0" "9" c.

(** How many messages with an accepted timestamp fall in hour [h], and on
    weekday [w] (0 for Monday). *)
Definition hour_count (ms : list message) (h : Z) : nat :=
  occurrences Z.eqb h (map hour (parsed_times ms)).

Definition dow_count (ms : list message) (w : Z) : nat :=
  occurrences Z.eqb w (map weekday (parsed_times ms)).

(** The four counts of the times of day in the order of the dictionary, and
    the texts the page shows for them. *)
Definition tod_counts (t : time_of_day) : list nat :=
  [night t; morning t; afternoon t; evening t].

Definition tod_labels : list str :=
  [lit "late night"; lit "morning"; lit "afternoon"; lit "evening"].

(** The index the reader works with: the content of [Messages/index.json],
    empty when the archive has none. *)
Definition the_index (zf : zipfile) : dict str :=
  match index_json zf with
  | Some (Json i) => i
  | _ => []
  end.

(** The messages of a folder: the content of its [messages.json], none when
    that is missing or is not JSON. *)
Definition folder_messages (zf : zipfile) (cdir : str) : list raw_message :=
  match dict_get (lit "Messages/" ++ cdir ++ lit "/messages.json")
          (messages_jsons zf) with
  | Some (Json ms) => ms
  | _ => []
  end.

(** The entries a folder adds to the channel list. *)
Definition folder_entry (zf : zipfile) (index : dict str) (cdir : str)
  : list channel :=
  match dict_get (lit "Messages/" ++ cdir ++ lit "/channel.json")
          (channel_jsons zf) with
  | Some (Json meta) =>
      [entry_of meta (slice_from 1 cdir)
         (get_or (slice_from 1 cdir) [] index)
         (length (folder_messages zf cdir))]
  | _ => []
  end.

(** A character that [json.dumps] writes as it is. *)
Definition json_plain (c : N) : bool :=
  (32 <=? c)%N && (c <=? 126)%N && negb (N.eqb c 34)
  && negb (N.eqb c backslash).

(** A package with one direct-message channel whose friend is called
    [<b>]. *)
Definition markup_package : package :=
  {| channels :=
       [ {| c_id := lit "1"; c_name := lit "<b>";
            c_group := lit "Direct Messages"; c_type := DM;
            message_count := 1; recipients := [] |} ];
     messages :=
       [ tag (lit "<b>") (lit "Direct Messages") DM
           (raw "2024-01-01 10:00:00") ];
     user := empty_user |}.

(** An archive with one direct-message channel of two messages; the second
    has the hour 99, so its timestamp does not parse, and its date is the
    day after the first. *)
Definition late_archive : zipfile :=
  {| index_json := None; user_json := None;
     channel_jsons := [(lit "Messages/c1/channel.json", Json dm_meta)];
     messages_jsons :=
       [(lit "Messages/c1/messages.json",
         Json [raw "2024-01-01 10:00:00"; raw "2024-01-02 99:00:00"])];
     other_names := [] |}.

Definition late_package : package :=
  {| channels :=
       [ {| c_id := lit "1"; c_name := []; c_group := lit "Direct Messages";
            c_type := DM; message_count := 2; recipients := [] |} ];
     messages :=
       [ tag [] (lit "Direct Messages") DM (raw "2024-01-01 10:00:00");
         tag [] (lit "Direct Messages") DM (raw "2024-01-02 99:00:00") ];
     user := empty_user |}.


(** * Facts about strings *)

Lemma str_eqb_eq (a b : str) : str_eqb a b = true <-> a = b.
Proof.
  revert b; induction a as [|x a IH]; intros [|y b]; simpl;
    try (split; (discriminate || reflexivity)).
  rewrite andb_true_iff, N.eqb_eq, IH.
  split; [intros [-> ->]; reflexivity | intros H; inversion H; auto].
Qed.

Lemma str_eqb_refl (a : str) : str_eqb a a = true.
Proof. apply str_eqb_eq; reflexivity. Qed.

Lemma str_eqb_neq (a b : str) : str_eqb a b = false <-> a <> b.
Proof.
  rewrite <- str_eqb_eq. destruct (str_eqb a b); split; intros H;
    try discriminate; try reflexivity; congruence.
Qed.

Lemma str_eqb_sym (a b : str) : str_eqb a b = str_eqb b a.
Proof.
  destruct (str_eqb a b) eqn:E.
  - apply str_eqb_eq in E; subst; symmetry; apply str_eqb_refl.
  - symmetry; apply str_eqb_neq; apply str_eqb_neq in E; congruence.
Qed.

Lemma str_eq_dec (a b : str) : {a = b} + {a <> b}.
Proof. apply (list_eq_dec N.eq_dec). Qed.

Lemma str_ltb_irrefl (a : str) : str_ltb a a = false.
Proof.
  induction a as [|x a IH]; simpl; [reflexivity|].
  rewrite N.ltb_irrefl, N.eqb_refl; exact IH.
Qed.

Lemma str_ltb_trans (a b c : str) :
  str_ltb a b = true -> str_ltb b c = true -> str_ltb a c = true.
Proof.
  revert b c; induction a as [|x a IH]; intros [|y b] [|z c]; simpl;
    try discriminate; try reflexivity.
  destruct (N.ltb_spec x y), (N.ltb_spec y z), (N.ltb_spec x z);
    try reflexivity; try lia;
    destruct (N.eqb_spec x y), (N.eqb_spec y z), (N.eqb_spec x z);
    try discriminate; try lia; intros; eauto.
Qed.

Lemma str_ltb_connex (a b : str) :
  str_ltb a b = false -> str_ltb b a = false -> a = b.
Proof.
  revert b; induction a as [|x a IH]; intros [|y b]; simpl;
    try discriminate; try reflexivity.
  destruct (N.ltb_spec x y), (N.ltb_spec y x); try discriminate; try lia.
  destruct (N.eqb_spec x y), (N.eqb_spec y x); try lia; subst.
  intros H1 H2; f_equal; auto.
Qed.

Lemma str_ltb_asym (a b : str) : str_ltb a b = true -> str_ltb b a = false.
Proof.
  intros H; destruct (str_ltb b a) eqn:E; [|reflexivity].
  pose proof (str_ltb_trans _ _ _ H E) as F.
  rewrite str_ltb_irrefl in F; discriminate.
Qed.

Lemma str_leb_refl (a : str) : str_leb a a = true.
Proof. unfold str_leb; rewrite str_ltb_irrefl; reflexivity. Qed.

Lemma str_leb_total (a b : str) : str_leb a b = true \/ str_leb b a = true.
Proof.
  unfold str_leb. destruct (str_ltb b a) eqn:E; [right | left; reflexivity].
  rewrite (str_ltb_asym _ _ E); reflexivity.
Qed.

Lemma str_leb_antisym (a b : str) :
  str_leb a b = true -> str_leb b a = true -> a = b.
Proof.
  unfold str_leb; rewrite !negb_true_iff; intros H1 H2.
  apply str_ltb_connex; assumption.
Qed.

Lemma str_leb_trans (a b c : str) :
  str_leb a b = true -> str_leb b c = true -> str_leb a c = true.
Proof.
  unfold str_leb; rewrite !negb_true_iff; intros H1 H2.
  destruct (str_ltb c a) eqn:E; [|reflexivity].
  destruct (str_ltb a b) eqn:F.
  - pose proof (str_ltb_trans _ _ _ E F); congruence.
  - pose proof (str_ltb_connex _ _ F H1); subst; congruence.
Qed.

Lemma startswith_app (p t : str) : startswith p (p ++ t) = true.
Proof.
  induction p as [|x p IH]; simpl; [reflexivity|].
  rewrite N.eqb_refl; exact IH.
Qed.

Lemma startswith_iff (p s : str) :
  startswith p s = true <-> exists t, s = p ++ t.
Proof.
  split.
  - revert s; induction p as [|x p IH]; intros s H; simpl in *.
    + exists s; reflexivity.
    + destruct s as [|y s]; [discriminate|].
      apply andb_true_iff in H; destruct H as [H1 H2].
      apply N.eqb_eq in H1; subst.
      destruct (IH _ H2) as [t ->]; exists t; reflexivity.
  - intros [t ->]; apply startswith_app.
Qed.

Lemma startswith_skipn (p s : str) :
  startswith p s = true -> s = p ++ skipn (length p) s.
Proof.
  intros H; apply startswith_iff in H; destruct H as [t ->].
  rewrite skipn_app, skipn_all, Nat.sub_diag; reflexivity.
Qed.

(** * Facts about the stable sort *)

Section SortFacts.
Variable A : Type.
Variable leb : A -> A -> bool.

Lemma insert_perm (x : A) (l : list A) : Permutation (insert leb x l) (x :: l).
Proof.
  induction l as [|y l IH]; simpl; [reflexivity|].
  destruct (leb x y); [reflexivity|].
  rewrite IH; apply perm_swap.
Qed.

Lemma sorted_perm (l : list A) : Permutation (sorted leb l) l.
Proof.
  induction l as [|x l IH]; simpl; [reflexivity|].
  unfold sorted in *; simpl. rewrite insert_perm, IH; reflexivity.
Qed.

Lemma sorted_length (l : list A) : length (sorted leb l) = length l.
Proof. apply Permutation_length, sorted_perm. Qed.

Lemma sorted_In (l : list A) (x : A) : In x (sorted leb l) <-> In x l.
Proof.
  split; apply Permutation_in; [|symmetry]; apply sorted_perm.
Qed.

(** Elements of one class of the order keep their relative order. *)
Lemma insert_filter (f : A -> bool)
  (Hf : forall x y, f x = true -> f y = true -> leb x y = true)
  (x : A) (l : list A) :
  filter f (insert leb x l) = filter f (x :: l).
Proof.
  induction l as [|y l IH]; simpl; [reflexivity|].
  destruct (leb x y) eqn:E; [reflexivity|].
  simpl in *. rewrite IH.
  destruct (f x) eqn:Fx, (f y) eqn:Fy; try reflexivity.
  rewrite (Hf _ _ Fx Fy) in E; discriminate.
Qed.

Lemma sorted_filter (f : A -> bool)
  (Hf : forall x y, f x = true -> f y = true -> leb x y = true)
  (l : list A) :
  filter f (sorted leb l) = filter f l.
Proof.
  induction l as [|x l IH]; [reflexivity|].
  unfold sorted in *; simpl fold_right.
  rewrite insert_filter by assumption. simpl; rewrite IH; reflexivity.
Qed.

Hypothesis leb_total : forall x y, leb x y = true \/ leb y x = true.
Hypothesis leb_trans :
  forall x y z, leb x y = true -> leb y z = true -> leb x z = true.

Lemma insert_sorted (x : A) (l : list A) :
  StronglySorted (fun a b => leb a b = true) l ->
  StronglySorted (fun a b => leb a b = true) (insert leb x l).
Proof.
  induction 1 as [|y l Hs IH Hy]; simpl.
  - constructor; constructor.
  - destruct (leb x y) eqn:E.
    + constructor; [constructor; assumption|].
      constructor; [assumption|].
      eapply Forall_impl; [|exact Hy]. intros a Ha; eauto.
    + constructor; [assumption|].
      eapply Permutation_Forall; [symmetry; apply insert_perm|].
      constructor; [|assumption].
      destruct (leb_total x y); congruence.
Qed.

Lemma sorted_sorted (l : list A) :
  StronglySorted (fun a b => leb a b = true) (sorted leb l).
Proof.
  induction l as [|x l IH]; [constructor|].
  unfold sorted in *; simpl; apply insert_sorted; assumption.
Qed.
End SortFacts.

(** * [parse_package] *)

Lemma load_raises (A : Type) (e : option (body A)) (x : exn) :
  load e = Raise x -> KeyError_or_JSONDecodeError x = true.
Proof.
  destruct e as [[|a]|]; simpl; intros H; inversion H; reflexivity.
Qed.

(** The body of the channel loop raises nothing. *)
Lemma channel_step_returns (zf : zipfile) (index : dict str)
  (st : list channel * list message) (cdir : str) :
  exists st', channel_step zf index st cdir = Ok st'.
Proof.
  unfold channel_step.
  destruct (load (dict_get _ (channel_jsons zf))) as [meta|e] eqn:E.
  - destruct (load (dict_get _ (messages_jsons zf))) as [ms|e'] eqn:E'; simpl.
    + destruct (resolve_channel _ _ _); eexists; reflexivity.
    + rewrite (load_raises _ _ _ E'); simpl.
      destruct (resolve_channel _ _ _); eexists; reflexivity.
  - rewrite (load_raises _ _ _ E); eexists; reflexivity.
Qed.

Lemma channel_loop_returns (zf : zipfile) (index : dict str)
  (dirs : list str) (st : list channel * list message) :
  exists st', channel_loop zf index st dirs = Ok st'.
Proof.
  revert st; induction dirs as [|cdir dirs IH]; intros st; simpl.
  - eexists; reflexivity.
  - destruct (channel_step_returns zf index st cdir) as [st1 ->]; simpl.
    apply IH.
Qed.

(** [parse_package] raises exactly when the container cannot be opened or
    when [index.json] or [user.json] is there and is not JSON. *)
Lemma parse_package_raises (container : option zipfile) (e : exn) :
  parse_package container = Raise e <->
  (container = None /\ e = FileNotFoundError)
  \/ (exists zf, container = Some zf /\ e = JSONDecodeError
      /\ (index_json zf = Some Undecodable
          \/ user_json zf = Some Undecodable)).
Proof.
  destruct container as [zf|]; simpl.
  - destruct (index_json zf) as [[|idx]|] eqn:Ei; simpl.
    + split.
      * intros H; inversion H; right; exists zf; auto.
      * intros [[H _]|(zf' & H & -> & _)]; [discriminate|reflexivity].
    + destruct (user_json zf) as [[|u]|] eqn:Eu; simpl.
      * split.
        -- intros H; inversion H; right; exists zf; auto.
        -- intros [[H _]|(zf' & H & -> & _)]; [discriminate|reflexivity].
      * destruct (channel_loop_returns zf idx (sorted str_leb (channel_dirs zf))
                    ([], [])) as [st ->]; simpl.
        split; [discriminate|].
        intros [[H _]|(zf' & H & _ & [H'|H'])]; try discriminate;
          inversion H; subst; congruence.
      * destruct (channel_loop_returns zf idx (sorted str_leb (channel_dirs zf))
                    ([], [])) as [st ->]; simpl.
        split; [discriminate|].
        intros [[H _]|(zf' & H & _ & [H'|H'])]; try discriminate;
          inversion H; subst; congruence.
    + destruct (user_json zf) as [[|u]|] eqn:Eu; simpl.
      * split.
        -- intros H; inversion H; right; exists zf; auto.
        -- intros [[H _]|(zf' & H & -> & _)]; [discriminate|reflexivity].
      * destruct (channel_loop_returns zf [] (sorted str_leb (channel_dirs zf))
                    ([], [])) as [st ->]; simpl.
        split; [discriminate|].
        intros [[H _]|(zf' & H & _ & [H'|H'])]; try discriminate;
          inversion H; subst; congruence.
      * destruct (channel_loop_returns zf [] (sorted str_leb (channel_dirs zf))
                    ([], [])) as [st ->]; simpl.
        split; [discriminate|].
        intros [[H _]|(zf' & H & _ & [H'|H'])]; try discriminate;
          inversion H; subst; congruence.
  - split.
    + intros H; inversion H; left; auto.
    + intros [[_ ->]|(zf & H & _)]; [reflexivity|discriminate].
Qed.

Lemma total_app (l1 l2 : list nat) : total (l1 ++ l2) = total l1 + total l2.
Proof. apply list_sum_app. Qed.

Lemma channel_step_counts (zf : zipfile) (index : dict str)
  (st st' : list channel * list message) (cdir : str) :
  channel_step zf index st cdir = Ok st' ->
  counts_agree st -> counts_agree st'.
Proof.
  unfold channel_step, counts_agree.
  destruct (load (dict_get _ (channel_jsons zf))) as [meta|e].
  - destruct (try_except _ _ _) as [ms|e']; simpl; [|discriminate].
    destruct (resolve_channel _ _ _) as [display grp].
    intros H; inversion H; subst; clear H; simpl. intros Hst.
    rewrite length_app, map_app, total_app, length_map, Hst; simpl.
    unfold total; simpl; lia.
  - destruct (KeyError_or_JSONDecodeError e); intros H; inversion H; subst.
    auto.
Qed.

Lemma channel_loop_counts (zf : zipfile) (index : dict str)
  (dirs : list str) (st st' : list channel * list message) :
  channel_loop zf index st dirs = Ok st' ->
  counts_agree st -> counts_agree st'.
Proof.
  revert st; induction dirs as [|cdir dirs IH]; intros st; simpl.
  - intros H; inversion H; subst; auto.
  - destruct (channel_step zf index st cdir) as [st1|e] eqn:E; simpl;
      [|discriminate].
    intros H Hst; apply (IH _ H).
    eapply channel_step_counts; eassumption.
Qed.

(** The stream [parse_package] returns is as long as its channel
    summaries say. *)
Lemma parse_package_counts (container : option zipfile) (d : package) :
  parse_package container = Ok d ->
  length (messages d) = total (map message_count (channels d)).
Proof.
  destruct container as [zf|]; simpl; [|discriminate].
  destruct (try_except only_KeyError [] _) as [idx|]; simpl; [|discriminate].
  destruct (try_except only_KeyError empty_user _) as [u|]; simpl;
    [|discriminate].
  destruct (channel_loop zf idx _ _) as [st|] eqn:E; simpl; [|discriminate].
  intros H; inversion H; subst; simpl.
  apply (channel_loop_counts _ _ _ _ _ E). reflexivity.
Qed.

(** * [compute_stats]: what it returns *)

(** [compute_stats] returns as soon as the streak scan does, and then each
    entry of the result is the value its section of the function computes. *)
Lemma compute_stats_Ok (d : package) (st : stats) :
  compute_stats d = Ok st ->
  streak_of (messages d) = Ok (longest_streak st, longest_streak_start st)
  /\ (first_message st, last_message st, active_days st)
     = first_last_of (messages d)
  /\ total_messages st = length (messages d)
  /\ top_dms st = top_dms_of (channels d)
  /\ top_group_dms st = top_group_dms_of (channels d)
  /\ top_servers st = top_servers_of (channels d)
  /\ top_channels st = top_channels_of (channels d)
  /\ monthly st = monthly_of (messages d)
  /\ hourly st = hourly_of (messages d)
  /\ daily_dow st = daily_dow_of (messages d)
  /\ yearly st = yearly_of (messages d)
  /\ (busiest_day st, busiest_day_count st) = busiest_of (messages d).
Proof.
  unfold compute_stats.
  destruct (streak_of (messages d)) as [[n s]|e]; simpl; [|discriminate].
  destruct (first_last_of (messages d)) as [[f l] a].
  intros H; inversion H; subst; clear H; simpl.
  destruct (busiest_of (messages d)); simpl.
  repeat split; reflexivity.
Qed.

Lemma compute_stats_returns (d : package) (r : nat * str) :
  streak_of (messages d) = Ok r -> exists st, compute_stats d = Ok st.
Proof.
  unfold compute_stats; intros ->; simpl.
  destruct (first_last_of (messages d)) as [[f l] a].
  eexists; reflexivity.
Qed.

(** * Sets and counters *)

Lemma mem_In (x : str) (l : list str) : mem x l = true <-> In x l.
Proof.
  induction l as [|y l IH]; simpl; [split; [discriminate|tauto]|].
  rewrite orb_true_iff, IH, str_eqb_eq. split; intros [H|H]; auto.
Qed.

Lemma set_add_In (x y : str) (l : list str) :
  In y (set_add x l) <-> y = x \/ In y l.
Proof.
  unfold set_add. destruct (mem x l) eqn:E.
  - apply mem_In in E. split; [auto|intros [->|H]; auto].
  - rewrite in_app_iff; simpl. split; intros H; intuition.
Qed.

Lemma set_add_NoDup (x : str) (l : list str) :
  NoDup l -> NoDup (set_add x l).
Proof.
  unfold set_add. destruct (mem x l) eqn:E; intros H; [assumption|].
  apply NoDup_rev in H. rewrite <- (rev_involutive (l ++ [x])).
  apply NoDup_rev. rewrite rev_app_distr; simpl.
  constructor; [|assumption].
  rewrite <- in_rev. intros F; apply mem_In in F; congruence.
Qed.

Lemma set_fold_In (l acc : list str) (y : str) :
  In y (fold_left (fun acc x => set_add x acc) l acc) <-> In y acc \/ In y l.
Proof.
  revert acc; induction l as [|x l IH]; intros acc; simpl; [tauto|].
  rewrite IH, set_add_In. intuition.
Qed.

Lemma set_fold_NoDup (l acc : list str) :
  NoDup acc -> NoDup (fold_left (fun acc x => set_add x acc) l acc).
Proof.
  revert acc; induction l as [|x l IH]; intros acc H; simpl; [assumption|].
  apply IH, set_add_NoDup, H.
Qed.

Lemma set_of_In (l : list str) (y : str) : In y (set_of l) <-> In y l.
Proof. unfold set_of; rewrite set_fold_In; simpl; tauto. Qed.

Lemma set_of_NoDup (l : list str) : NoDup (set_of l).
Proof. apply set_fold_NoDup; constructor. Qed.

(** [len(set(l))] is the number of distinct elements of [l]. *)
Lemma set_of_length (l : list str) : length (set_of l) = distinct l.
Proof.
  unfold distinct. apply Permutation_length, NoDup_Permutation.
  - apply set_of_NoDup.
  - apply NoDup_nodup.
  - intros y; rewrite set_of_In, nodup_In; tauto.
Qed.

Section CounterFacts.
Variable K : Type.
Variable eqb : K -> K -> bool.
Hypothesis eqb_eq : forall x y, eqb x y = true <-> x = y.

Lemma eqb_same (x : K) : eqb x x = true.
Proof. apply eqb_eq; reflexivity. Qed.

Lemma counter_get_add (k k' : K) (n : nat) (c : list (K * nat)) :
  counter_get eqb k (counter_add eqb k' n c)
  = counter_get eqb k c + (if eqb k k' then n else 0).
Proof.
  induction c as [|[k0 v] c IH]; simpl.
  - destruct (eqb k k'); reflexivity.
  - destruct (eqb k' k0) eqn:E; simpl.
    + apply eqb_eq in E; subst k0.
      destruct (eqb k k'); lia.
    + destruct (eqb k k0) eqn:F; [|exact IH].
      apply eqb_eq in F; subst k0.
      destruct (eqb k k') eqn:G; [|lia].
      apply eqb_eq in G; subst k'. rewrite eqb_same in E; discriminate.
Qed.

Lemma counter_get_tally (k : K) (l : list K) (c : list (K * nat)) :
  counter_get eqb k (tally eqb l c)
  = counter_get eqb k c + occurrences eqb k l.
Proof.
  unfold tally, occurrences.
  revert c; induction l as [|x l IH]; intros c; simpl; [lia|].
  rewrite IH, counter_get_add. destruct (eqb k x); simpl; lia.
Qed.

Lemma counter_add_keys (k k' : K) (n : nat) (c : list (K * nat)) :
  In k (map fst (counter_add eqb k' n c)) <-> k = k' \/ In k (map fst c).
Proof.
  induction c as [|[k0 v] c IH]; simpl; [intuition|].
  destruct (eqb k' k0) eqn:E; simpl.
  - apply eqb_eq in E; subst. intuition.
  - rewrite IH. intuition.
Qed.
End CounterFacts.

Lemma pair_eqb_eq (a b : Z * Z) : pair_eqb a b = true <-> a = b.
Proof.
  destruct a as [a1 a2], b as [b1 b2]; unfold pair_eqb; simpl.
  rewrite andb_true_iff, !Z.eqb_eq. split; [intros [-> ->]|intros H; inversion H]; auto.
Qed.

(** * The bucket loop *)

(** The four counters after the loop: one count for each time read. *)
Lemma bucket_fold (ms : list message) (b : buckets) :
  fold_left bucket_step ms b =
  {| b_monthly :=
       tally pair_eqb (map (fun dt => (year dt, month dt)) (parsed_times ms))
         (b_monthly b);
     b_hourly := tally Z.eqb (map hour (parsed_times ms)) (b_hourly b);
     b_daily_dow := tally Z.eqb (map weekday (parsed_times ms)) (b_daily_dow b);
     b_yearly := tally Z.eqb (map year (parsed_times ms)) (b_yearly b) |}.
Proof.
  revert b; induction ms as [|m ms IH]; intros b.
  - destruct b; reflexivity.
  - simpl fold_left. rewrite IH. unfold bucket_step, parsed_times; simpl.
    destruct (truthy (timestamp_of m)); simpl; [|reflexivity].
    destruct (parse_timestamp (timestamp_of m)); reflexivity.
Qed.

Lemma parsed_times_filter (ms : list message) :
  parsed_times (filter parses ms) = parsed_times ms.
Proof.
  induction ms as [|m ms IH]; [reflexivity|].
  unfold parsed_times in *; simpl. unfold parses at 1.
  destruct (truthy (timestamp_of m)) eqn:T; simpl; [|exact IH].
  destruct (parse_timestamp (timestamp_of m)) eqn:P; simpl; [|exact IH].
  rewrite T, P; simpl; f_equal; exact IH.
Qed.

Lemma parsed_times_length (ms : list message) :
  length (parsed_times ms) = length (filter parses ms).
Proof.
  induction ms as [|m ms IH]; [reflexivity|].
  unfold parsed_times in *; simpl. unfold parses.
  destruct (truthy (timestamp_of m)); simpl; [|exact IH].
  destruct (parse_timestamp (timestamp_of m)); simpl; [f_equal|]; exact IH.
Qed.

(** A message whose timestamp does not parse leaves the buckets alone. *)
Lemma bucket_loop_filter (ms : list message) :
  bucket_loop (filter parses ms) = bucket_loop ms.
Proof.
  unfold bucket_loop. rewrite !bucket_fold, parsed_times_filter; reflexivity.
Qed.

(** * A time [strptime] returns is in range *)

Lemma new_datetime_range (y m d hh mm ss : Z) (dt : datetime) :
  new_datetime y m d hh mm ss = Some dt ->
  (0 <= hour dt <= 23)%Z /\ (1 <= month dt <= 12)%Z
  /\ (1 <= year dt <= 9999)%Z /\ (1 <= day dt <= days_in_month y m)%Z.
Proof.
  unfold new_datetime.
  destruct (_ && _) eqn:E; [|discriminate].
  intros H; inversion H; subst; clear H; simpl.
  repeat (apply andb_true_iff in E; destruct E as [E ?]).
  repeat match goal with
         | H : (_ <=? _)%Z = true |- _ => apply Z.leb_le in H
         end.
  lia.
Qed.

Lemma strptime_hour (fmt : re) (s : str) (dt : datetime) :
  strptime fmt s = Some dt -> (0 <= hour dt <= 23)%Z.
Proof.
  unfold strptime.
  destruct (re_match fmt s) as [[[|? ?] c]|]; try discriminate.
  destruct (field gY 1900 c), (field gm 1 c), (field gd 1 c),
    (field gH 0 c), (field gM 0 c), (field gS 0 c); try discriminate.
  intros H; apply new_datetime_range in H; tauto.
Qed.

Lemma weekday_range (dt : datetime) : (0 <= weekday dt <= 6)%Z.
Proof.
  unfold weekday. pose proof (Z.mod_pos_bound (toordinal dt + 6) 7). lia.
Qed.

Lemma parsed_times_hour (ms : list message) :
  Forall (fun dt => (0 <= hour dt <= 23)%Z) (parsed_times ms).
Proof.
  induction ms as [|m ms IH]; [constructor|].
  unfold parsed_times in *; simpl.
  destruct (truthy (timestamp_of m)); simpl; [|exact IH].
  destruct (parse_timestamp (timestamp_of m)) eqn:P; simpl; [|exact IH].
  constructor; [|exact IH]. eapply strptime_hour; exact P.
Qed.

(** * Sums over [range] *)

Lemma total_map_add (A : Type) (f g : A -> nat) (l : list A) :
  total (map (fun x => f x + g x) l) = total (map f l) + total (map g l).
Proof.
  unfold total; induction l as [|x l IH]; simpl; lia.
Qed.

Lemma total_indicator (x : Z) (a n : nat) :
  total (map (fun h => if Z.eqb h x then 1 else 0)
           (map Z.of_nat (seq a n)))
  = if ((Z.of_nat a <=? x) && (x <? Z.of_nat (a + n)))%Z then 1 else 0.
Proof.
  unfold total; revert a; induction n as [|n IH]; intros a; simpl.
  - destruct (Z.leb_spec (Z.of_nat a) x), (Z.ltb_spec x (Z.of_nat (a + 0)));
      simpl; try reflexivity; lia.
  - rewrite IH.
    destruct (Z.eqb_spec (Z.of_nat a) x),
      (Z.leb_spec (Z.of_nat (S a)) x), (Z.leb_spec (Z.of_nat a) x),
      (Z.ltb_spec x (Z.of_nat (S a + n))), (Z.ltb_spec x (Z.of_nat (a + S n)));
      simpl; try reflexivity; lia.
Qed.

(** Counting a list of keys that all lie in [range(n)], key by key. *)
Lemma total_occurrences (n : nat) (l : list Z) :
  Forall (fun x => (0 <= x < Z.of_nat n)%Z) l ->
  total (map (fun h => occurrences Z.eqb h l) (range n)) = length l.
Proof.
  unfold occurrences, range. induction 1 as [|x l Hx Hl IH]; simpl.
  - unfold total; induction (seq 0 n); simpl; auto.
  - rewrite <- IH.
    rewrite (map_ext
               (fun h => length (filter (Z.eqb h) (x :: l)))
               (fun h => (if Z.eqb h x then 1 else 0)
                         + length (filter (Z.eqb h) l))).
    + rewrite total_map_add, total_indicator; simpl.
      destruct (Z.leb_spec 0 x), (Z.ltb_spec x (Z.of_nat n)); simpl; lia.
    + intros h; simpl. destruct (Z.eqb h x); reflexivity.
Qed.

(** * [min] and [max] of strings *)

Lemma min_str_spec (l : list str) (x : str) :
  In (min_str x l) (x :: l)
  /\ forall y, In y (x :: l) -> str_leb (min_str x l) y = true.
Proof.
  unfold min_str; revert x; induction l as [|z l IH]; intros x; simpl.
  - split; [auto|]. intros y [<-|[]]; apply str_leb_refl.
  - destruct (str_ltb z x) eqn:E.
    + destruct (IH z) as [H1 H2]. split.
      * simpl in H1; tauto.
      * intros y [<-|Hy]; [|apply H2; exact Hy].
        eapply str_leb_trans; [apply H2; left; reflexivity|].
        unfold str_leb; rewrite (str_ltb_asym _ _ E); reflexivity.
    + destruct (IH x) as [H1 H2]. split.
      * simpl in H1; simpl; tauto.
      * intros y [<-|[<-|Hy]].
        -- apply H2; left; reflexivity.
        -- eapply str_leb_trans; [apply H2; left; reflexivity|].
           unfold str_leb; rewrite E; reflexivity.
        -- apply H2; right; exact Hy.
Qed.

Lemma max_str_spec (l : list str) (x : str) :
  In (max_str x l) (x :: l)
  /\ forall y, In y (x :: l) -> str_leb y (max_str x l) = true.
Proof.
  unfold max_str; revert x; induction l as [|z l IH]; intros x; simpl.
  - split; [auto|]. intros y [<-|[]]; apply str_leb_refl.
  - destruct (str_ltb x z) eqn:E.
    + destruct (IH z) as [H1 H2]. split.
      * simpl in H1; tauto.
      * intros y [<-|Hy]; [|apply H2; exact Hy].
        eapply str_leb_trans; [|apply H2; left; reflexivity].
        unfold str_leb; rewrite (str_ltb_asym _ _ E); reflexivity.
    + destruct (IH x) as [H1 H2]. split.
      * simpl in H1; simpl; tauto.
      * intros y [<-|[<-|Hy]].
        -- apply H2; left; reflexivity.
        -- eapply str_leb_trans; [|apply H2; left; reflexivity].
           unfold str_leb; rewrite E; reflexivity.
        -- apply H2; right; exact Hy.
Qed.

(** * The time buckets, the totals and the day-level entries *)

Lemma filter_split_length (A : Type) (f : A -> bool) (l : list A) :
  length l
  = length (filter f l) + length (filter (fun x => negb (f x)) l).
Proof.
  induction l as [|x l IH]; simpl; [reflexivity|].
  destruct (f x); simpl; lia.
Qed.

Lemma occurrences_In (l : list str) (k : str) :
  In k l -> 0 < occurrences str_eqb k l.
Proof.
  unfold occurrences; induction l as [|x l IH]; simpl; [tauto|].
  intros [->|H].
  - rewrite str_eqb_refl; simpl; lia.
  - destruct (str_eqb k x); simpl; [lia|auto].
Qed.

Lemma day_counts_tally (ms : list message) :
  day_counts_of ms = tally str_eqb (date_prefixes ms) [].
Proof.
  unfold day_counts_of, date_prefixes, tally.
  generalize (@nil (str * nat)).
  induction (timestamps_of ms) as [|t ts IH]; intros c; simpl; auto.
Qed.

Lemma timestamps_of_In (ms : list message) (m : message) :
  In m ms -> truthy (timestamp_of m) = true ->
  In (timestamp_of m) (timestamps_of ms).
Proof.
  intros H T. unfold timestamps_of. apply filter_In; split; [|exact T].
  apply in_map; exact H.
Qed.

Lemma hourly_total (ms : list message) :
  total (map snd (hourly_of ms)) = length (filter parses ms).
Proof.
  unfold hourly_of, bucket_loop. rewrite map_map, bucket_fold.
  rewrite (map_ext _ (fun h => occurrences Z.eqb h (map hour (parsed_times ms)))).
  - rewrite (total_occurrences 24), length_map; [apply parsed_times_length|].
    apply Forall_map. eapply Forall_impl; [|apply parsed_times_hour].
    simpl; intros; lia.
  - intros h; cbn [snd b_hourly].
    rewrite (counter_get_tally Z Z.eqb Z.eqb_eq); reflexivity.
Qed.

Lemma daily_dow_total (ms : list message) :
  total (map snd (daily_dow_of ms)) = length (filter parses ms).
Proof.
  unfold daily_dow_of, bucket_loop. rewrite map_map, bucket_fold.
  rewrite (map_ext _
             (fun h => occurrences Z.eqb h (map weekday (parsed_times ms)))).
  - rewrite (total_occurrences 7), length_map; [apply parsed_times_length|].
    apply Forall_map, Forall_forall. intros dt _.
    pose proof (weekday_range dt); simpl; lia.
  - intros h; cbn [snd b_daily_dow].
    rewrite (counter_get_tally Z Z.eqb Z.eqb_eq); reflexivity.
Qed.

(** C9: the hourly list has the 24 hours 0..23 in order and the weekday list
    the 7 names Mon..Sun in order, whatever the stream; the counts of each
    list add up to the number of messages whose timestamp parsed; and these
    lists are the [hourly] and [daily_dow] entries [compute_stats] returns. *)
Theorem C9_hour_and_weekday_buckets (d : package) :
  map fst (hourly_of (messages d))
  = [0; 1; 2; 3; 4; 5; 6; 7; 8; 9; 10; 11; 12; 13; 14; 15; 16; 17; 18; 19;
     20; 21; 22; 23]%Z
  /\ length (hourly_of (messages d)) = 24
  /\ map fst (daily_dow_of (messages d))
     = [lit "Mon"; lit "Tue"; lit "Wed"; lit "Thu"; lit "Fri"; lit "Sat";
        lit "Sun"]
  /\ length (daily_dow_of (messages d)) = 7
  /\ total (map snd (hourly_of (messages d)))
     = length (filter parses (messages d))
  /\ total (map snd (daily_dow_of (messages d)))
     = length (filter parses (messages d))
  /\ forall st, compute_stats d = Ok st ->
       hourly st = hourly_of (messages d)
       /\ daily_dow st = daily_dow_of (messages d).
Proof.
  repeat split; try reflexivity.
  - apply hourly_total.
  - apply daily_dow_total.
  - apply compute_stats_Ok in H; tauto.
  - apply compute_stats_Ok in H; tauto.
Qed.

Lemma C9_hour_and_weekday_buckets_witness :
  compute_stats (stream [early; late])
  = Ok {| total_messages := 2; total_channels := 0; total_dms := 0;
          total_group_dms := 0; total_servers := 0;
          top_dms := []; top_group_dms := []; top_servers := [];
          top_channels := [];
          monthly := monthly_of [early; late];
          hourly := hourly_of [early; late];
          daily_dow := daily_dow_of [early; late];
          yearly := yearly_of [early; late];
          longest_streak := 2; longest_streak_start := lit "2024-01-01";
          first_message := lit "2024-01-01 10:00:00";
          last_message := lit "2024-01-02 99:00:00";
          active_days := 2;
          busiest_day := lit "2024-01-01"; busiest_day_count := 1 |}
  /\ total (map snd (hourly_of [early; late])) = 1
  /\ length (filter parses [early; late]) = 1.
Proof.
  split; [vm_compute; reflexivity|].
  destruct (C9_hour_and_weekday_buckets (stream [early; late]))
    as (_ & _ & _ & _ & H & _).
  split; [etransitivity; [exact H|]|]; vm_compute; reflexivity.
Defined.

(** C1, as stated, fails: the message [late] has a timestamp that does not
    parse, yet it adds a day to [active_days] and to the streak; and on two
    messages whose timestamps are no dates [compute_stats] raises. *)
Lemma C1_counterexample :
  parses late = false
  /\ (exists st, compute_stats (stream [early; late]) = Ok st
        /\ active_days st = 2 /\ longest_streak st = 2)
  /\ (exists st, compute_stats (stream [early]) = Ok st
        /\ active_days st = 1 /\ longest_streak st = 1)
  /\ compute_stats (stream two_bad_dates) = Raise ValueError.
Proof.
  split; [vm_compute; reflexivity|].
  split; [eexists; split; [vm_compute; reflexivity|split; reflexivity]|].
  split; [eexists; split; [vm_compute; reflexivity|split; reflexivity]|].
  vm_compute; reflexivity.
Qed.

(** C5, as stated, fails: the one timestamp of [one_bad_date] does not
    parse, yet [first_message] is that text and [active_days] is 1. *)
Lemma C5_counterexample :
  filter parses one_bad_date = []
  /\ exists st, compute_stats (stream one_bad_date) = Ok st
       /\ first_message st = lit "garbage"
       /\ last_message st = lit "garbage"
       /\ active_days st = 1.
Proof.
  split; [vm_compute; reflexivity|].
  eexists; split; [vm_compute; reflexivity|].
  repeat split; reflexivity.
Qed.

Lemma first_last_of_spec (ms : list message) :
  first_last_spec ms (first_last_of ms).
Proof.
  unfold first_last_spec, first_last_of.
  pose proof (set_of_length (date_prefixes ms)) as Hd.
  fold (msg_dates_of ms) in Hd.
  destruct (timestamps_of ms) as [|t ts] eqn:E.
  - split; [congruence|auto].
  - split; [intros _|discriminate].
    destruct (min_str_spec ts t) as [M1 M2], (max_str_spec ts t) as [X1 X2].
    repeat split; auto.
Qed.

(** C5, amended: whenever the stream holds a non-empty timestamp,
    [first_message] is the least and [last_message] the greatest of the
    non-empty timestamp strings (so the first is not after the last) and
    [active_days] is the number of distinct date prefixes; when it holds
    none, both are empty and [active_days] is 0.  This holds of what lines
    289-297 compute and of the entries [compute_stats] returns. *)
Theorem C5_first_last_active (d : package) :
  first_last_spec (messages d) (first_last_of (messages d))
  /\ forall st, compute_stats d = Ok st ->
       first_last_spec (messages d)
         (first_message st, last_message st, active_days st).
Proof.
  split; [apply first_last_of_spec|].
  intros st H. apply compute_stats_Ok in H. destruct H as (_ & -> & _).
  apply first_last_of_spec.
Qed.

Lemma C5_first_last_active_witness :
  (exists st, compute_stats (stream [early; late]) = Ok st
      /\ first_message st = lit "2024-01-01 10:00:00"
      /\ last_message st = lit "2024-01-02 99:00:00")
  /\ first_last_spec [early; late]
       (lit "2024-01-01 10:00:00", lit "2024-01-02 99:00:00", 2).
Proof.
  split.
  - eexists; split; [vm_compute; reflexivity|split; reflexivity].
  - apply (proj2 (C5_first_last_active (stream [early; late]))
             {| total_messages := 2; total_channels := 0; total_dms := 0;
                total_group_dms := 0; total_servers := 0;
                top_dms := []; top_group_dms := []; top_servers := [];
                top_channels := [];
                monthly := monthly_of [early; late];
                hourly := hourly_of [early; late];
                daily_dow := daily_dow_of [early; late];
                yearly := yearly_of [early; late];
                longest_streak := 2;
                longest_streak_start := lit "2024-01-01";
                first_message := lit "2024-01-01 10:00:00";
                last_message := lit "2024-01-02 99:00:00";
                active_days := 2;
                busiest_day := lit "2024-01-01"; busiest_day_count := 1 |}).
    vm_compute; reflexivity.
Defined.

(** * Inputs on which the code departs from the claims *)

(** C4 on the code: the four dates of the example give a streak of 3 that
    starts on 2024-01-01; but on two messages whose date prefixes are no
    dates the unguarded [strptime] of the streak scan raises [ValueError]
    (and with it [compute_stats]), and on the empty stream the scan reports
    a streak of 1 although there is no date. *)
Theorem C4_streak_on_inputs :
  streak_of four_days = Ok (3, lit "2024-01-01")
  /\ streak_of two_bad_dates = Raise ValueError
  /\ compute_stats (stream two_bad_dates) = Raise ValueError
  /\ streak_of [] = Ok (1, []).
Proof.
  repeat split; vm_compute; reflexivity.
Qed.

(** C6 on the code: an archive that opens, and whose one channel is in
    order, is not read when its [Messages/index.json] is not JSON: the
    [JSONDecodeError] is not caught there (only [KeyError] is); the same
    holds of [Account/user.json].  Without the index entry the archive is
    read. *)
Theorem C6_undecodable_index_raises :
  parse_package (Some (one_channel (Some Undecodable)))
  = Raise JSONDecodeError
  /\ parse_package (Some broken_user) = Raise JSONDecodeError
  /\ parse_package (Some (one_channel None)) = Ok one_channel_package.
Proof.
  repeat split; vm_compute; reflexivity.
Qed.

(** * [find], [in] and [split] *)

Lemma find_Some (sep s : str) (i : nat) :
  find sep s = Some i ->
  s = firstn i s ++ sep ++ skipn (i + length sep) s
  /\ i + length sep <= length s
  /\ forall l r, s = l ++ sep ++ r -> i <= length l.
Proof.
  revert i; induction s as [|x s IH]; intros i; simpl.
  - destruct (startswith sep []) eqn:E; [|discriminate].
    intros H; inversion H; subst; simpl.
    destruct sep; [|discriminate]. simpl. repeat split; auto. intros; lia.
  - destruct (startswith sep (x :: s)) eqn:E.
    + intros H; inversion H; subst; simpl.
      pose proof (startswith_skipn _ _ E) as Hs.
      split; [exact Hs|]. split; [|intros; lia].
      apply (f_equal (@length N)) in Hs. rewrite length_app in Hs.
      simpl in Hs. lia.
    + destruct (find sep s) as [j|]; simpl; [|discriminate].
      intros H; inversion H; subst; clear H.
      destruct (IH j eq_refl) as (H1 & H2 & H3).
      split; [simpl; f_equal; exact H1|]. split; [simpl; lia|].
      intros [|y l] r Hl; simpl in Hl.
      * rewrite Hl, startswith_app in E; discriminate.
      * inversion Hl as [[Hx Hs]]. simpl. apply le_n_S. eapply H3. exact Hs.
Qed.

Lemma find_None (sep s : str) : find sep s = None -> ~ occurs sep s.
Proof.
  induction s as [|x s IH]; simpl.
  - destruct (startswith sep []) eqn:E; [discriminate|].
    intros _ (l & r & H). destruct l, sep; simpl in *; discriminate.
  - destruct (startswith sep (x :: s)) eqn:E; [discriminate|].
    destruct (find sep s) as [j|]; simpl; [discriminate|].
    intros _ ([|y l] & r & H); simpl in H.
    + rewrite H, startswith_app in E; discriminate.
    + inversion H as [[Hx Hs]]. apply IH; [reflexivity|]. exists l, r.
      exact Hs.
Qed.

Lemma find_occurs (sep s : str) :
  occurs sep s -> exists i, find sep s = Some i.
Proof.
  intros H. destruct (find sep s) as [i|] eqn:E; [eauto|].
  exfalso; exact (find_None _ _ E H).
Qed.

(** [s.split(sep, 1)] cuts at the first occurrence. *)
Lemma split_once_first (sep s left right : str) :
  first_split sep s left right -> split_once sep s = Some (left, right).
Proof.
  intros [Hs Hmin]. unfold split_once.
  destruct (find_occurs sep s) as [i Hi]; [exists left, right; exact Hs|].
  rewrite Hi. destruct (find_Some _ _ _ Hi) as (H1 & H2 & H3).
  assert (Hlen : i = length left).
  { apply Nat.le_antisymm; [eapply H3; exact Hs|].
    pose proof (Hmin _ _ H1) as H. rewrite length_firstn in H. lia. }
  subst i. rewrite Hs at 1 2.
  rewrite firstn_app, firstn_all, Nat.sub_diag; simpl. rewrite app_nil_r.
  rewrite app_assoc, skipn_app, length_app.
  rewrite (skipn_all2 (left ++ sep)) by (rewrite length_app; lia).
  replace (length left + length sep - (length left + length sep)) with 0
    by lia.
  reflexivity.
Qed.

Lemma contains_occurs (sep s : str) : contains sep s = true <-> occurs sep s.
Proof.
  unfold contains. destruct (find sep s) as [i|] eqn:E.
  - split; [intros _|reflexivity].
    destruct (find_Some _ _ _ E) as (H & _); eexists; eexists; exact H.
  - split; [discriminate|]. intros H; destruct (find_None _ _ E H).
Qed.

(** * The resolver on server channels *)

Lemma resolve_server (ch_type ch_name guild_name channel_id hint : str) :
  ch_type <> DM -> ch_type <> GROUP_DM ->
  resolve ch_type ch_name guild_name channel_id hint
  = if contains sep_in hint
    then (lit "#" ++ nth 0 (split1 sep_in hint) [],
          nth 1 (split1 sep_in hint) [])
    else (if truthy ch_name then lit "#" ++ ch_name
          else lit "#" ++ channel_id,
          str_or guild_name (lit "Unknown Server")).
Proof.
  intros H1 H2. unfold resolve.
  apply str_eqb_neq in H1, H2. rewrite H1, H2. reflexivity.
Qed.

(** C8: for a channel whose type is neither [DM] nor [GROUP_DM]: when the
    hint holds [" in "], display is ["#"] and the text before its first
    occurrence and the group is the text after it; when it does not, display
    is ["#"] and the raw name (the channel id when that is empty) and the
    group is the guild's name when there is one, else ["Unknown Server"];
    the hint ["general in My Server"] gives ["#general"] and
    ["My Server"]. *)
Theorem C8_server_channel (meta : channel_meta) (channel_id hint : str) :
  ch_type_of meta <> DM -> ch_type_of meta <> GROUP_DM ->
  (forall left right, first_split sep_in hint left right ->
     resolve_channel meta channel_id hint = (lit "#" ++ left, right))
  /\ (~ occurs sep_in hint ->
      resolve_channel meta channel_id hint
      = (lit "#" ++ (if truthy (or_empty (meta_name meta))
                     then or_empty (meta_name meta) else channel_id),
         if truthy (guild_name_of meta) then guild_name_of meta
         else lit "Unknown Server"))
  /\ (~ occurs sep_in hint -> forall g n,
        meta_guild meta = Some g -> guild_name_field g = Some n -> n <> [] ->
        snd (resolve_channel meta channel_id hint) = n)
  /\ (~ occurs sep_in hint -> meta_guild meta = None ->
        snd (resolve_channel meta channel_id hint) = lit "Unknown Server")
  /\ resolve_channel meta channel_id (lit "general in My Server")
     = (lit "#general", lit "My Server").
Proof.
  intros H1 H2. unfold resolve_channel.
  assert (Hfirst : forall h left right, first_split sep_in h left right ->
            resolve (ch_type_of meta) (or_empty (meta_name meta))
              (guild_name_of meta) channel_id h = (lit "#" ++ left, right)).
  { intros h left right Hf. rewrite resolve_server by assumption.
    assert (Hc : contains sep_in h = true)
      by (apply contains_occurs; exists left, right; apply Hf).
    rewrite Hc. unfold split1. rewrite (split_once_first _ _ _ _ Hf).
    reflexivity. }
  assert (Hnone : ~ occurs sep_in hint ->
            resolve (ch_type_of meta) (or_empty (meta_name meta))
              (guild_name_of meta) channel_id hint
            = (lit "#" ++ (if truthy (or_empty (meta_name meta))
                           then or_empty (meta_name meta) else channel_id),
               if truthy (guild_name_of meta) then guild_name_of meta
               else lit "Unknown Server")).
  { intros Hn. rewrite resolve_server by assumption.
    destruct (contains sep_in hint) eqn:Hc.
    - apply contains_occurs in Hc; contradiction.
    - unfold str_or. destruct (truthy (or_empty (meta_name meta)));
        reflexivity. }
  split; [apply Hfirst|]. split; [exact Hnone|].
  split; [|split].
  - intros Hn g n Hg Hname Hne. rewrite (Hnone Hn); simpl.
    unfold guild_name_of. rewrite Hg, Hname; simpl.
    destruct n; [congruence|reflexivity].
  - intros Hn Hg. rewrite (Hnone Hn); simpl.
    unfold guild_name_of. rewrite Hg; reflexivity.
  - apply (Hfirst _ (lit "general") (lit "My Server")).
    split; [reflexivity|].
    intros l r Hl.
    assert (Hf : find sep_in (lit "general in My Server") = Some 7)
      by (vm_compute; reflexivity).
    destruct (find_Some _ _ _ Hf) as (_ & _ & Hmin).
    exact (Hmin _ _ Hl).
Qed.

Lemma C8_server_channel_witness :
  ch_type_of server_meta <> DM /\ ch_type_of server_meta <> GROUP_DM
  /\ resolve_channel server_meta (lit "42") (lit "general in My Server")
     = (lit "#general", lit "My Server").
Proof.
  assert (H1 : ch_type_of server_meta <> DM) by (vm_compute; discriminate).
  assert (H2 : ch_type_of server_meta <> GROUP_DM)
    by (vm_compute; discriminate).
  split; [exact H1|]. split; [exact H2|].
  destruct (C8_server_channel server_meta (lit "42")
              (lit "general in My Server") H1 H2) as (_ & _ & _ & _ & H).
  exact H.
Defined.

(** * The matcher on the pieces of [dm_pattern] *)

Lemma run_Lit (A : Type) (p s : str) (c : caps)
  (k : str -> caps -> option A) :
  run (Lit p) s c k
  = if startswith p s then k (skipn (length p) s) c else None.
Proof.
  revert s; induction p as [|x p IH]; intros s; simpl; [reflexivity|].
  destruct s as [|y s]; [reflexivity|].
  destruct (N.eqb x y); simpl; [apply IH|reflexivity].
Qed.

Lemma run_Cat_Lit (A : Type) (p : str) (r : re) (s : str) (c : caps)
  (k : str -> caps -> option A) :
  run (Cat (Lit p) r) s c k
  = if startswith p s then run r (skipn (length p) s) c k else None.
Proof.
  change (run (Cat (Lit p) r) s c k)
    with (run (Lit p) s c (fun s' c' => run r s' c' k)).
  apply run_Lit.
Qed.

(** The lazy repetition stops at the first length its continuation
    accepts. *)
Lemma plus_lazy_Some (A : Type) (p : N -> bool) (s : str)
  (k : str -> option A) (a : A) :
  plus_lazy p s k = Some a ->
  exists n, 1 <= n <= length s
    /\ Forall (fun c => p c = true) (firstn n s)
    /\ k (skipn n s) = Some a
    /\ forall j, 1 <= j < n -> k (skipn j s) = None.
Proof.
  induction s as [|x s IH]; simpl; [discriminate|].
  destruct (p x) eqn:Px; [|discriminate].
  destruct (k s) as [a'|] eqn:Ks.
  - intros H; inversion H; subst. exists 1; simpl.
    split; [lia|]. split; [constructor; auto|].
    split; [exact Ks|]. intros; lia.
  - intros H. destruct (IH H) as (n & Hn & Hf & Hk & Hj).
    exists (S n); simpl.
    split; [lia|]. split; [constructor; auto|].
    split; [exact Hk|].
    intros [|[|j]] Hj'; try lia; [exact Ks|].
    apply (Hj (S j)); lia.
Qed.

Lemma plus_lazy_None (A : Type) (p : N -> bool) (s : str)
  (k : str -> option A) :
  plus_lazy p s k = None ->
  forall n, 1 <= n <= length s ->
    Forall (fun c => p c = true) (firstn n s) -> k (skipn n s) = None.
Proof.
  induction s as [|x s IH]; simpl; intros H n Hn Hf; [lia|].
  destruct n as [|n]; [lia|]. simpl in Hf. inversion Hf as [|? ? Px Hf']; subst.
  rewrite Px in H. destruct (k s) eqn:Ks; [discriminate|].
  destruct n as [|n]; [exact Ks|].
  apply (IH H (S n)); [lia|exact Hf'].
Qed.

Lemma plus_greedy_Some (A : Type) (p : N -> bool) (s : str)
  (k : str -> option A) (a : A) :
  plus_greedy p s k = Some a ->
  exists n, 1 <= n <= length s
    /\ Forall (fun c => p c = true) (firstn n s)
    /\ k (skipn n s) = Some a.
Proof.
  induction s as [|x s IH]; simpl; [discriminate|].
  destruct (p x) eqn:Px; [|discriminate].
  destruct (plus_greedy p s k) as [a'|] eqn:G.
  - intros H; inversion H; subst.
    destruct (IH eq_refl) as (n & Hn & Hf & Hk).
    exists (S n); simpl.
    split; [lia|]. split; [constructor; auto|exact Hk].
  - intros H. exists 1; simpl.
    split; [lia|]. split; [constructor; auto|exact H].
Qed.

Lemma plus_greedy_accepts (A : Type) (p : N -> bool) (s : str)
  (k : str -> option A) (n : nat) :
  1 <= n <= length s ->
  Forall (fun c => p c = true) (firstn n s) ->
  k (skipn n s) <> None ->
  plus_greedy p s k <> None.
Proof.
  revert n; induction s as [|x s IH]; simpl; intros n Hn Hf Hk; [lia|].
  destruct n as [|n]; [lia|]. simpl in Hf, Hk.
  inversion Hf as [|? ? Px Hf']; subst. rewrite Px.
  destruct (plus_greedy p s k) eqn:G; [discriminate|].
  destruct n as [|n]; [exact Hk|].
  exfalso. apply (IH (S n)); auto. lia.
Qed.

Lemma run_Eos (t : str) (c : caps) (a : str * caps) :
  run Eos t c done = Some a <-> (t = [] \/ t = [newline]) /\ a = (t, c).
Proof.
  simpl. destruct t as [|x [|y t]]; unfold done.
  - split; [intros H; inversion H; auto|intros [_ ->]; reflexivity].
  - destruct (N.eqb_spec x newline).
    + subst. split; [intros H; inversion H; auto|intros [_ ->]; reflexivity].
    + split; [discriminate|]. intros [[H|H] _]; inversion H; congruence.
  - split; [discriminate|]. intros [[H|H] _]; discriminate.
Qed.

(** The tail of the pattern keeps the groups and accepts exactly
    [dm_tail]. *)
Lemma run_dm_tail_caps (s : str) (c : caps) (a : str * caps) :
  run dm_tail_re s c done = Some a -> snd a = c.
Proof.
  unfold dm_tail_re.
  change (run (Cat (Opt (Cat (Cls (one "#")) (Plus is_digit))) Eos) s c done)
    with (match
            match s with
            | x :: s' =>
                if one "#" x
                then plus_greedy is_digit s' (fun t => run Eos t c done)
                else None
            | [] => None
            end
          with
          | Some a => Some a
          | None => run Eos s c done
          end).
  destruct s as [|x s'].
  - intros H; apply run_Eos in H; destruct H as [_ ->]; reflexivity.
  - destruct (one "#" x).
    + destruct (plus_greedy is_digit s' _) as [a'|] eqn:G.
      * intros H; inversion H; subst.
        apply plus_greedy_Some in G. destruct G as (n & _ & _ & Hk).
        apply run_Eos in Hk; destruct Hk as [_ ->]; reflexivity.
      * intros H; apply run_Eos in H; destruct H as [_ ->]; reflexivity.
    + intros H; apply run_Eos in H; destruct H as [_ ->]; reflexivity.
Qed.

Lemma run_dm_tail_accepts (s : str) (c : caps) :
  run dm_tail_re s c done <> None <-> dm_tail s.
Proof.
  unfold dm_tail_re.
  change (run (Cat (Opt (Cat (Cls (one "#")) (Plus is_digit))) Eos) s c done)
    with (match
            match s with
            | x :: s' =>
                if one "#" x
                then plus_greedy is_digit s' (fun t => run Eos t c done)
                else None
            | [] => None
            end
          with
          | Some a => Some a
          | None => run Eos s c done
          end).
  assert (Heos : forall t, run Eos t c done <> None
                           <-> t = [] \/ t = [newline]).
  { intros t. destruct (run Eos t c done) as [a|] eqn:E.
    - apply run_Eos in E. split; [tauto|discriminate].
    - split; [congruence|]. intros H. exfalso.
      assert (F : run Eos t c done = Some (t, c)) by (apply run_Eos; auto).
      congruence. }
  split.
  - intros H. destruct s as [|x s'].
    + exists [], []. simpl. auto.
    + destruct (one "#" x) eqn:Hx.
      * destruct (plus_greedy is_digit s' _) as [a'|] eqn:G.
        -- apply plus_greedy_Some in G. destruct G as (n & Hn & Hf & Hk).
           apply N.eqb_eq in Hx. subst x.
           exists (N_of_ascii "#" :: firstn n s'), (skipn n s').
           split; [simpl; rewrite firstn_skipn; reflexivity|].
           split; [apply Heos; congruence|].
           right. exists (firstn n s'). split; [reflexivity|].
           split; [|exact Hf].
           intros F. apply (f_equal (@length N)) in F.
           rewrite length_firstn in F. simpl in F. lia.
        -- apply Heos in H. exists [], (x :: s'). simpl; auto.
      * apply Heos in H. exists [], (x :: s'). simpl; auto.
  - intros (ds & e & -> & He & [->|(ds' & -> & Hne & Hd)]).
    + simpl app. destruct e as [|x e'].
      * apply Heos; auto.
      * destruct He as [He|He]; inversion He; subst.
        change (one "#" newline) with false. apply Heos; auto.
    + simpl app. change (one "#" (N_of_ascii "#")) with true. cbv iota.
      assert (G : plus_greedy is_digit (ds' ++ e)
                    (fun t => run Eos t c done) <> None).
      { apply (plus_greedy_accepts _ _ _ _ (length ds')).
        - rewrite length_app. destruct ds'; [congruence|simpl; lia].
        - rewrite firstn_app, firstn_all, Nat.sub_diag; simpl.
          rewrite app_nil_r; exact Hd.
        - rewrite skipn_app, skipn_all, Nat.sub_diag; simpl.
          apply Heos; exact He. }
      destruct (plus_greedy is_digit (ds' ++ e) (fun t => run Eos t c done));
        [discriminate|congruence].
Qed.

(** [re.match(dm_pattern, hint)], one step at a time. *)
Lemma re_match_dm (hint : str) :
  re_match dm_pattern hint
  = if startswith dm_prefix hint
    then plus_lazy dot (skipn (length dm_prefix) hint)
           (fun s' =>
              run dm_tail_re s'
                [(1, firstn (length (skipn (length dm_prefix) hint)
                             - length s')
                       (skipn (length dm_prefix) hint))]
                done)
    else None.
Proof.
  unfold re_match, dm_pattern. cbn [Seq].
  change (fun (s' : str) (c : caps) => Some (s', c)) with done.
  rewrite run_Cat_Lit. destruct (startswith dm_prefix hint); reflexivity.
Qed.

Lemma dot_Forall (name : str) :
  Forall (fun c => dot c = true) name <-> Forall (fun c => c <> newline) name.
Proof.
  split; apply Forall_impl; intros c; unfold dot;
    destruct (N.eqb_spec c newline); simpl; congruence.
Qed.

(** The group of a successful match is the name [dm_name] describes. *)
Lemma re_match_dm_name (hint name : str) :
  dm_name hint name ->
  exists r c, re_match dm_pattern hint = Some (r, c) /\ group 1 c = Some name.
Proof.
  intros (tail & Hh & Hne & Hnl & Ht & Hmin).
  rewrite re_match_dm.
  assert (Hs : startswith dm_prefix hint = true)
    by (rewrite Hh; apply startswith_app).
  rewrite Hs.
  assert (Hr : skipn (length dm_prefix) hint = name ++ tail).
  { rewrite Hh, skipn_app, skipn_all, Nat.sub_diag; reflexivity. }
  rewrite Hr.
  assert (Hn1 : 1 <= length name) by (destruct name; [congruence|simpl; lia]).
  set (k := fun s' : str =>
              run dm_tail_re s'
                [(1, firstn (length (name ++ tail) - length s')
                       (name ++ tail))] done).
  assert (Hk : k (skipn (length name) (name ++ tail)) <> None).
  { unfold k. rewrite skipn_app, skipn_all, Nat.sub_diag; simpl.
    apply run_dm_tail_accepts; exact Ht. }
  destruct (plus_lazy dot (name ++ tail) k) as [[r c]|] eqn:E.
  - exists r, c. split; [reflexivity|].
    apply plus_lazy_Some in E. destruct E as (n & Hn & Hf & Hkn & Hj).
    pose proof (run_dm_tail_caps _ _ _ Hkn) as Hc. simpl in Hc. subst c.
    simpl. f_equal.
    rewrite length_skipn.
    replace (length (name ++ tail) - (length (name ++ tail) - n)) with n
      by lia.
    assert (Hle : n <= length name).
    { destruct (Nat.le_gt_cases n (length name)) as [?|Hgt]; [assumption|].
      exfalso. apply Hk. apply Hj. lia. }
    assert (Hge : length name <= n).
    { pose proof (Hmin (firstn n (name ++ tail)) (skipn n (name ++ tail)))
        as H.
      rewrite length_firstn in H.
      assert (length name <= Nat.min n (length (name ++ tail))); [|lia].
      apply H.
      - rewrite firstn_skipn; exact Hh.
      - intros F. apply (f_equal (@length N)) in F.
        rewrite length_firstn in F. simpl in F. lia.
      - apply (run_dm_tail_accepts _
                 [(1, firstn (length (name ++ tail)
                              - length (skipn n (name ++ tail)))
                        (name ++ tail))]).
        fold (k (skipn n (name ++ tail))). congruence. }
    assert (n = length name) by lia. subst n.
    rewrite firstn_app, firstn_all, Nat.sub_diag; simpl. apply app_nil_r.
  - exfalso. apply Hk.
    apply (plus_lazy_None _ _ _ _ E); [rewrite length_app; lia|].
    rewrite firstn_app, firstn_all, Nat.sub_diag; simpl. rewrite app_nil_r.
    apply dot_Forall; exact Hnl.
Qed.

(** A match means the hint has a name. *)
Lemma re_match_dm_Some (hint : str) (r : str) (c : caps) :
  re_match dm_pattern hint = Some (r, c) ->
  exists name, dm_name hint name.
Proof.
  rewrite re_match_dm.
  destruct (startswith dm_prefix hint) eqn:Hs; [|discriminate].
  pose proof (startswith_skipn _ _ Hs) as Hh.
  set (rest := skipn (length dm_prefix) hint) in *.
  intros E. apply plus_lazy_Some in E.
  destruct E as (n & Hn & Hf & Hkn & Hj).
  exists (firstn n rest), (skipn n rest).
  split; [rewrite firstn_skipn; exact Hh|].
  split.
  { intros F. apply (f_equal (@length N)) in F.
    rewrite length_firstn in F. simpl in F. lia. }
  split; [apply dot_Forall; exact Hf|].
  split.
  { eapply run_dm_tail_accepts. rewrite Hkn. discriminate. }
  intros name' tail' Hh' Hne' Ht'.
  rewrite length_firstn.
  destruct (Nat.le_gt_cases n (length name')) as [?|Hgt]; [lia|].
  exfalso.
  assert (Hr : rest = name' ++ tail').
  { rewrite Hh in Hh'. apply app_inv_head in Hh'. exact Hh'. }
  assert (H1 : 1 <= length name')
    by (destruct name'; [congruence|simpl; lia]).
  pose proof (Hj (length name') (conj H1 Hgt)) as F.
  assert (Hd : dm_tail (skipn (length name') rest)).
  { rewrite Hr, skipn_app, skipn_all, Nat.sub_diag. exact Ht'. }
  revert F. apply run_dm_tail_accepts; exact Hd.
Qed.

(** * [replace] *)

Lemma replace_from_skip (old new p r : str) :
  replace_from old new (p ++ r) (length p) = replace_from old new r 0.
Proof. induction p as [|x p IH]; simpl; auto. Qed.

Lemma replace_absent (old new s : str) :
  ~ occurs old s -> replace old new s = s.
Proof.
  unfold replace. induction s as [|x s IH]; intros H; [reflexivity|].
  cbn [replace_from].
  destruct (startswith old (x :: s)) eqn:E.
  - exfalso. apply H. apply startswith_iff in E. destruct E as [t E].
    exists [], t. exact E.
  - f_equal. apply IH. intros (l & r & Hs). apply H.
    exists (x :: l), r. rewrite Hs; reflexivity.
Qed.

Lemma replace_prefix (old r : str) :
  old <> [] -> ~ occurs old r -> replace old [] (old ++ r) = r.
Proof.
  intros Ho Hr. destruct old as [|x old]; [congruence|].
  unfold replace.
  change (replace_from (x :: old) [] ((x :: old) ++ r) 0)
    with (if startswith (x :: old) ((x :: old) ++ r)
          then [] ++ replace_from (x :: old) [] (old ++ r)
                       (length (x :: old) - 1)
          else x :: replace_from (x :: old) [] (old ++ r) 0).
  rewrite startswith_app.
  replace (length (x :: old) - 1) with (length old) by (simpl; lia).
  rewrite replace_from_skip. apply (replace_absent _ _ _ Hr).
Qed.

(** * The resolver on direct messages *)

(** C7, as stated, fails: these two hints do not match the pattern, and the
    display name is not the hint with the literal prefix stripped; the code
    removes the literal wherever it occurs. *)
Lemma C7_counterexample :
  re_match dm_pattern hint_reply = None
  /\ fst (resolve_channel dm_meta (lit "1") hint_reply) = lit "Re: Bob"
  /\ removeprefix dm_prefix hint_reply = hint_reply
  /\ re_match dm_pattern hint_two_lines = None
  /\ fst (resolve_channel dm_meta (lit "1") hint_two_lines)
     = lit "a" ++ [newline] ++ lit "b"
  /\ removeprefix dm_prefix hint_two_lines
     = lit "a" ++ [newline] ++ lit "Direct Message with b".
Proof.
  repeat split; vm_compute; reflexivity.
Qed.

(** C7, amended: for a channel of type [DM] the group is
    ["Direct Messages"]; when the hint is the literal, a name and an optional
    [#digits], the display name is that name, taken as short as can be; when
    the hint has no such form, the display name is the hint with every
    occurrence of the literal removed, which is the hint without its prefix
    when the literal occurs only there, and the hint itself when it occurs
    nowhere; the hint ["Direct Message with Alex#0001"] gives ["Alex"]. *)
Theorem C7_dm_channel (meta : channel_meta) (channel_id hint : str) :
  ch_type_of meta = DM ->
  snd (resolve_channel meta channel_id hint) = lit "Direct Messages"
  /\ (forall name, dm_name hint name ->
        fst (resolve_channel meta channel_id hint) = name)
  /\ ((forall name, ~ dm_name hint name) ->
        fst (resolve_channel meta channel_id hint)
        = replace dm_prefix [] hint
        /\ (forall rest, hint = dm_prefix ++ rest -> ~ occurs dm_prefix rest ->
              fst (resolve_channel meta channel_id hint) = rest)
        /\ (~ occurs dm_prefix hint ->
              fst (resolve_channel meta channel_id hint) = hint))
  /\ resolve_channel meta channel_id (lit "Direct Message with Alex#0001")
     = (lit "Alex", lit "Direct Messages").
Proof.
  intros Ht. unfold resolve_channel, resolve. rewrite Ht.
  change (str_eqb DM DM) with true. cbv iota.
  split; [reflexivity|]. split; [|split].
  - intros name Hn. destruct (re_match_dm_name _ _ Hn) as (r & c & -> & Hg).
    cbn [fst]. rewrite Hg. reflexivity.
  - intros Hno.
    destruct (re_match dm_pattern hint) as [[r c]|] eqn:E.
    + destruct (re_match_dm_Some _ _ _ E) as [name Hn].
      destruct (Hno _ Hn).
    + cbn [fst]. split; [reflexivity|]. split.
      * intros rest -> Hr. apply replace_prefix; [discriminate|exact Hr].
      * apply replace_absent.
  - vm_compute. reflexivity.
Qed.

Lemma C7_dm_channel_witness :
  ch_type_of dm_meta = DM
  /\ resolve_channel dm_meta (lit "1") (lit "Direct Message with Alex#0001")
     = (lit "Alex", lit "Direct Messages").
Proof.
  assert (H : ch_type_of dm_meta = DM) by reflexivity.
  split; [exact H|].
  destruct (C7_dm_channel dm_meta (lit "1")
              (lit "Direct Message with Alex#0001") H) as (_ & _ & _ & R).
  exact R.
Defined.

(** * Rankings *)

Lemma StronglySorted_weaken (A : Type) (R S : A -> A -> Prop) (l : list A) :
  (forall x y, R x y -> S x y) -> StronglySorted R l -> StronglySorted S l.
Proof.
  intros H; induction 1 as [|x l Hs IH Hx]; constructor; [exact IH|].
  eapply Forall_impl; [|exact Hx]. intros y; apply H.
Qed.

Lemma In_firstn_full (A : Type) (n : nat) (l : list A) (x : A) :
  In x (firstn n l) -> In x l.
Proof.
  intros H. rewrite <- (firstn_skipn n l). apply in_or_app; left; exact H.
Qed.

Lemma StronglySorted_firstn (A : Type) (R : A -> A -> Prop) (n : nat)
  (l : list A) :
  StronglySorted R l -> StronglySorted R (firstn n l).
Proof.
  intros H; revert n; induction H as [|x l Hs IH Hx]; intros [|n]; simpl;
    try constructor; [apply IH|].
  apply Forall_forall. intros y Hy. rewrite Forall_forall in Hx.
  apply Hx. eapply In_firstn_full; exact Hy.
Qed.

(** The stable sort by descending count, cut at [cap], is a ranking. *)
Lemma sorted_ranking (A : Type) (count : A -> nat) (cap : nat)
  (l : list A) :
  ranking count cap l
    (firstn cap (sorted (fun x y => count y <=? count x) l)).
Proof.
  exists (sorted (fun x y => count y <=? count x) l).
  split; [reflexivity|]. split; [apply sorted_perm|]. split.
  - eapply StronglySorted_weaken;
      [|apply (sorted_sorted A (fun x y => count y <=? count x))].
    + intros x y H; apply Nat.leb_le; exact H.
    + intros x y. destruct (Nat.le_ge_cases (count y) (count x)).
      * left; apply Nat.leb_le; assumption.
      * right; apply Nat.leb_le; assumption.
    + intros x y z H1 H2. apply Nat.leb_le in H1, H2. apply Nat.leb_le. lia.
  - intros n. apply sorted_filter.
    intros x y Hx Hy. apply Nat.eqb_eq in Hx, Hy. apply Nat.leb_le. lia.
Qed.

(** What a ranking of candidates of positive count is like. *)
Lemma ranking_facts (A : Type) (count : A -> nat) (cap : nat)
  (candidates top : list A) :
  ranking count cap candidates top ->
  Forall (fun x => 0 < count x) candidates ->
  Forall (fun x => 0 < count x) top
  /\ length top <= cap
  /\ StronglySorted (fun x y => count y <= count x) top
  /\ forall x, In x top -> In x candidates.
Proof.
  intros (full & -> & Hp & Hs & _) Hpos.
  assert (Hin : forall x, In x (firstn cap full) -> In x candidates).
  { intros x Hx. eapply Permutation_in; [exact Hp|].
    eapply In_firstn_full; exact Hx. }
  split; [|split; [|split]].
  - apply Forall_forall. intros x Hx. rewrite Forall_forall in Hpos.
    apply Hpos, Hin, Hx.
  - apply firstn_le_length.
  - apply StronglySorted_firstn; exact Hs.
  - exact Hin.
Qed.

(** * The server dictionary *)

Lemma filter_filter_neq_comm (x y : str) (l : list str) :
  filter (fun z => negb (str_eqb z x)) (filter (fun z => negb (str_eqb z y)) l)
  = filter (fun z => negb (str_eqb z y))
      (filter (fun z => negb (str_eqb z x)) l).
Proof.
  induction l as [|z l IH]; simpl; [reflexivity|].
  destruct (str_eqb z y) eqn:Ey, (str_eqb z x) eqn:Ex; simpl;
    rewrite ?Ey, ?Ex; simpl; rewrite ?IH; reflexivity.
Qed.

Lemma filter_both (A : Type) (f g : A -> bool) (l : list A) :
  filter f (filter g l) = filter (fun x => g x && f x) l.
Proof.
  induction l as [|z l IH]; simpl; [reflexivity|].
  destruct (g z); simpl; [destruct (f z)|]; rewrite IH; reflexivity.
Qed.

Lemma filter_idem (f : str -> bool) (l : list str) :
  filter f (filter f l) = filter f l.
Proof.
  induction l as [|z l IH]; simpl; [reflexivity|].
  destruct (f z) eqn:E; simpl; rewrite ?E, IH; reflexivity.
Qed.

Lemma first_occurrences_filter (x : str) (l : list str) :
  filter (fun z => negb (str_eqb z x)) (first_occurrences l)
  = first_occurrences (filter (fun z => negb (str_eqb z x)) l).
Proof.
  induction l as [|y l IH]; simpl; [reflexivity|].
  destruct (str_eqb y x) eqn:E; simpl.
  - apply str_eqb_eq in E; subst y. rewrite filter_idem. exact IH.
  - rewrite filter_filter_neq_comm, IH. reflexivity.
Qed.

(** A [set] filled from left to right lists its elements in the order in
    which they first occur. *)
Lemma set_fold_first_occurrences (l acc : list str) :
  fold_left (fun acc x => set_add x acc) l acc
  = acc ++ first_occurrences (filter (fun y => negb (mem y acc)) l).
Proof.
  revert acc; induction l as [|x l IH]; intros acc; simpl.
  - rewrite app_nil_r; reflexivity.
  - rewrite IH. unfold set_add. destruct (mem x acc) eqn:E; simpl.
    + reflexivity.
    + rewrite <- app_assoc; simpl. f_equal. f_equal.
      rewrite first_occurrences_filter, filter_both.
      f_equal. apply filter_ext. intros y.
      assert (Hm : mem y (acc ++ [x]) = mem y acc || str_eqb y x).
      { clear. induction acc as [|z acc IH]; simpl.
        - rewrite orb_false_r; reflexivity.
        - rewrite IH, orb_assoc; reflexivity. }
      rewrite Hm, negb_orb. reflexivity.
Qed.

Lemma set_of_first_occurrences (l : list str) :
  set_of l = first_occurrences l.
Proof.
  unfold set_of. rewrite set_fold_first_occurrences; simpl.
  f_equal. induction l as [|x l IH]; simpl; [reflexivity|].
  f_equal; exact IH.
Qed.

Lemma set_of_snoc (l : list str) (x : str) :
  set_of (l ++ [x]) = set_add x (set_of l).
Proof. unfold set_of. rewrite fold_left_app. reflexivity. Qed.

(** Adding [n] for key [g] to a dictionary that holds [f] on the keys [S]. *)
Lemma counter_add_map (f : str -> nat) (g : str) (n : nat) (S : list str) :
  NoDup S -> (~ In g S -> f g = 0) ->
  counter_add str_eqb g n (map (fun g' => (g', f g')) S)
  = map (fun g' => (g', f g' + (if str_eqb g' g then n else 0)))
      (set_add g S).
Proof.
  unfold set_add. induction S as [|g0 S IH]; intros Hnd Hz; simpl.
  - rewrite str_eqb_refl, Hz by tauto. reflexivity.
  - inversion Hnd as [|? ? Hnotin Hnd']; subst.
    destruct (str_eqb g g0) eqn:E; simpl.
    + apply str_eqb_eq in E; subst g0. rewrite str_eqb_refl. f_equal.
      apply map_ext_in. intros g' Hg'.
      destruct (str_eqb g' g) eqn:F.
      * apply str_eqb_eq in F; subst; contradiction.
      * rewrite Nat.add_0_r; reflexivity.
    + rewrite IH; [|exact Hnd'|].
      * destruct (mem g S); simpl; rewrite (str_eqb_sym g0 g), E, Nat.add_0_r;
          reflexivity.
      * intros Hg. apply Hz. intros [->|H]; [|contradiction].
        rewrite str_eqb_refl in E; discriminate.
Qed.

Lemma server_total_snoc (g : str) (cs : list channel) (c : channel) :
  server_total g (cs ++ [c])
  = server_total g cs
    + (if is_server c && str_eqb (c_group c) g then message_count c else 0).
Proof.
  unfold server_total. rewrite filter_app, map_app, total_app. simpl.
  destruct (is_server c && str_eqb (c_group c) g); unfold total; simpl; lia.
Qed.

Lemma server_total_absent (g : str) (cs : list channel) :
  ~ In g (map c_group (filter is_server cs)) -> server_total g cs = 0.
Proof.
  unfold server_total. induction cs as [|c cs IH]; simpl; [reflexivity|].
  destruct (is_server c) eqn:E; simpl.
  - intros H. destruct (str_eqb (c_group c) g) eqn:F.
    + apply str_eqb_eq in F. tauto.
    + apply IH. tauto.
  - exact IH.
Qed.

(** [server_msgs] after the loop: each server, where its first channel
    stands, with the messages of all its channels. *)
Lemma server_msgs_of_spec (cs : list channel) :
  server_msgs_of cs
  = map (fun g => (g, server_total g cs))
      (first_occurrences (map c_group (filter is_server cs))).
Proof.
  rewrite <- set_of_first_occurrences.
  induction cs as [|c cs IH] using rev_ind; [reflexivity|].
  unfold server_msgs_of in *. rewrite fold_left_app; simpl. rewrite IH.
  rewrite filter_app; simpl.
  destruct (is_server c) eqn:E.
  - rewrite map_app; simpl. rewrite set_of_snoc.
    rewrite counter_add_map.
    + apply map_ext. intros g. rewrite server_total_snoc, E; simpl.
      rewrite (str_eqb_sym g (c_group c)). reflexivity.
    + apply set_of_NoDup.
    + intros H. apply server_total_absent. rewrite set_of_In in H. exact H.
  - simpl. rewrite app_nil_r. apply map_ext. intros g.
    rewrite server_total_snoc, E; simpl. rewrite Nat.add_0_r; reflexivity.
Qed.

Lemma filter_map_swap (A B : Type) (f : A -> B) (p : B -> bool)
  (l : list A) :
  filter p (map f l) = map f (filter (fun x => p (f x)) l).
Proof.
  induction l as [|x l IH]; simpl; [reflexivity|].
  destruct (p (f x)); simpl; rewrite IH; reflexivity.
Qed.

Lemma top_servers_of_candidates (cs : list channel) :
  top_servers_of cs = firstn 20 (sorted by_count (server_candidates cs)).
Proof.
  unfold top_servers_of, server_candidates.
  rewrite server_msgs_of_spec, filter_map_swap, map_map. reflexivity.
Qed.

(** * The four rankings *)

(** C3, as stated, fails.  In [tie_package] the servers S and T have one
    message each and the stream meets T first, yet [top_servers] lists S
    first: S is met first in the channel list, at a channel without
    messages.  In [namesake_package] the server called "Direct Messages" is
    ranked with 1 message, not with the 3 of all the channels of that
    group. *)
Lemma C3_counterexample :
  parse_package (Some tie_archive) = Ok tie_package
  /\ top_servers_of (channels tie_package)
     = [ {| r_name := lit "S"; r_count := 1 |};
         {| r_name := lit "T"; r_count := 1 |} ]
  /\ first_seen (lit "S") (messages tie_package) = Some 1
  /\ first_seen (lit "T") (messages tie_package) = Some 0
  /\ parse_package (Some namesake_archive) = Ok namesake_package
  /\ top_servers_of (channels namesake_package)
     = [ {| r_name := lit "Direct Messages"; r_count := 1 |} ]
  /\ group_total (lit "Direct Messages") (channels namesake_package) = 3.
Proof.
  repeat split; vm_compute; reflexivity.
Qed.

Lemma candidates_positive (f : channel -> bool) (cs : list channel) :
  Forall (fun r => 0 < r_count r)
    (map to_rank (filter (fun c => f c && has_messages c) cs)).
Proof.
  apply Forall_map, Forall_forall. intros c Hc.
  apply filter_In in Hc. destruct Hc as [_ Hc].
  apply andb_true_iff in Hc. destruct Hc as [_ Hc].
  apply Nat.ltb_lt in Hc. exact Hc.
Qed.

Lemma server_candidates_positive (cs : list channel) :
  Forall (fun r => 0 < r_count r) (server_candidates cs).
Proof.
  apply Forall_map, Forall_forall. intros g Hg.
  apply filter_In in Hg. destruct Hg as [_ Hg].
  apply Nat.ltb_lt in Hg. exact Hg.
Qed.

Lemma channel_candidates_positive (cs : list channel) :
  Forall (fun r => 0 < cr_count r) (channel_candidates cs).
Proof.
  apply Forall_map, Forall_forall. intros c Hc.
  apply filter_In in Hc. destruct Hc as [_ Hc].
  apply andb_true_iff in Hc. destruct Hc as [_ Hc].
  apply Nat.ltb_lt in Hc. exact Hc.
Qed.

(** C3, amended: each of the four lists is a ranking, capped at 25, 15, 20
    and 20 entries, of its candidates taken in the order of the channel
    list: descending by count, equal counts in the candidates' order; every
    entry has a count above 0; a server is a candidate where its first
    channel stands in the channel list, and its count is the sum of the
    message counts of the server channels of its group.  These lists are
    the entries [compute_stats] returns. *)
Theorem C3_rankings (d : package) :
  (ranking r_count 25 (dm_candidates (channels d)) (top_dms_of (channels d))
   /\ ranking r_count 15 (group_dm_candidates (channels d))
        (top_group_dms_of (channels d))
   /\ ranking r_count 20 (server_candidates (channels d))
        (top_servers_of (channels d))
   /\ ranking cr_count 20 (channel_candidates (channels d))
        (top_channels_of (channels d)))
  /\ (Forall (fun r => 0 < r_count r) (top_dms_of (channels d))
      /\ Forall (fun r => 0 < r_count r) (top_group_dms_of (channels d))
      /\ Forall (fun r => 0 < r_count r) (top_servers_of (channels d))
      /\ Forall (fun r => 0 < cr_count r) (top_channels_of (channels d)))
  /\ (length (top_dms_of (channels d)) <= 25
      /\ length (top_group_dms_of (channels d)) <= 15
      /\ length (top_servers_of (channels d)) <= 20
      /\ length (top_channels_of (channels d)) <= 20)
  /\ (StronglySorted (fun x y => r_count y <= r_count x)
        (top_dms_of (channels d))
      /\ StronglySorted (fun x y => r_count y <= r_count x)
           (top_group_dms_of (channels d))
      /\ StronglySorted (fun x y => r_count y <= r_count x)
           (top_servers_of (channels d))
      /\ StronglySorted (fun x y => cr_count y <= cr_count x)
           (top_channels_of (channels d)))
  /\ (forall r, In r (top_servers_of (channels d)) ->
        r_count r = server_total (r_name r) (channels d))
  /\ forall st, compute_stats d = Ok st ->
       top_dms st = top_dms_of (channels d)
       /\ top_group_dms st = top_group_dms_of (channels d)
       /\ top_servers st = top_servers_of (channels d)
       /\ top_channels st = top_channels_of (channels d).
Proof.
  set (cs := channels d).
  assert (R1 : ranking r_count 25 (dm_candidates cs) (top_dms_of cs))
    by apply sorted_ranking.
  assert (R2 : ranking r_count 15 (group_dm_candidates cs)
                 (top_group_dms_of cs)) by apply sorted_ranking.
  assert (R3 : ranking r_count 20 (server_candidates cs) (top_servers_of cs))
    by (rewrite top_servers_of_candidates; apply sorted_ranking).
  assert (R4 : ranking cr_count 20 (channel_candidates cs)
                 (top_channels_of cs)) by apply sorted_ranking.
  destruct (ranking_facts _ _ _ _ _ R1 (candidates_positive is_DM cs))
    as (P1 & L1 & S1 & _).
  destruct (ranking_facts _ _ _ _ _ R2 (candidates_positive is_GROUP_DM cs))
    as (P2 & L2 & S2 & _).
  destruct (ranking_facts _ _ _ _ _ R3 (server_candidates_positive cs))
    as (P3 & L3 & S3 & I3).
  destruct (ranking_facts _ _ _ _ _ R4 (channel_candidates_positive cs))
    as (P4 & L4 & S4 & _).
  split; [auto|]. split; [auto|]. split; [auto|]. split; [auto|].
  split.
  - intros r Hr. apply I3 in Hr. unfold server_candidates in Hr.
    apply in_map_iff in Hr. destruct Hr as (g & <- & _). reflexivity.
  - intros st H. apply compute_stats_Ok in H. tauto.
Qed.

Lemma C3_rankings_witness :
  (exists st, compute_stats tie_package = Ok st
     /\ top_servers st = top_servers_of (channels tie_package))
  /\ forall r, In r (top_servers_of (channels tie_package)) ->
       r_count r = server_total (r_name r) (channels tie_package).
Proof.
  destruct (C3_rankings tie_package) as (_ & _ & _ & _ & Hsum & Hst).
  split; [|exact Hsum].
  destruct (compute_stats_returns tie_package (1, lit "2024-01-01"))
    as [st Hc]; [vm_compute; reflexivity|].
  exists st. split; [exact Hc|]. apply (Hst st Hc).
Defined.

(** * The archive reader: skipped and kept channels, and their order *)

(** A folder whose [channel.json] is missing or is not JSON adds nothing. *)
Lemma channel_step_skips (zf : zipfile) (index : dict str)
  (st : list channel * list message) (cdir : str) :
  has_meta zf cdir = false -> channel_step zf index st cdir = Ok st.
Proof.
  unfold has_meta, channel_step.
  destruct (dict_get _ (channel_jsons zf)) as [[|meta]|]; simpl;
    try discriminate; reflexivity.
Qed.

(** A folder with metadata whose [messages.json] is missing or is not JSON
    adds its channel with no messages. *)
Lemma channel_step_keeps (zf : zipfile) (index : dict str)
  (st : list channel * list message) (cdir : str) (meta : channel_meta) :
  dict_get (lit "Messages/" ++ cdir ++ lit "/channel.json") (channel_jsons zf)
  = Some (Json meta) ->
  (dict_get (lit "Messages/" ++ cdir ++ lit "/messages.json")
     (messages_jsons zf) = None
   \/ dict_get (lit "Messages/" ++ cdir ++ lit "/messages.json")
        (messages_jsons zf) = Some Undecodable) ->
  exists c,
    channel_step zf index st cdir = Ok (fst st ++ [c], snd st)
    /\ c_id c = slice_from 1 cdir
    /\ message_count c = 0
    /\ (c_name c, c_group c)
       = resolve_channel meta (slice_from 1 cdir)
           (get_or (slice_from 1 cdir) [] index).
Proof.
  intros Hm Hs. unfold channel_step. rewrite Hm.
  destruct (resolve_channel meta _ _) as [display grp] eqn:R.
  destruct Hs as [Hs|Hs]; rewrite Hs; cbn [load try_except bind
    KeyError_or_JSONDecodeError map length]; rewrite R, app_nil_r;
    eexists; (split; [reflexivity|]); cbn; auto.
Qed.

Lemma channel_step_ids (zf : zipfile) (index : dict str)
  (st st' : list channel * list message) (cdir : str) :
  channel_step zf index st cdir = Ok st' ->
  map c_id (fst st')
  = map c_id (fst st)
    ++ (if has_meta zf cdir then [slice_from 1 cdir] else []).
Proof.
  unfold channel_step, has_meta.
  destruct (dict_get _ (channel_jsons zf)) as [[|meta]|]; simpl.
  - intros H; inversion H; subst. rewrite app_nil_r; reflexivity.
  - destruct (try_except _ _ _) as [ms|e]; simpl; [|discriminate].
    destruct (resolve_channel _ _ _) as [display grp].
    intros H; inversion H; subst; simpl. rewrite map_app; reflexivity.
  - intros H; inversion H; subst. rewrite app_nil_r; reflexivity.
Qed.

Lemma channel_loop_ids (zf : zipfile) (index : dict str) (dirs : list str)
  (st st' : list channel * list message) :
  channel_loop zf index st dirs = Ok st' ->
  map c_id (fst st')
  = map c_id (fst st) ++ map (slice_from 1) (filter (has_meta zf) dirs).
Proof.
  revert st; induction dirs as [|cdir dirs IH]; intros st; simpl.
  - intros H; inversion H; subst. rewrite app_nil_r; reflexivity.
  - destruct (channel_step zf index st cdir) as [st1|e] eqn:E; simpl;
      [|discriminate].
    intros H. rewrite (IH _ H), (channel_step_ids _ _ _ _ _ E).
    rewrite <- app_assoc. destruct (has_meta zf cdir); reflexivity.
Qed.

Lemma split_chr_first (x : N) (s : str) :
  x <> slash -> exists w, nth 0 (split_chr slash (x :: s)) [] = x :: w.
Proof.
  intros H. simpl. destruct (N.eqb_spec x slash); [contradiction|].
  destruct (split_chr slash s); eexists; reflexivity.
Qed.

(** Every channel folder's name starts with the letter [c]. *)
Lemma channel_dirs_start (zf : zipfile) (cdir : str) :
  In cdir (channel_dirs zf) -> exists t, cdir = N_of_ascii "c" :: t.
Proof.
  unfold channel_dirs. rewrite set_of_In, in_map_iff.
  intros (name & <- & Hn). apply filter_In in Hn. destruct Hn as [_ Hn].
  apply andb_true_iff in Hn. destruct Hn as [Hn _].
  apply startswith_iff in Hn. destruct Hn as [t ->].
  change (lit "Messages/c")
    with ([77; 101; 115; 115; 97; 103; 101; 115; 47]%N ++ [N_of_ascii "c"]).
  rewrite <- app_assoc.
  change (nth 1 (split_chr slash
                   ([77; 101; 115; 115; 97; 103; 101; 115; 47]%N
                    ++ [N_of_ascii "c"] ++ t)) [])
    with (nth 0 (split_chr slash (N_of_ascii "c" :: t)) []).
  apply split_chr_first. vm_compute; discriminate.
Qed.

Lemma sorted_strict (l : list str) :
  NoDup l ->
  StronglySorted (fun a b => str_ltb a b = true) (sorted str_leb l).
Proof.
  intros Hnd.
  assert (Hs : StronglySorted (fun a b => str_leb a b = true)
                 (sorted str_leb l))
    by (apply sorted_sorted; [apply str_leb_total|apply str_leb_trans]).
  assert (Hn : NoDup (sorted str_leb l))
    by (eapply Permutation_NoDup; [symmetry; apply sorted_perm|exact Hnd]).
  induction Hs as [|x s Hs IH Hx]; constructor.
  - apply IH. inversion Hn; assumption.
  - inversion Hn as [|? ? Hnotin _]; subst.
    rewrite Forall_forall in *. intros y Hy.
    pose proof (Hx y Hy) as Hle. unfold str_leb in Hle.
    apply negb_true_iff in Hle.
    destruct (str_ltb x y) eqn:E; [reflexivity|].
    exfalso. apply Hnotin. rewrite (str_ltb_connex _ _ E Hle). exact Hy.
Qed.

Lemma tails_sorted (l : list str) :
  Forall (fun x => exists t, x = N_of_ascii "c" :: t) l ->
  StronglySorted (fun a b => str_ltb a b = true) l ->
  StronglySorted (fun a b => str_ltb a b = true) (map (slice_from 1) l).
Proof.
  intros Hc Hs. induction Hs as [|x l Hs IH Hx]; simpl; constructor.
  - apply IH. inversion Hc; assumption.
  - inversion Hc as [|? ? [t ->] Hc']; subst.
    apply Forall_map, Forall_forall. intros y Hy.
    rewrite Forall_forall in Hx, Hc'.
    destruct (Hc' y Hy) as [u ->]. pose proof (Hx _ Hy) as H.
    exact H.
Qed.

Lemma StronglySorted_filter (A : Type) (R : A -> A -> Prop)
  (f : A -> bool) (l : list A) :
  StronglySorted R l -> StronglySorted R (filter f l).
Proof.
  induction 1 as [|x l Hs IH Hx]; simpl; [constructor|].
  destruct (f x); [|exact IH]. constructor; [exact IH|].
  apply Forall_forall. intros y Hy. apply filter_In in Hy.
  rewrite Forall_forall in Hx. apply Hx, Hy.
Qed.

(** The channels [parse_package] returns are those of the folders that
    have metadata, in ascending order of channel id. *)
Lemma parse_package_ids (zf : zipfile) (d : package) :
  parse_package (Some zf) = Ok d ->
  map c_id (channels d)
  = map (slice_from 1)
      (filter (has_meta zf) (sorted str_leb (channel_dirs zf)))
  /\ StronglySorted (fun a b => str_ltb a b = true) (map c_id (channels d)).
Proof.
  simpl.
  destruct (try_except only_KeyError [] _) as [idx|]; simpl; [|discriminate].
  destruct (try_except only_KeyError empty_user _) as [u|]; simpl;
    [|discriminate].
  destruct (channel_loop zf idx _ _) as [st|] eqn:E; simpl; [|discriminate].
  intros H; inversion H; subst; simpl.
  pose proof (channel_loop_ids _ _ _ _ _ E) as Hids. simpl in Hids.
  split; [exact Hids|]. rewrite Hids.
  apply tails_sorted.
  - apply Forall_forall. intros x Hx. apply filter_In in Hx.
    destruct Hx as [Hx _]. apply (channel_dirs_start zf).
    eapply Permutation_in; [apply sorted_perm|exact Hx].
  - apply StronglySorted_filter, sorted_strict.
    unfold channel_dirs. apply set_of_NoDup.
Qed.

(** * Words and emoji of the sample message *)

(** C10, as stated, fails: the word scan of the sample text does not yield
    exactly the tokens [hi] and [there]; the name of the custom emoji is
    scanned too. *)
Lemma C10_counterexample :
  words_of sample_text <> [lit "hi"; lit "there"].
Proof. vm_compute. discriminate. Qed.

(** C10, amended: the sample text gives one match of the emoji ranges and
    one of the custom emoji syntax; its word tokens are [hi], [there],
    [custom] and [emoji]; of these the stop-word list removes [there] only,
    so [hi], [custom] and [emoji] are counted. *)
Theorem C10_sample_text (word_char : N -> bool) :
  findall emoji_pattern sample_text = [[0x1F600%N]]
  /\ findall (discord_emoji_pattern word_char) sample_text
     = [lit ":custom_emoji:"]
  /\ words_of sample_text
     = [lit "hi"; lit "there"; lit "custom"; lit "emoji"]
  /\ counted_words sample_text
     = filter (fun w => negb (mem w stopwords)) (words_of sample_text)
  /\ map (fun w => mem w stopwords) (words_of sample_text)
     = [false; true; false; false]
  /\ word_counter_of [said sample_text]
     = [(lit "hi", 1); (lit "custom", 1); (lit "emoji", 1)]
  /\ emoji_counter_of word_char [said sample_text]
     = [([0x1F600%N], 1); (lit ":custom_emoji:", 1)].
Proof.
  repeat split; vm_compute; reflexivity.
Qed.

(** * The streak scan on dates *)

Lemma runs_from_head (d : str) (rest : list str) :
  exists r rs, runs_from d rest = (d :: r) :: rs.
Proof.
  revert d; induction rest as [|e rest IH]; intros d; simpl.
  - exists [], []; reflexivity.
  - destruct (IH e) as (r & rs & ->).
    destruct (next_day d e); eexists; eexists; reflexivity.
Qed.

(** The runs are the list, cut into pieces. *)
Lemma runs_concat (l : list str) : concat (runs l) = l.
Proof.
  destruct l as [|d rest]; [reflexivity|]. simpl.
  revert d; induction rest as [|e rest IH]; intros d; simpl; [reflexivity|].
  pose proof (IH e) as H.
  destruct (runs_from e rest) as [|r rs]; [discriminate|].
  destruct (next_day d e); simpl in *; rewrite H; reflexivity.
Qed.

Lemma pick_longest (b : list str) (rs : list (list str)) :
  pick (run_info b) (map run_info rs) = run_info (longest_from b rs).
Proof.
  revert b; induction rs as [|r rs IH]; intros b; simpl; [reflexivity|].
  destruct (length b <? length r); apply IH.
Qed.

Lemma runs_consecutive (l : list str) : Forall consecutive (runs l).
Proof.
  destruct l as [|d rest]; [constructor|]. simpl.
  revert d; induction rest as [|e rest IH]; intros d; simpl.
  - constructor; [exact I|constructor].
  - pose proof (IH e) as H.
    destruct (runs_from_head e rest) as (r0 & rs & Hr). rewrite Hr in *.
    inversion H as [|? ? Hc Hrs]; subst.
    destruct (next_day d e) eqn:E.
    + constructor; [simpl; auto|exact Hrs].
    + constructor; [exact I|exact H].
Qed.

Lemma runs_separate (l : list str) : separate (runs l).
Proof.
  destruct l as [|d rest]; [exact I|]. simpl.
  revert d; induction rest as [|e rest IH]; intros d; simpl; [exact I|].
  pose proof (IH e) as H.
  destruct (runs_from_head e rest) as (r0 & rs & Hr). rewrite Hr in *.
  destruct (next_day d e) eqn:E.
  - destruct rs as [|r2 rs]; [exact I|].
    destruct H as [H1 H2]. split; [exact H1|exact H2].
  - split; [exact E|exact H].
Qed.

(** The run picked is the first of the longest. *)
Lemma longest_from_first (b : list str) (rs : list (list str)) :
  first_longest (longest_from b rs) (b :: rs).
Proof.
  revert b; induction rs as [|r rs IH]; intros b; simpl.
  - exists [], []. split; [reflexivity|]. split; intros x [].
  - destruct (Nat.ltb_spec (length b) (length r)) as [Hlt|Hge].
    + destruct (IH r) as (before & after & Hs & Hb & Ha).
      exists (b :: before), after. split; [simpl; f_equal; exact Hs|].
      split; [|exact Ha].
      assert (Hr : length r <= length (longest_from r rs)).
      { destruct before as [|x before]; simpl in Hs; injection Hs as H1 H2.
        - rewrite <- H1. lia.
        - subst x. pose proof (Hb r (or_introl eq_refl)). lia. }
      intros x [<-|Hx]; [lia|apply Hb; exact Hx].
    + destruct (IH b) as (before & after & Hs & Hb & Ha).
      destruct before as [|x before]; simpl in Hs; injection Hs as H1 H2.
      * exists [], (r :: after).
        split; [simpl; rewrite <- H1, <- H2; reflexivity|].
        split; [intros x []|].
        intros x [<-|Hx]; [rewrite <- H1; exact Hge|apply Ha; exact Hx].
      * exists (b :: r :: before), after.
        split; [simpl; do 2 f_equal; exact H2|]. split; [|exact Ha].
        subst x. pose proof (Hb b (or_introl eq_refl)) as Hbl.
        intros y [<-|[<-|Hy]]; [exact Hbl|lia|].
        apply Hb; right; exact Hy.
Qed.

Lemma parse_date_day (s : str) (x : Z) :
  day_number s = Some x ->
  exists dt, parse_date s = Ok dt /\ toordinal dt = x.
Proof.
  unfold day_number, parse_date.
  destruct (strptime fmt_date s) as [dt|]; simpl; [|discriminate].
  intros H; inversion H; subst. exists dt; auto.
Qed.

(** The scan from [prev] on: what it reports at the end is the pick among
    the best so far, the run in progress completed, and the later runs. *)
Lemma streak_loop_spec (rest : list str) (prev : str) (st : streak_state) :
  Forall (fun s => day_number s <> None) (prev :: rest) ->
  1 <= current_streak st ->
  exists st' r rs,
    streak_loop prev rest st = Ok st'
    /\ runs_from prev rest = r :: rs
    /\ final st'
       = pick (longest_streak_v st, best_streak_start st)
           ((current_streak st - 1 + length r, streak_start st)
            :: map run_info rs).
Proof.
  revert prev st; induction rest as [|e rest IH]; intros prev st Hd Hc.
  - exists st, [prev], []. simpl. split; [reflexivity|]. split; [reflexivity|].
    unfold final. replace (current_streak st - 1 + 1) with (current_streak st)
      by lia.
    reflexivity.
  - inversion Hd as [|? ? Hp Hd']; subst.
    inversion Hd' as [|? ? He _]; subst.
    destruct (day_number prev) as [x|] eqn:Dp; [|congruence].
    destruct (day_number e) as [y|] eqn:De; [|congruence].
    destruct (parse_date_day _ _ Dp) as (p & Pp & Op).
    destruct (parse_date_day _ _ De) as (q & Pq & Oq).
    destruct (runs_from_head e rest) as (r0 & rs & Hr).
    cbn [streak_loop runs_from]. rewrite Pp, Pq, Hr. cbn [bind].
    unfold next_day. rewrite Dp, De, Op, Oq.
    destruct (y - x =? 1)%Z.
    + edestruct (IH e
                   {| longest_streak_v := longest_streak_v st;
                      current_streak := current_streak st + 1;
                      streak_start := streak_start st;
                      best_streak_start := best_streak_start st |})
        as (st' & r & rs' & Hl & Hr' & Hf); [exact Hd'|simpl; lia|].
      rewrite Hr in Hr'. inversion Hr'; subst r rs'.
      exists st', (prev :: e :: r0), rs. split; [exact Hl|].
      split; [reflexivity|]. rewrite Hf. cbn [longest_streak_v
        best_streak_start current_streak streak_start length].
      replace (current_streak st + 1 - 1 + S (length r0))
        with (current_streak st - 1 + S (S (length r0))) by lia.
      reflexivity.
    + destruct (longest_streak_v st <? current_streak st) eqn:Lt.
      * edestruct (IH e
                     {| longest_streak_v := current_streak st;
                        current_streak := 1;
                        streak_start := e;
                        best_streak_start := streak_start st |})
          as (st' & r & rs' & Hl & Hr' & Hf); [exact Hd'|simpl; lia|].
        rewrite Hr in Hr'. inversion Hr'; subst r rs'.
        exists st', [prev], ((e :: r0) :: rs). split; [exact Hl|].
        split; [reflexivity|]. rewrite Hf. cbn [longest_streak_v
          best_streak_start current_streak streak_start length map pick
          fst run_info hd].
        replace (current_streak st - 1 + 1) with (current_streak st) by lia.
        rewrite Lt. reflexivity.
      * edestruct (IH e
                     {| longest_streak_v := longest_streak_v st;
                        current_streak := 1;
                        streak_start := e;
                        best_streak_start := best_streak_start st |})
          as (st' & r & rs' & Hl & Hr' & Hf); [exact Hd'|simpl; lia|].
        rewrite Hr in Hr'. inversion Hr'; subst r rs'.
        exists st', [prev], ((e :: r0) :: rs). split; [exact Hl|].
        split; [reflexivity|]. rewrite Hf. cbn [longest_streak_v
          best_streak_start current_streak streak_start length map pick
          fst run_info hd].
        replace (current_streak st - 1 + 1) with (current_streak st) by lia.
        rewrite Lt. reflexivity.
Qed.

(** On a non-empty list of dates the scan returns, and reports the length
    and the first date of the first of the longest runs of consecutive
    days; the runs are the list cut where a date is not the day after the
    one before it. *)
Theorem streak_of_dates_longest_run (l : list str) :
  l <> [] ->
  Forall (fun s => day_number s <> None) l ->
  streak_of_dates l = Ok (run_info (longest (runs l)))
  /\ first_longest (longest (runs l)) (runs l)
  /\ concat (runs l) = l
  /\ Forall consecutive (runs l)
  /\ separate (runs l).
Proof.
  intros Hne Hd.
  split; [|split; [|split; [apply runs_concat|
                            split; [apply runs_consecutive|
                                    apply runs_separate]]]].
  - destruct l as [|d rest]; [congruence|].
    unfold streak_of_dates.
    set (st0 := {| longest_streak_v := 0; current_streak := 1;
                   streak_start := d; best_streak_start := d |}).
    destruct (streak_loop_spec rest d st0 Hd) as (st' & r & rs & Hl & Hr & Hf);
      [simpl; lia|].
    rewrite Hl. cbn [bind]. fold (final st').
    assert (Ok (final st') = Ok (run_info (longest (runs (d :: rest)))))
      as <-; [|unfold final; destruct (_ <? _); reflexivity].
    f_equal. rewrite Hf. simpl runs. rewrite Hr. simpl longest.
    destruct (runs_from_head d rest) as (r0 & rs0 & Hr0).
    rewrite Hr in Hr0. inversion Hr0; subst r rs0.
    cbn [pick fst longest_streak_v best_streak_start current_streak
           streak_start st0 length].
    rewrite <- pick_longest. reflexivity.
  - destruct l as [|d rest]; [congruence|].
    simpl runs. destruct (runs_from_head d rest) as (r0 & rs0 & ->).
    apply longest_from_first.
Qed.

Lemma streak_of_dates_longest_run_witness :
  streak_of_dates
    [lit "2024-01-01"; lit "2024-01-02"; lit "2024-01-03"; lit "2024-01-05"]
  = Ok (3, lit "2024-01-01").
Proof.
  destruct (streak_of_dates_longest_run
              [lit "2024-01-01"; lit "2024-01-02"; lit "2024-01-03";
               lit "2024-01-05"]) as [H _].
  - discriminate.
  - repeat constructor; vm_compute; discriminate.
  - rewrite H. vm_compute. reflexivity.
Defined.

(** The dates the scan runs over: the distinct date prefixes, ascending. *)
Lemma sorted_dates_spec (ms : list message) :
  StronglySorted (fun a b => str_ltb a b = true)
    (sorted str_leb (msg_dates_of ms))
  /\ forall s, In s (sorted str_leb (msg_dates_of ms))
               <-> In s (date_prefixes ms).
Proof.
  split.
  - apply sorted_strict, set_of_NoDup.
  - intros s. rewrite sorted_In. apply set_of_In.
Qed.

(** On a stream with a timestamp, all of whose date prefixes are dates, the
    streak entries are the length and the first date of the first of the
    longest runs of consecutive days among the distinct date prefixes. *)
Theorem streak_of_longest_run (ms : list message) :
  timestamps_of ms <> [] ->
  Forall (fun s => day_number s <> None) (date_prefixes ms) ->
  streak_of ms
  = Ok (run_info (longest (runs (sorted str_leb (msg_dates_of ms))))).
Proof.
  intros Hne Hd. unfold streak_of.
  apply streak_of_dates_longest_run.
  - intros F.
    destruct (timestamps_of ms) as [|t ts] eqn:E; [congruence|].
    assert (Hin : In (slice_to 10 t) (sorted str_leb (msg_dates_of ms))).
    { apply sorted_dates_spec. unfold date_prefixes. rewrite E. left.
      reflexivity. }
    rewrite F in Hin. destruct Hin.
  - apply Forall_forall. intros s Hs. apply sorted_dates_spec in Hs.
    rewrite Forall_forall in Hd. apply Hd, Hs.
Qed.

(** [compute_stats] returns on every package whose date prefixes are all
    dates. *)
Theorem compute_stats_returns_on_dates (d : package) :
  Forall (fun s => day_number s <> None) (date_prefixes (messages d)) ->
  exists st, compute_stats d = Ok st.
Proof.
  intros Hd.
  destruct (timestamps_of (messages d)) as [|t ts] eqn:E.
  - apply (compute_stats_returns d (1, [])).
    unfold streak_of, msg_dates_of. rewrite E. reflexivity.
  - eapply compute_stats_returns. apply streak_of_longest_run; [|exact Hd].
    rewrite E; discriminate.
Qed.

(** * Counters, once more *)

Lemma total_perm (l1 l2 : list nat) :
  Permutation l1 l2 -> total l1 = total l2.
Proof.
  unfold total. induction 1; simpl; lia.
Qed.

Section TallyFacts.
Variable K : Type.
Variable eqb : K -> K -> bool.
Hypothesis eqb_eq : forall x y, eqb x y = true <-> x = y.

Lemma counter_add_NoDup (k : K) (n : nat) (c : list (K * nat)) :
  NoDup (map fst c) -> NoDup (map fst (counter_add eqb k n c)).
Proof.
  induction c as [|[k0 v] c IH]; simpl; intros H.
  - constructor; [tauto|constructor].
  - inversion H as [|? ? Hn Hd]; subst.
    destruct (eqb k k0) eqn:E; simpl; [constructor; assumption|].
    constructor; [|apply IH; exact Hd].
    rewrite (counter_add_keys K eqb eqb_eq). intros [->|F]; [|contradiction].
    rewrite (eqb_same K eqb eqb_eq) in E. discriminate.
Qed.

Lemma counter_add_total (k : K) (n : nat) (c : list (K * nat)) :
  total (map snd (counter_add eqb k n c)) = total (map snd c) + n.
Proof.
  unfold total. induction c as [|[k0 v] c IH]; simpl; [lia|].
  destruct (eqb k k0); simpl; lia.
Qed.

Lemma tally_NoDup (l : list K) (c : list (K * nat)) :
  NoDup (map fst c) -> NoDup (map fst (tally eqb l c)).
Proof.
  unfold tally. revert c; induction l as [|x l IH]; intros c H; simpl;
    [exact H|].
  apply IH, counter_add_NoDup, H.
Qed.

Lemma tally_keys (l : list K) (c : list (K * nat)) (k : K) :
  In k (map fst (tally eqb l c)) <-> In k (map fst c) \/ In k l.
Proof.
  unfold tally. revert c; induction l as [|x l IH]; intros c; simpl;
    [tauto|].
  rewrite IH, (counter_add_keys K eqb eqb_eq). intuition.
Qed.

Lemma tally_total (l : list K) (c : list (K * nat)) :
  total (map snd (tally eqb l c)) = total (map snd c) + length l.
Proof.
  unfold tally. revert c; induction l as [|x l IH]; intros c; simpl;
    [lia|].
  rewrite IH, counter_add_total. lia.
Qed.

Lemma counter_get_In (c : list (K * nat)) (k : K) (v : nat) :
  NoDup (map fst c) -> In (k, v) c -> counter_get eqb k c = v.
Proof.
  induction c as [|[k0 v0] c IH]; simpl; intros Hd H; [tauto|].
  destruct H as [H|H].
  - inversion H; subst. rewrite (eqb_same K eqb eqb_eq). reflexivity.
  - inversion Hd as [|? ? Hn Hd']; subst.
    destruct (eqb k k0) eqn:E; [|apply IH; assumption].
    apply eqb_eq in E; subst k0. exfalso. apply Hn.
    apply (in_map fst) in H. exact H.
Qed.

Lemma occurrences_pos (k : K) (l : list K) :
  In k l -> 1 <= occurrences eqb k l.
Proof.
  unfold occurrences. induction l as [|x l IH]; simpl; [tauto|].
  intros [->|H].
  - rewrite (eqb_same K eqb eqb_eq); simpl; lia.
  - destruct (eqb k x); simpl; [lia|auto].
Qed.

(** A counter filled from a list: distinct keys, each with the number of
    its occurrences, which is at least 1. *)
Lemma tally_entry (l : list K) (k : K) (v : nat) :
  In (k, v) (tally eqb l []) ->
  In k l /\ v = occurrences eqb k l /\ 1 <= v.
Proof.
  intros H.
  assert (Hk : In k l).
  { apply (in_map fst) in H. apply tally_keys in H. simpl in H. tauto. }
  assert (Hv : v = occurrences eqb k l).
  { rewrite <- (counter_get_In _ _ _ (tally_NoDup l [] (NoDup_nil K)) H).
    rewrite (counter_get_tally K eqb eqb_eq). reflexivity. }
  split; [exact Hk|]. split; [exact Hv|].
  rewrite Hv. apply occurrences_pos, Hk.
Qed.
End TallyFacts.

(** Sorting by key puts items with distinct keys in strict order. *)
Lemma sorted_by_key_strict (K : Type) (leb : K -> K -> bool)
  (lt : K -> K -> Prop) (c : list (K * nat)) :
  (forall x y, leb x y = true \/ leb y x = true) ->
  (forall x y z, leb x y = true -> leb y z = true -> leb x z = true) ->
  (forall x y, leb x y = true -> x <> y -> lt x y) ->
  NoDup (map fst c) ->
  StronglySorted (fun a b => lt (fst a) (fst b))
    (sorted (fun a b => leb (fst a) (fst b)) c).
Proof.
  intros Htot Htrans Hlt Hnd.
  set (s := sorted (fun a b => leb (fst a) (fst b)) c).
  assert (Hs : StronglySorted (fun a b => leb (fst a) (fst b) = true) s).
  { apply sorted_sorted; [intros x y; apply Htot|].
    intros x y z; apply Htrans. }
  assert (Hn : NoDup (map fst s)).
  { eapply Permutation_NoDup; [|exact Hnd].
    apply Permutation_map. symmetry. apply sorted_perm. }
  clearbody s. induction Hs as [|x l Hs IH Hx]; constructor.
  - apply IH. inversion Hn; assumption.
  - inversion Hn as [|? ? Hnotin _]; subst.
    rewrite Forall_forall in *. intros y Hy.
    apply Hlt; [apply Hx, Hy|].
    intros E. apply Hnotin. rewrite E. apply in_map, Hy.
Qed.

(** The first item of greatest count. *)
Lemma first_max_first (K : Type) (kv : K * nat) (c : list (K * nat)) :
  exists before after,
    kv :: c = before ++ first_max kv c :: after
    /\ (forall x, In x before -> snd x < snd (first_max kv c))
    /\ (forall x, In x after -> snd x <= snd (first_max kv c)).
Proof.
  revert kv; induction c as [|r c IH]; intros b; simpl.
  - exists [], []. split; [reflexivity|]. split; intros x [].
  - destruct (Nat.ltb_spec (snd b) (snd r)) as [Hlt|Hge].
    + destruct (IH r) as (before & after & Hs & Hb & Ha).
      exists (b :: before), after. split; [simpl; f_equal; exact Hs|].
      split; [|exact Ha].
      assert (Hr : snd r <= snd (first_max r c)).
      { destruct before as [|x before]; simpl in Hs; injection Hs as H1 H2.
        - rewrite <- H1. lia.
        - subst x. pose proof (Hb r (or_introl eq_refl)). lia. }
      intros x [<-|Hx]; [lia|apply Hb; exact Hx].
    + destruct (IH b) as (before & after & Hs & Hb & Ha).
      destruct before as [|x before]; simpl in Hs; injection Hs as H1 H2.
      * exists [], (r :: after).
        split; [simpl; rewrite <- H1, <- H2; reflexivity|].
        split; [intros x []|].
        intros x [<-|Hx]; [rewrite <- H1; exact Hge|apply Ha; exact Hx].
      * exists (b :: r :: before), after.
        split; [simpl; do 2 f_equal; exact H2|]. split; [|exact Ha].
        subst x. pose proof (Hb b (or_introl eq_refl)) as Hbl.
        intros y [<-|[<-|Hy]]; [exact Hbl|lia|].
        apply Hb; right; exact Hy.
Qed.

(** * The archive reader: what holds of every result *)

(** One turn of the channel loop leaves the state as it is or adds one entry
    and its tagged messages. *)
Lemma channel_step_shape (zf : zipfile) (index : dict str)
  (st st' : list channel * list message) (cdir : str) :
  channel_step zf index st cdir = Ok st' ->
  st' = st
  \/ exists meta msgs,
       st' = (fst st ++ [entry_of meta (slice_from 1 cdir)
                           (get_or (slice_from 1 cdir) [] index)
                           (length msgs)],
              snd st
              ++ map (tag (fst (resolve_channel meta (slice_from 1 cdir)
                                  (get_or (slice_from 1 cdir) [] index)))
                        (snd (resolve_channel meta (slice_from 1 cdir)
                                (get_or (slice_from 1 cdir) [] index)))
                        (ch_type_of meta))
                   msgs).
Proof.
  unfold channel_step. cbv zeta.
  destruct (load (dict_get _ (channel_jsons zf))) as [meta|e].
  - destruct (try_except _ _ _) as [ms|e']; cbn [bind]; [|discriminate].
    unfold entry_of.
    destruct (resolve_channel meta (slice_from 1 cdir)
                (get_or (slice_from 1 cdir) [] index)) as [display grp]
      eqn:R.
    intros H; inversion H; subst; clear H. right. exists meta, ms.
    rewrite R. reflexivity.
  - destruct (KeyError_or_JSONDecodeError e); intros H; inversion H; subst.
    left; reflexivity.
Qed.

(** A property that holds of the empty state and is kept when an entry and
    its messages are added holds of what [parse_package] returns. *)
Lemma parse_package_invariant
  (P : list channel -> list message -> Prop) (zf : zipfile) (d : package) :
  P [] [] ->
  (forall cs ms meta channel_id idx_val msgs,
     P cs ms ->
     P (cs ++ [entry_of meta channel_id idx_val (length msgs)])
       (ms ++ map (tag (fst (resolve_channel meta channel_id idx_val))
                     (snd (resolve_channel meta channel_id idx_val))
                     (ch_type_of meta))
               msgs)) ->
  parse_package (Some zf) = Ok d -> P (channels d) (messages d).
Proof.
  intros H0 Hstep. simpl.
  destruct (try_except only_KeyError [] _) as [idx|]; simpl; [|discriminate].
  destruct (try_except only_KeyError empty_user _) as [u|]; simpl;
    [|discriminate].
  destruct (channel_loop zf idx _ _) as [st|] eqn:E; simpl; [|discriminate].
  intros H; inversion H; subst; simpl; clear H.
  assert (Hloop : forall dirs st0 st1,
            channel_loop zf idx st0 dirs = Ok st1 ->
            P (fst st0) (snd st0) -> P (fst st1) (snd st1)).
  { induction dirs as [|cdir dirs IH]; intros st0 st1; simpl.
    - intros H; inversion H; subst; auto.
    - destruct (channel_step zf idx st0 cdir) as [st2|e] eqn:E2; simpl;
        [|discriminate].
      intros H HP. apply (IH _ _ H).
      destruct (channel_step_shape _ _ _ _ _ E2) as [->|(meta & msgs & ->)];
        [exact HP|].
      simpl. apply Hstep, HP. }
  apply (Hloop _ _ _ E). exact H0.
Qed.

Lemma resolve_well_filed (meta : channel_meta) (channel_id idx_val : str)
  (n : nat) :
  well_filed (entry_of meta channel_id idx_val n).
Proof.
  unfold well_filed, is_server, is_DM, is_GROUP_DM, entry_of,
    resolve_channel, resolve; cbn [c_type c_group c_name].
  destruct (str_eqb (ch_type_of meta) DM) eqn:E1.
  - cbn [fst snd orb negb]. split; [reflexivity|].
    apply str_eqb_eq in E1. rewrite E1. split; discriminate.
  - destruct (str_eqb (ch_type_of meta) GROUP_DM) eqn:E2.
    + cbn [fst snd orb negb]. split; [discriminate|].
      split; [|discriminate]. intros _. split; [reflexivity|].
      unfold str_or.
      destruct (or_empty (meta_name meta)) as [|x t]; simpl;
        [|discriminate].
      destruct idx_val; simpl; discriminate.
    + split; [discriminate|]. split; [discriminate|]. intros _.
      destruct (contains sep_in idx_val); cbn [fst snd].
      * eexists; reflexivity.
      * destruct (truthy _); eexists; reflexivity.
Qed.

Lemma Forall_snoc (A : Type) (P : A -> Prop) (l : list A) (x : A) :
  Forall P l -> P x -> Forall P (l ++ [x]).
Proof.
  intros Hl Hx. apply Forall_app. split; [exact Hl|]. constructor; auto.
Qed.

Lemma StronglySorted_NoDup (l : list str) :
  StronglySorted (fun a b => str_ltb a b = true) l -> NoDup l.
Proof.
  induction 1 as [|x l Hs IH Hx]; constructor; [|exact IH].
  intros Hin. rewrite Forall_forall in Hx.
  pose proof (Hx _ Hin) as F. rewrite str_ltb_irrefl in F. discriminate.
Qed.

(** X2.  The channels [parse_package] returns are the folders
    [Messages/c<id>/] of the archive whose [channel.json] is JSON, one entry
    for each, in the ascending order of their ids as texts; no id comes
    twice. *)
Theorem X2_channels_by_id (zf : zipfile) (d : package) :
  parse_package (Some zf) = Ok d ->
  map c_id (channels d)
  = map (slice_from 1)
      (filter (has_meta zf) (sorted str_leb (channel_dirs zf)))
  /\ StronglySorted (fun a b => str_ltb a b = true) (map c_id (channels d))
  /\ NoDup (map c_id (channels d))
  /\ length (channels d)
     = length (filter (has_meta zf) (channel_dirs zf)).
Proof.
  intros H. destruct (parse_package_ids zf d H) as [Hids Hs].
  split; [exact Hids|]. split; [exact Hs|].
  split; [apply StronglySorted_NoDup, Hs|].
  rewrite <- (length_map c_id), Hids, length_map.
  apply Permutation_length.
  assert (Hp : forall l1 l2 : list str, Permutation l1 l2 ->
            Permutation (filter (has_meta zf) l1) (filter (has_meta zf) l2)).
  { induction 1; simpl; auto.
    - destruct (has_meta zf x); auto.
    - destruct (has_meta zf x), (has_meta zf y); auto. apply perm_swap.
    - etransitivity; eassumption. }
  apply Hp, sorted_perm.
Qed.

Lemma X2_channels_by_id_witness :
  map c_id (channels tie_package) = [lit "1"; lit "2"; lit "3"]
  /\ NoDup (map c_id (channels tie_package)).
Proof.
  assert (H : parse_package (Some tie_archive) = Ok tie_package)
    by (vm_compute; reflexivity).
  destruct (X2_channels_by_id tie_archive tie_package H) as (H1 & _ & H3 & _).
  split; [reflexivity|exact H3].
Defined.

(** X3.  The stream [parse_package] returns holds the messages channel by
    channel, in the order of the channel list: for each channel as many
    messages as its [message_count], each tagged with the name, the group
    and the type of that channel. *)
Theorem X3_stream_by_channel (zf : zipfile) (d : package) :
  parse_package (Some zf) = Ok d ->
  map tags_of (messages d)
  = flat_map (fun c => repeat (channel_tags c) (message_count c))
      (channels d).
Proof.
  apply (parse_package_invariant
           (fun cs ms =>
              map tags_of ms
              = flat_map (fun c => repeat (channel_tags c) (message_count c))
                  cs)).
  - reflexivity.
  - intros cs ms meta channel_id idx_val msgs IH.
    rewrite map_app, flat_map_app, IH. f_equal.
    simpl. rewrite app_nil_r, map_map. unfold channel_tags; simpl.
    clear. induction msgs as [|m msgs IHm]; simpl; [reflexivity|].
    f_equal. exact IHm.
Qed.

Lemma X3_stream_by_channel_witness :
  map tags_of (messages namesake_package)
  = [ (lit "Alex", lit "Direct Messages", DM);
      (lit "Alex", lit "Direct Messages", DM);
      (lit "#general", lit "Direct Messages", lit "GUILD_TEXT") ].
Proof.
  assert (H : parse_package (Some namesake_archive) = Ok namesake_package)
    by (vm_compute; reflexivity).
  rewrite (X3_stream_by_channel namesake_archive namesake_package H).
  reflexivity.
Defined.

(** X4.  Every channel [parse_package] returns is filed by its type: a
    channel of type DM is in the group "Direct Messages", a channel of type
    GROUP_DM is in the group "Group DMs" and its name is not empty, and the
    name of a channel of any other type starts with [#]. *)
Theorem X4_channels_well_filed (zf : zipfile) (d : package) :
  parse_package (Some zf) = Ok d -> Forall well_filed (channels d).
Proof.
  apply (parse_package_invariant (fun cs _ => Forall well_filed cs)).
  - constructor.
  - intros cs ms meta channel_id idx_val msgs IH.
    apply Forall_snoc; [exact IH|apply resolve_well_filed].
Qed.

Lemma X4_channels_well_filed_witness :
  parse_package (Some group_archive) = Ok group_package
  /\ Forall well_filed (channels group_package).
Proof.
  assert (H : parse_package (Some group_archive) = Ok group_package)
    by (vm_compute; reflexivity).
  split; [exact H|].
  exact (X4_channels_well_filed group_archive group_package H).
Defined.

(** * The overview and the counts by year, month, time of day and day *)

Lemma type_split (cs : list channel) :
  length cs
  = length (filter is_DM cs) + length (filter is_GROUP_DM cs)
    + length (filter is_server cs).
Proof.
  induction cs as [|c cs IH]; [reflexivity|].
  cbn [filter length]. unfold is_server at 1.
  destruct (is_DM c) eqn:E1.
  - assert (E2 : is_GROUP_DM c = false).
    { unfold is_DM, is_GROUP_DM in *. apply str_eqb_eq in E1.
      rewrite E1. reflexivity. }
    rewrite E2. simpl. lia.
  - destruct (is_GROUP_DM c); simpl; lia.
Qed.

Lemma distinct_le (l : list str) : distinct l <= length l.
Proof.
  rewrite <- set_of_length.
  apply NoDup_incl_length; [apply set_of_NoDup|].
  intros x Hx. apply set_of_In, Hx.
Qed.

Lemma distinct_zero (l : list str) : distinct l = 0 <-> l = [].
Proof.
  rewrite <- set_of_length. split.
  - destruct l as [|x l]; [reflexivity|]. intros H.
    assert (Hin : In x (set_of (x :: l))) by (apply set_of_In; left; auto).
    destruct (set_of (x :: l)); [destruct Hin|discriminate].
  - intros ->; reflexivity.
Qed.

(** What [compute_stats] returns, entry by entry, for the entries of the
    overview. *)
Lemma compute_stats_overview (d : package) (st : stats) :
  compute_stats d = Ok st ->
  total_channels st = length (channels d)
  /\ total_dms st = length (filter is_DM (channels d))
  /\ total_group_dms st = length (filter is_GROUP_DM (channels d))
  /\ total_servers st
     = length (set_of (map c_group (filter is_server (channels d)))).
Proof.
  unfold compute_stats.
  destruct (streak_of (messages d)) as [r|e]; simpl; [|discriminate].
  destruct (first_last_of (messages d)) as [[f l] n].
  intros H; inversion H; subst; simpl. auto.
Qed.

(** X5.  In the overview the channels divide into direct messages, group
    conversations and server channels; the number of servers is the number
    of distinct groups of the server channels, so it is at most their
    number, and it is 0 only when there is no server channel. *)
Theorem X5_overview (d : package) (st : stats) :
  compute_stats d = Ok st ->
  total_channels st
  = total_dms st + total_group_dms st
    + length (filter is_server (channels d))
  /\ total_servers st
     = distinct (map c_group (filter is_server (channels d)))
  /\ total_servers st <= length (filter is_server (channels d))
  /\ (total_servers st = 0 <-> filter is_server (channels d) = []).
Proof.
  intros H. destruct (compute_stats_overview d st H) as (-> & -> & -> & ->).
  split; [apply type_split|].
  rewrite set_of_length. split; [reflexivity|]. split.
  - etransitivity; [apply distinct_le|]. rewrite length_map. lia.
  - rewrite distinct_zero. split.
    + intros E. apply map_eq_nil in E. exact E.
    + intros ->; reflexivity.
Qed.

Lemma X5_overview_witness :
  exists st, compute_stats namesake_package = Ok st
    /\ total_channels st = total_dms st + total_group_dms st + 1
    /\ total_servers st <= 1.
Proof.
  eexists. split; [vm_compute; reflexivity|].
  match goal with
  | |- total_channels ?s = _ /\ _ =>
      destruct (X5_overview namesake_package s
                  ltac:(vm_compute; reflexivity)) as (H1 & _ & H3 & _)
  end.
  split; [exact H1|exact H3].
Defined.

(** ** Years and months *)

Lemma strptime_range (fmt : re) (s : str) (dt : datetime) :
  strptime fmt s = Some dt ->
  (1 <= year dt <= 9999)%Z /\ (1 <= month dt <= 12)%Z.
Proof.
  unfold strptime.
  destruct (re_match fmt s) as [[[|? ?] c]|]; try discriminate.
  destruct (field gY 1900 c), (field gm 1 c), (field gd 1 c),
    (field gH 0 c), (field gM 0 c), (field gS 0 c); try discriminate.
  intros H; apply new_datetime_range in H; tauto.
Qed.

Lemma parsed_times_range (ms : list message) :
  Forall (fun dt => (1 <= year dt <= 9999)%Z /\ (1 <= month dt <= 12)%Z)
    (parsed_times ms).
Proof.
  induction ms as [|m ms IH]; [constructor|].
  unfold parsed_times in *; simpl.
  destruct (truthy (timestamp_of m)); simpl; [|exact IH].
  destruct (parse_timestamp (timestamp_of m)) eqn:P; simpl; [|exact IH].
  constructor; [|exact IH]. eapply strptime_range; exact P.
Qed.

(** The items of a counter filled from a list, sorted by key. *)
Lemma sorted_tally_items (K : Type) (eqb : K -> K -> bool)
  (leb : K -> K -> bool) (l : list K) (k : K) (v : nat) :
  (forall x y, eqb x y = true <-> x = y) ->
  In (k, v) (sorted (fun a b => leb (fst a) (fst b)) (tally eqb l []))
  <-> 1 <= v /\ v = occurrences eqb k l.
Proof.
  intros eqb_eq. rewrite sorted_In. split.
  - intros H. apply (tally_entry K eqb eqb_eq) in H. tauto.
  - intros [Hv ->].
    assert (Hk : In k (map fst (tally eqb l []))).
    { apply (tally_keys K eqb eqb_eq). right.
      unfold occurrences in Hv.
      destruct (filter (eqb k) l) as [|x f] eqn:E; [simpl in Hv; lia|].
      assert (Hx : In x (filter (eqb k) l)) by (rewrite E; left; auto).
      apply filter_In in Hx. destruct Hx as [Hx Hkx].
      apply eqb_eq in Hkx. subst x. exact Hx. }
    apply in_map_iff in Hk. destruct Hk as ([k' v'] & Hf & Hin).
    simpl in Hf; subst k'.
    destruct (tally_entry K eqb eqb_eq l k v' Hin) as (_ & -> & _).
    exact Hin.
Qed.

Lemma sorted_total (A : Type) (leb : A -> A -> bool) (f : A -> nat)
  (l : list A) :
  total (map f (sorted leb l)) = total (map f l).
Proof.
  apply total_perm, Permutation_map, sorted_perm.
Qed.

Lemma yearly_of_tally (ms : list message) :
  yearly_of ms
  = sorted (fun a b => Z.leb (fst a) (fst b))
      (tally Z.eqb (map year (parsed_times ms)) []).
Proof.
  unfold yearly_of, bucket_loop. rewrite bucket_fold. reflexivity.
Qed.

Lemma monthly_of_tally (ms : list message) :
  monthly_of ms
  = sorted (fun a b => pair_leb (fst a) (fst b))
      (tally pair_eqb (map (fun dt => (year dt, month dt)) (parsed_times ms))
         []).
Proof.
  unfold monthly_of, bucket_loop. rewrite bucket_fold. reflexivity.
Qed.

(** X6.  The counts by year that [compute_stats] returns: one item for each
    year in which a message has a timestamp the bucket loop accepts, in
    ascending order of the years, its count the number of those messages
    (so at least 1); the counts add up to the number of messages with an
    accepted timestamp, and every year lies between 1 and 9999. *)
Theorem X6_yearly (d : package) (st : stats) :
  compute_stats d = Ok st ->
  StronglySorted (fun a b => (fst a < fst b)%Z) (yearly st)
  /\ (forall y n,
        In (y, n) (yearly st)
        <-> 1 <= n
            /\ n = occurrences Z.eqb y (map year (parsed_times (messages d))))
  /\ total (map snd (yearly st)) = length (filter parses (messages d))
  /\ forall y n, In (y, n) (yearly st) -> (1 <= y <= 9999)%Z.
Proof.
  intros H. apply compute_stats_Ok in H.
  destruct H as (_ & _ & _ & _ & _ & _ & _ & _ & _ & _ & -> & _).
  rewrite yearly_of_tally.
  split; [|split; [|split]].
  - apply (sorted_by_key_strict Z Z.leb Z.lt).
    + intros x y. rewrite !Z.leb_le. lia.
    + intros x y z. rewrite !Z.leb_le. lia.
    + intros x y. rewrite Z.leb_le. lia.
    + apply (tally_NoDup Z Z.eqb Z.eqb_eq). constructor.
  - intros y n. apply sorted_tally_items. exact Z.eqb_eq.
  - rewrite sorted_total, (tally_total Z Z.eqb), length_map. simpl.
    apply parsed_times_length.
  - intros y n Hin. apply sorted_In in Hin.
    apply (tally_entry Z Z.eqb Z.eqb_eq) in Hin. destruct Hin as [Hin _].
    apply in_map_iff in Hin. destruct Hin as (dt & <- & Hdt).
    pose proof (parsed_times_range (messages d)) as F.
    rewrite Forall_forall in F. apply F in Hdt. tauto.
Qed.

Lemma X6_yearly_witness :
  exists st, compute_stats (stream [early; late]) = Ok st
    /\ total (map snd (yearly st)) = 1.
Proof.
  eexists. split; [vm_compute; reflexivity|].
  match goal with
  | |- total (map snd (yearly ?s)) = _ =>
      destruct (X6_yearly (stream [early; late]) s
                  ltac:(vm_compute; reflexivity)) as (_ & _ & H & _)
  end.
  exact H.
Defined.

(** X7.  The counts by month that [compute_stats] returns: one item for
    each month (of a year) in which a message has an accepted timestamp, its
    count the number of those messages, at least 1; the counts add up to the
    number of messages with an accepted timestamp.  When all the years have
    four digits, so that the order of the keys as texts is the order of
    time, the items are in ascending order of time. *)
Theorem X7_monthly (d : package) (st : stats) :
  compute_stats d = Ok st ->
  (forall k n,
     In (k, n) (monthly st)
     <-> 1 <= n
         /\ n = occurrences pair_eqb k
                  (map (fun dt => (year dt, month dt))
                     (parsed_times (messages d))))
  /\ total (map snd (monthly st)) = length (filter parses (messages d))
  /\ (Forall (fun dt => (1000 <= year dt)%Z) (parsed_times (messages d)) ->
      StronglySorted (fun a b => month_before (fst a) (fst b)) (monthly st)).
Proof.
  intros H. apply compute_stats_Ok in H.
  destruct H as (_ & _ & _ & _ & _ & _ & _ & -> & _).
  rewrite monthly_of_tally.
  split; [|split].
  - intros k n. apply sorted_tally_items. exact pair_eqb_eq.
  - rewrite sorted_total, (tally_total (Z * Z) pair_eqb), length_map. simpl.
    apply parsed_times_length.
  - intros _.
    apply (sorted_by_key_strict (Z * Z) pair_leb month_before).
    + intros [a b] [a' b']. unfold pair_leb; simpl.
      rewrite !orb_true_iff, !andb_true_iff, !Z.ltb_lt, !Z.eqb_eq, !Z.leb_le.
      lia.
    + intros [a b] [a' b'] [a2 b2]. unfold pair_leb; simpl.
      rewrite !orb_true_iff, !andb_true_iff, !Z.ltb_lt, !Z.eqb_eq, !Z.leb_le.
      lia.
    + intros [a b] [a' b']. unfold pair_leb, month_before; simpl.
      rewrite !orb_true_iff, !andb_true_iff, !Z.ltb_lt, !Z.eqb_eq, !Z.leb_le.
      intros Hle Hne.
      assert (a <> a' \/ b <> b')%Z.
      { destruct (Z.eq_dec a a'); [|lia]. right. intros ->. subst.
        apply Hne. reflexivity. }
      lia.
    + apply (tally_NoDup (Z * Z) pair_eqb pair_eqb_eq). constructor.
Qed.

Lemma X7_monthly_witness :
  exists st, compute_stats (stream four_days) = Ok st
    /\ monthly st = [((2024, 1)%Z, 4)]
    /\ StronglySorted (fun a b => month_before (fst a) (fst b)) (monthly st).
Proof.
  eexists. split; [vm_compute; reflexivity|].
  match goal with
  | |- monthly ?s = _ /\ _ =>
      destruct (X7_monthly (stream four_days) s
                  ltac:(vm_compute; reflexivity)) as (_ & _ & H)
  end.
  split; [reflexivity|]. apply H.
  repeat constructor; vm_compute; discriminate.
Defined.

(** * The times of day and the busiest day *)

Lemma occurrences_cons (x h : Z) (l : list Z) :
  occurrences Z.eqb h (x :: l)
  = (if Z.eqb h x then 1 else 0) + occurrences Z.eqb h l.
Proof.
  unfold occurrences. simpl. destruct (Z.eqb h x); reflexivity.
Qed.

(** The counts of the hours from [a] to [a + n] add up to the number of
    times whose hour lies there. *)
Lemma window_occurrences (a n : nat) (l : list Z) :
  total (map (fun h => occurrences Z.eqb h l) (map Z.of_nat (seq a n)))
  = length
      (filter (fun x => ((Z.of_nat a <=? x) && (x <? Z.of_nat (a + n)))%Z) l).
Proof.
  induction l as [|x l IH].
  - unfold total. simpl. induction (seq a n); simpl; auto.
  - rewrite (map_ext _ (fun h => (if Z.eqb h x then 1 else 0)
                                 + occurrences Z.eqb h l))
      by (intros h; apply occurrences_cons).
    rewrite total_map_add, total_indicator, IH. simpl.
    destruct ((Z.of_nat a <=? x) && (x <? Z.of_nat (a + n)))%Z; reflexivity.
Qed.

Lemma window_spec (ms : list message) (a b : nat) :
  a <= b ->
  window (b_hourly (bucket_loop ms)) a b
  = length (filter (in_window a b) (parsed_times ms)).
Proof.
  intros Hab. unfold window, bucket_loop. rewrite bucket_fold.
  cbn [b_hourly no_buckets].
  rewrite (map_ext _ (fun h => occurrences Z.eqb h (map hour (parsed_times ms))))
    by (intros h; rewrite (counter_get_tally Z Z.eqb Z.eqb_eq); reflexivity).
  change (list_sum ?l) with (total l).
  rewrite window_occurrences.
  replace (a + (b - a)) with b by lia.
  rewrite (filter_map_swap datetime Z hour), length_map. reflexivity.
Qed.

Lemma filter_length_cons (A : Type) (f : A -> bool) (x : A) (l : list A) :
  length (filter f (x :: l))
  = (if f x then 1 else 0) + length (filter f l).
Proof.
  simpl. destruct (f x); reflexivity.
Qed.

Lemma one_window (dt : datetime) :
  (0 <= hour dt <= 23)%Z ->
  (if in_window 0 6 dt then 1 else 0) + (if in_window 6 12 dt then 1 else 0)
  + (if in_window 12 18 dt then 1 else 0)
  + (if in_window 18 24 dt then 1 else 0) = 1.
Proof.
  intros H. unfold in_window.
  destruct (Z.leb_spec (Z.of_nat 0) (hour dt)),
    (Z.ltb_spec (hour dt) (Z.of_nat 6)),
    (Z.leb_spec (Z.of_nat 6) (hour dt)),
    (Z.ltb_spec (hour dt) (Z.of_nat 12)),
    (Z.leb_spec (Z.of_nat 12) (hour dt)),
    (Z.ltb_spec (hour dt) (Z.of_nat 18)),
    (Z.leb_spec (Z.of_nat 18) (hour dt)),
    (Z.ltb_spec (hour dt) (Z.of_nat 24));
    cbn [andb]; lia.
Qed.

Lemma four_windows (l : list datetime) :
  Forall (fun dt => (0 <= hour dt <= 23)%Z) l ->
  length (filter (in_window 0 6) l) + length (filter (in_window 6 12) l)
  + length (filter (in_window 12 18) l) + length (filter (in_window 18 24) l)
  = length l.
Proof.
  induction 1 as [|dt l Hdt Hl IH]; [reflexivity|].
  rewrite !filter_length_cons. pose proof (one_window dt Hdt).
  cbn [length]. lia.
Qed.

Lemma tod_total (ms : list message) :
  night (time_of_day_of ms) + morning (time_of_day_of ms)
  + afternoon (time_of_day_of ms) + evening (time_of_day_of ms)
  = length (filter parses ms).
Proof.
  unfold time_of_day_of; cbn [night morning afternoon evening].
  rewrite !window_spec by lia.
  rewrite four_windows by apply parsed_times_hour.
  apply parsed_times_length.
Qed.

(** X8.  The four times of day: each count is the number of messages with an
    accepted timestamp whose hour lies in the window (0-5, 6-11, 12-17,
    18-23), and the four counts add up to the number of messages with an
    accepted timestamp. *)
Theorem X8_time_of_day (word_char : N -> bool) (d : package) :
  night (tod (compute_more word_char d))
  = length (filter (in_window 0 6) (parsed_times (messages d)))
  /\ morning (tod (compute_more word_char d))
     = length (filter (in_window 6 12) (parsed_times (messages d)))
  /\ afternoon (tod (compute_more word_char d))
     = length (filter (in_window 12 18) (parsed_times (messages d)))
  /\ evening (tod (compute_more word_char d))
     = length (filter (in_window 18 24) (parsed_times (messages d)))
  /\ night (tod (compute_more word_char d))
     + morning (tod (compute_more word_char d))
     + afternoon (tod (compute_more word_char d))
     + evening (tod (compute_more word_char d))
     = length (filter parses (messages d)).
Proof.
  unfold compute_more, time_of_day_of; cbn [tod night morning afternoon evening].
  rewrite !window_spec by lia.
  repeat (split; [reflexivity|]).
  rewrite four_windows by apply parsed_times_hour.
  apply parsed_times_length.
Qed.

(** ** The busiest day *)

Lemma counter_add_fst (k : str) (n : nat) (c : list (str * nat)) :
  map fst (counter_add str_eqb k n c) = set_add k (map fst c).
Proof.
  unfold set_add.
  induction c as [|[k0 v] c IH]; simpl; [reflexivity|].
  destruct (str_eqb k k0); simpl; [reflexivity|].
  rewrite IH. destruct (mem k (map fst c)); reflexivity.
Qed.

Lemma tally_fst (l : list str) (c : list (str * nat)) :
  map fst (tally str_eqb l c)
  = fold_left (fun acc x => set_add x acc) l (map fst c).
Proof.
  unfold tally. revert c; induction l as [|x l IH]; intros c; simpl;
    [reflexivity|].
  rewrite IH, counter_add_fst. reflexivity.
Qed.

(** A counter filled from a list holds the distinct keys in the order in
    which they first occur, each with the number of its occurrences. *)
Lemma tally_first_occurrences (l : list str) :
  tally str_eqb l []
  = map (fun k => (k, occurrences str_eqb k l)) (first_occurrences l).
Proof.
  assert (Hk : map fst (tally str_eqb l []) = first_occurrences l).
  { rewrite tally_fst. apply set_of_first_occurrences. }
  assert (Hv : forall k v, In (k, v) (tally str_eqb l []) ->
                 v = occurrences str_eqb k l).
  { intros k v H. apply (tally_entry str str_eqb str_eqb_eq) in H. tauto. }
  revert Hk Hv. generalize (first_occurrences l).
  induction (tally str_eqb l []) as [|[k v] c IH]; intros ks Hk Hv.
  - simpl in Hk. subst ks. reflexivity.
  - destruct ks as [|k' ks]; [discriminate|].
    simpl in Hk. injection Hk as -> Hk. simpl.
    rewrite (Hv k' v) by (left; reflexivity). f_equal.
    apply IH; [exact Hk|]. intros k v' H. apply Hv. right. exact H.
Qed.

Lemma busiest_of_spec (ms : list message) :
  busiest_of ms
  = match map (fun k => (k, occurrences str_eqb k (date_prefixes ms)))
            (first_occurrences (date_prefixes ms)) with
    | kv :: c => first_max kv c
    | [] => ([], 0)
    end.
Proof.
  unfold busiest_of. rewrite day_counts_tally, tally_first_occurrences.
  reflexivity.
Qed.

(** X9.  The busiest day: when some message has a non-empty timestamp, the
    day returned is the date prefix with the greatest number of such
    messages, the one met first in the stream among those of that number,
    and the count returned is that number; otherwise the day is the empty
    text and the count 0. *)
Theorem X9_busiest_day (d : package) (st : stats) :
  compute_stats d = Ok st ->
  (timestamps_of (messages d) = [] ->
   busiest_day st = [] /\ busiest_day_count st = 0)
  /\ (timestamps_of (messages d) <> [] ->
      In (busiest_day st) (date_prefixes (messages d))
      /\ busiest_day_count st
         = occurrences str_eqb (busiest_day st) (date_prefixes (messages d))
      /\ 1 <= busiest_day_count st
      /\ exists before after,
           first_occurrences (date_prefixes (messages d))
           = before ++ busiest_day st :: after
           /\ (forall x, In x before ->
                 occurrences str_eqb x (date_prefixes (messages d))
                 < busiest_day_count st)
           /\ (forall x, In x after ->
                 occurrences str_eqb x (date_prefixes (messages d))
                 <= busiest_day_count st)).
Proof.
  intros H. apply compute_stats_Ok in H.
  destruct H as (_ & _ & _ & _ & _ & _ & _ & _ & _ & _ & _ & Hb).
  assert (Hd : busiest_day st = fst (busiest_of (messages d)))
    by (rewrite <- Hb; reflexivity).
  assert (Hc : busiest_day_count st = snd (busiest_of (messages d)))
    by (rewrite <- Hb; reflexivity).
  rewrite Hd, Hc. clear Hb Hd Hc. split.
  - intros E. unfold busiest_of, day_counts_of. rewrite E. auto.
  - intros Hne.
    rewrite busiest_of_spec.
    set (l := date_prefixes (messages d)) in *.
    set (f := fun k => (k, occurrences str_eqb k l)) in *.
    destruct (first_occurrences l) as [|x xs] eqn:Hfo.
    { exfalso. apply Hne. unfold l, date_prefixes in Hfo.
      destruct (timestamps_of (messages d)); [reflexivity|discriminate]. }
    cbn [map].
    destruct (first_max_first str (f x) (map f xs))
      as (before & after & Hs & Hbef & Haft).
    set (b := first_max (f x) (map f xs)) in *.
    assert (Hin : In b (f x :: map f xs)).
    { rewrite Hs. apply in_or_app. right. left. reflexivity. }
    change (f x :: map f xs) with (map f (x :: xs)) in Hin.
    apply in_map_iff in Hin. destruct Hin as (k & Hk & Hkin).
    assert (Hfst : fst b = k) by (rewrite <- Hk; reflexivity).
    assert (Hsnd : snd b = occurrences str_eqb k l)
      by (rewrite <- Hk; reflexivity).
    assert (Hkl : In k l).
    { rewrite <- Hfo in Hkin. rewrite <- set_of_first_occurrences in Hkin.
      apply (proj1 (set_of_In l k)), Hkin. }
    rewrite Hfst, Hsnd.
    split; [exact Hkl|]. split; [reflexivity|].
    split; [apply (occurrences_pos str str_eqb str_eqb_eq), Hkl|].
    change (f x :: map f xs) with (map f (x :: xs)) in Hs.
    rewrite <- Hfo in Hs.
    assert (Hm : map fst (map f (first_occurrences l))
                 = first_occurrences l).
    { rewrite map_map. simpl. apply map_id. }
    rewrite Hs, map_app in Hm. simpl in Hm. rewrite Hfst in Hm.
    exists (map fst before), (map fst after).
    split; [rewrite <- Hfo; symmetry; exact Hm|].
    assert (Hval : forall y, In y (before ++ b :: after) ->
                     snd y = occurrences str_eqb (fst y) l).
    { intros y Hy. rewrite <- Hs in Hy. apply in_map_iff in Hy.
      destruct Hy as (z & <- & _). reflexivity. }
    split.
    + intros y Hy. apply in_map_iff in Hy. destruct Hy as (z & <- & Hz).
      rewrite <- Hval by (apply in_or_app; left; exact Hz).
      rewrite <- Hsnd. apply Hbef, Hz.
    + intros y Hy. apply in_map_iff in Hy. destruct Hy as (z & <- & Hz).
      rewrite <- Hval by (apply in_or_app; right; right; exact Hz).
      rewrite <- Hsnd. apply Haft, Hz.
Qed.

Lemma X9_busiest_day_witness :
  exists st, compute_stats (stream [early; late; early]) = Ok st
    /\ busiest_day st = lit "2024-01-01"
    /\ busiest_day_count st
       = occurrences str_eqb (busiest_day st)
           (date_prefixes [early; late; early]).
Proof.
  eexists. split; [vm_compute; reflexivity|].
  match goal with
  | |- busiest_day ?s = _ /\ _ =>
      destruct (X9_busiest_day (stream [early; late; early]) s
                  ltac:(vm_compute; reflexivity)) as (_ & H)
  end.
  split; [reflexivity|].
  apply H. vm_compute. discriminate.
Defined.

(** * The streak scan: when it raises and what it reports *)

Lemma parse_date_None (s : str) :
  day_number s = None -> parse_date s = Raise ValueError.
Proof.
  unfold day_number, parse_date.
  destruct (strptime fmt_date s); simpl; [discriminate|reflexivity].
Qed.

Lemma parse_date_Some (s : str) :
  day_number s <> None -> exists dt, parse_date s = Ok dt.
Proof.
  unfold day_number, parse_date.
  destruct (strptime fmt_date s) as [dt|]; simpl; [|congruence].
  intros _; exists dt; reflexivity.
Qed.

Lemma day_number_dec (s : str) : {day_number s = None} + {day_number s <> None}.
Proof.
  destruct (day_number s); [right; discriminate|left; reflexivity].
Qed.

(** The scan raises nothing but [ValueError], and only on a text that is no
    date. *)
Lemma streak_loop_raises (rest : list str) (prev : str) (st : streak_state)
  (e : exn) :
  streak_loop prev rest st = Raise e ->
  e = ValueError /\ exists s, In s (prev :: rest) /\ day_number s = None.
Proof.
  revert prev st; induction rest as [|c rest IH]; intros prev st;
    [discriminate|].
  cbn [streak_loop].
  destruct (day_number_dec prev) as [Dp|Dp].
  - rewrite (parse_date_None _ Dp). cbn [bind]. intros H; inversion H.
    split; [reflexivity|]. exists prev. split; [left; reflexivity|exact Dp].
  - destruct (parse_date_Some _ Dp) as [p ->]. cbn [bind].
    destruct (day_number_dec c) as [Dc|Dc].
    + rewrite (parse_date_None _ Dc). cbn [bind]. intros H; inversion H.
      split; [reflexivity|]. exists c.
      split; [right; left; reflexivity|exact Dc].
    + destruct (parse_date_Some _ Dc) as [q ->]. cbn [bind].
      intros H. apply IH in H. destruct H as (-> & s & Hs & Hn).
      split; [reflexivity|]. exists s. split; [right; exact Hs|exact Hn].
Qed.

(** With two texts or more, one text that is no date makes it raise. *)
Lemma streak_loop_bad (rest : list str) (prev : str) (st : streak_state)
  (s : str) :
  rest <> [] -> In s (prev :: rest) -> day_number s = None ->
  streak_loop prev rest st = Raise ValueError.
Proof.
  revert prev st; induction rest as [|c rest IH]; intros prev st Hne Hs Hn;
    [congruence|].
  cbn [streak_loop].
  destruct (day_number_dec prev) as [Dp|Dp].
  - rewrite (parse_date_None _ Dp). reflexivity.
  - destruct (parse_date_Some _ Dp) as [p ->]. cbn [bind].
    destruct (day_number_dec c) as [Dc|Dc].
    + rewrite (parse_date_None _ Dc). reflexivity.
    + destruct (parse_date_Some _ Dc) as [q ->]. cbn [bind].
      destruct Hs as [->|Hs]; [congruence|].
      apply IH; [|exact Hs|exact Hn].
      destruct Hs as [->|Hs]; [congruence|].
      intros ->; destruct Hs.
Qed.

Lemma streak_of_dates_raises (l : list str) (e : exn) :
  streak_of_dates l = Raise e
  <-> e = ValueError /\ 2 <= length l
      /\ exists s, In s l /\ day_number s = None.
Proof.
  unfold streak_of_dates. destruct l as [|d rest].
  - cbn [bind]. split; [destruct (_ <? _); discriminate|].
    intros (_ & H & _). simpl in H. lia.
  - set (st0 := {| longest_streak_v := 0; current_streak := 1;
                   streak_start := d; best_streak_start := d |}).
    destruct (streak_loop d rest st0) as [st|e'] eqn:E; cbn [bind].
    + split; [destruct (_ <? _); discriminate|].
      intros (_ & Hlen & s & Hs & Hn).
      rewrite (streak_loop_bad rest d st0 s) in E;
        [discriminate| |exact Hs|exact Hn].
      intros ->. simpl in Hlen. lia.
    + destruct (streak_loop_raises _ _ _ _ E) as (-> & s & Hs & Hn).
      split.
      * intros H; inversion H; subst. split; [reflexivity|].
        split; [|exists s; auto].
        destruct rest; [discriminate|simpl; lia].
      * intros (-> & _). reflexivity.
Qed.

Lemma compute_stats_raises (d : package) (e : exn) :
  compute_stats d = Raise e <-> streak_of (messages d) = Raise e.
Proof.
  unfold compute_stats.
  destruct (streak_of (messages d)) as [r|e']; cbn [bind].
  - destruct (first_last_of (messages d)) as [[f l] n].
    split; discriminate.
  - split; intros H; inversion H; reflexivity.
Qed.

Lemma sorted_dates_length (ms : list message) :
  length (sorted str_leb (msg_dates_of ms)) = distinct (date_prefixes ms).
Proof.
  rewrite sorted_length. apply set_of_length.
Qed.

(** When [compute_stats] raises. *)
Lemma compute_stats_raises_iff (d : package) (e : exn) :
  compute_stats d = Raise e
  <-> e = ValueError
      /\ 2 <= distinct (date_prefixes (messages d))
      /\ exists s, In s (date_prefixes (messages d))
                   /\ day_number s = None.
Proof.
  rewrite compute_stats_raises. unfold streak_of.
  rewrite streak_of_dates_raises, sorted_dates_length.
  split; intros (He & Hl & s & Hs & Hn); (split; [exact He|]);
    (split; [exact Hl|]); exists s; (split; [|exact Hn]);
    apply sorted_dates_spec; exact Hs.
Qed.

Lemma compute_stats_returns_iff (d : package) :
  (exists st, compute_stats d = Ok st)
  <-> distinct (date_prefixes (messages d)) <= 1
      \/ Forall (fun s => day_number s <> None)
           (date_prefixes (messages d)).
Proof.
  split.
  - intros [st Hst].
    destruct (le_lt_dec (distinct (date_prefixes (messages d))) 1) as [H|H];
      [left; exact H|right].
    apply Forall_forall. intros s Hs Hn.
    assert (F : compute_stats d = Raise ValueError).
    { apply compute_stats_raises_iff. split; [reflexivity|].
      split; [lia|]. exists s; auto. }
    rewrite Hst in F. discriminate.
  - intros H.
    case_eq (compute_stats d); [intros st E; exists st; reflexivity|].
    intros e E. apply compute_stats_raises_iff in E.
    destruct E as (_ & Hl & s & Hs & Hn).
    destruct H as [H|H]; [lia|].
    rewrite Forall_forall in H. destruct (H s Hs Hn).
Qed.

Lemma longest_from_length (b : list str) (rs : list (list str)) :
  length b <= length (longest_from b rs)
  /\ In (longest_from b rs) (b :: rs).
Proof.
  revert b; induction rs as [|r rs IH]; intros b; simpl.
  - split; [lia|left; reflexivity].
  - destruct (Nat.ltb_spec (length b) (length r)).
    + destruct (IH r) as [H1 H2]. split; [lia|right; exact H2].
    + destruct (IH b) as [H1 H2]. split; [exact H1|].
      destruct H2 as [H2|H2]; [left; exact H2|right; right; exact H2].
Qed.

Lemma In_concat_length (A : Type) (r : list A) (rs : list (list A)) :
  In r rs -> length r <= length (concat rs).
Proof.
  induction rs as [|x rs IH]; simpl; [tauto|].
  rewrite length_app. intros [->|H]; [lia|]. apply IH in H. lia.
Qed.

Lemma longest_runs_length (l : list str) :
  l <> [] ->
  1 <= length (longest (runs l)) <= length l.
Proof.
  intros Hne. destruct l as [|d rest]; [congruence|].
  simpl runs. destruct (runs_from_head d rest) as (r0 & rs & Hr).
  pose proof (runs_concat (d :: rest)) as Hc. simpl runs in Hc.
  rewrite Hr in *. simpl longest.
  destruct (longest_from_length (d :: r0) rs) as [H1 H2].
  split; [simpl in H1; lia|].
  rewrite <- Hc. apply In_concat_length, H2.
Qed.

(** Whenever the scan returns on a non-empty list, it reports the first of
    the longest runs. *)
Lemma streak_of_dates_Ok (l : list str) (r : nat * str) :
  l <> [] -> streak_of_dates l = Ok r ->
  r = run_info (longest (runs l)).
Proof.
  intros Hne H.
  destruct l as [|d [|c rest]]; [congruence| |].
  - unfold streak_of_dates in H. cbn in H. inversion H. reflexivity.
  - assert (Hd : Forall (fun s => day_number s <> None) (d :: c :: rest)).
    { apply Forall_forall. intros s Hs Hn.
      assert (F : streak_of_dates (d :: c :: rest) = Raise ValueError).
      { apply streak_of_dates_raises. split; [reflexivity|].
        split; [simpl; lia|]. exists s; auto. }
      rewrite H in F. discriminate. }
    destruct (streak_of_dates_longest_run _ Hne Hd) as [E _].
    rewrite H in E. inversion E. reflexivity.
Qed.

(** X11.  Whenever [compute_stats] returns on a stream with a non-empty
    timestamp, the streak it reports is the first of the longest runs of
    consecutive days among the distinct date prefixes in ascending order:
    [longest_streak] is the length of that run and [longest_streak_start]
    its first date.  The runs cut the sorted dates where a date is not the
    day after the one before it.  The streak is at least 1 and at most the
    number of active days. *)
Theorem X11_longest_streak (d : package) (st : stats) :
  compute_stats d = Ok st ->
  timestamps_of (messages d) <> [] ->
  (longest_streak st, longest_streak_start st)
  = run_info (longest (runs (sorted str_leb (msg_dates_of (messages d)))))
  /\ first_longest
       (longest (runs (sorted str_leb (msg_dates_of (messages d)))))
       (runs (sorted str_leb (msg_dates_of (messages d))))
  /\ concat (runs (sorted str_leb (msg_dates_of (messages d))))
     = sorted str_leb (msg_dates_of (messages d))
  /\ Forall consecutive (runs (sorted str_leb (msg_dates_of (messages d))))
  /\ separate (runs (sorted str_leb (msg_dates_of (messages d))))
  /\ 1 <= longest_streak st <= active_days st.
Proof.
  intros H Hne. apply compute_stats_Ok in H.
  destruct H as (Hs & Hf & _).
  set (days := sorted str_leb (msg_dates_of (messages d))) in *.
  assert (Hd : days <> []).
  { intros F.
    destruct (timestamps_of (messages d)) as [|t ts] eqn:E; [congruence|].
    assert (Hin : In (slice_to 10 t) days).
    { apply sorted_dates_spec. unfold date_prefixes. rewrite E. left.
      reflexivity. }
    rewrite F in Hin. destruct Hin. }
  assert (Hr : (longest_streak st, longest_streak_start st)
               = run_info (longest (runs days))).
  { apply streak_of_dates_Ok; [exact Hd|exact Hs]. }
  split; [exact Hr|].
  split.
  { destruct days as [|x rest]; [congruence|].
    simpl runs. destruct (runs_from_head x rest) as (r0 & rs0 & ->).
    apply longest_from_first. }
  split; [apply runs_concat|].
  split; [apply runs_consecutive|].
  split; [apply runs_separate|].
  assert (Hl : longest_streak st = length (longest (runs days))).
  { change (longest_streak st)
      with (fst (longest_streak st, longest_streak_start st)).
    rewrite Hr. reflexivity. }
  assert (Ha : active_days st = length days).
  { unfold first_last_of in Hf.
    destruct (timestamps_of (messages d)) as [|t ts]; [congruence|].
    injection Hf as _ _ Hf. rewrite Hf. unfold days.
    rewrite sorted_length. reflexivity. }
  rewrite Hl, Ha. apply longest_runs_length, Hd.
Qed.

Lemma X11_longest_streak_witness :
  exists st, compute_stats (stream four_days) = Ok st
    /\ (longest_streak st, longest_streak_start st) = (3, lit "2024-01-01")
    /\ 1 <= longest_streak st <= active_days st.
Proof.
  eexists. split; [vm_compute; reflexivity|].
  match goal with
  | |- (longest_streak ?s, _) = _ /\ _ =>
      destruct (X11_longest_streak (stream four_days) s
                  ltac:(vm_compute; reflexivity)
                  ltac:(vm_compute; discriminate))
        as (_ & _ & _ & _ & _ & H)
  end.
  split; [reflexivity|exact H].
Defined.

(** * Lengths, words and emoji *)

(** ** [re.findall] *)

Lemma firstn_occurs (n : nat) (s : str) : occurs (firstn n s) s.
Proof.
  exists [], (skipn n s). simpl. symmetry. apply firstn_skipn.
Qed.

Lemma occurs_cons (w s : str) (x : N) : occurs w s -> occurs w (x :: s).
Proof.
  intros (l & r & ->). exists (x :: l), r. reflexivity.
Qed.

(** A match of [findall] is the text a match at some place of [s] takes,
    so a piece of [s]. *)
Lemma findall_from_match (r : re) (s : str) (skip : nat) (w : str) :
  In w (findall_from r s skip) ->
  occurs w s
  /\ exists s' rest c,
       re_match r s' = Some (rest, c)
       /\ w = firstn (length s' - length rest) s'.
Proof.
  revert skip; induction s as [|x s IH]; intros skip; simpl; [tauto|].
  destruct skip as [|n].
  - destruct (re_match r (x :: s)) as [[rest c]|] eqn:E.
    + intros [<-|H].
      * split; [apply (firstn_occurs _ (x :: s))|].
        exists (x :: s), rest, c. split; [exact E|reflexivity].
      * apply IH in H. destruct H as [H1 H2].
        split; [apply occurs_cons, H1|exact H2].
    + intros H. apply IH in H. destruct H as [H1 H2].
      split; [apply occurs_cons, H1|exact H2].
  - intros H. apply IH in H. destruct H as [H1 H2].
    split; [apply occurs_cons, H1|exact H2].
Qed.

(** A match takes at least [min_len r] characters. *)
Lemma run_min_len (A : Type) (r : re) (s : str) (c : caps)
  (k : str -> caps -> option A) (a : A) :
  run r s c k = Some a ->
  exists s' c', k s' c' = Some a /\ length s' + min_len r <= length s.
Proof.
  revert s c k a; induction r as [|p|r1 IH1 r2 IH2|r1 IH1 r2 IH2|r1 IH1|p|p
                                  |g r1 IH1|]; intros s c k a; simpl.
  - intros H. exists s, c. split; [exact H|lia].
  - destruct s as [|x s']; [discriminate|].
    destruct (p x); [|discriminate].
    intros H. exists s', c. split; [exact H|simpl; lia].
  - intros H. apply IH1 in H. destruct H as (s1 & c1 & H & L1).
    apply IH2 in H. destruct H as (s2 & c2 & H & L2).
    exists s2, c2. split; [exact H|lia].
  - destruct (run r1 s c k) as [a'|] eqn:E.
    + intros H; inversion H; subst. apply IH1 in E.
      destruct E as (s1 & c1 & H1 & L1). exists s1, c1. split; [exact H1|lia].
    + intros H. apply IH2 in H.
      destruct H as (s1 & c1 & H1 & L1). exists s1, c1. split; [exact H1|lia].
  - destruct (run r1 s c k) as [a'|] eqn:E.
    + intros H; inversion H; subst. apply IH1 in E.
      destruct E as (s1 & c1 & H1 & L1). exists s1, c1. split; [exact H1|lia].
    + intros H. exists s, c. split; [exact H|lia].
  - intros H. apply plus_greedy_Some in H.
    destruct H as (n & Hn & _ & H). exists (skipn n s), c.
    split; [exact H|]. rewrite length_skipn. lia.
  - intros H. apply plus_lazy_Some in H.
    destruct H as (n & Hn & _ & H & _). exists (skipn n s), c.
    split; [exact H|]. rewrite length_skipn. lia.
  - intros H. apply IH1 in H. destruct H as (s1 & c1 & H & L1).
    eexists s1, _. split; [exact H|exact L1].
  - destruct s as [|x [|y s']].
    + intros H. exists [], c. split; [exact H|simpl; lia].
    + destruct (N.eqb x newline); [|discriminate].
      intros H. exists [x], c. split; [exact H|simpl; lia].
    + discriminate.
Qed.

Lemma findall_min_len (r : re) (s w : str) :
  In w (findall r s) -> min_len r <= length w.
Proof.
  intros H. apply findall_from_match in H.
  destruct H as (_ & s' & rest & c & Hm & ->).
  unfold re_match in Hm. apply run_min_len in Hm.
  destruct Hm as (s1 & c1 & H1 & L). inversion H1; subst.
  rewrite length_firstn. lia.
Qed.

(** The matches of [[class]+] hold characters of the class only. *)
Lemma findall_Plus (p : N -> bool) (s w : str) :
  In w (findall (Plus p) s) -> Forall (fun c => p c = true) w.
Proof.
  intros H. apply findall_from_match in H.
  destruct H as (_ & s' & rest & c & Hm & ->).
  unfold re_match in Hm. simpl in Hm. apply plus_greedy_Some in Hm.
  destruct Hm as (n & Hn & Hp & H1). inversion H1; subst.
  rewrite length_skipn.
  replace (length s' - (length s' - n)) with n by lia. exact Hp.
Qed.

Lemma occurs_Forall (P : N -> Prop) (w s : str) :
  occurs w s -> Forall P s -> Forall P w.
Proof.
  intros (l & r & ->) H. apply Forall_app in H. destruct H as [_ H].
  apply Forall_app in H. tauto.
Qed.

(** ** [text.lower()] and the words *)

Lemma lower_no_capitals (text : str) :
  Forall (fun c => arng "A" "Z" c = false) (lower text).
Proof.
  unfold lower. apply Forall_flat_map, Forall_forall. intros c _.
  unfold lower_cp.
  destruct (arng "A" "Z" c) eqn:E.
  - constructor; [|constructor]. unfold arng, rng in *. simpl in *.
    apply andb_true_iff in E. destruct E as [E1 E2].
    apply N.leb_le in E1, E2. apply andb_false_iff. right.
    apply N.leb_gt. lia.
  - destruct (N.eqb c 304); [repeat constructor|].
    destruct (N.eqb c 8490); [repeat constructor|].
    constructor; [exact E|constructor].
Qed.

(** A word of a text: two or more lower-case letters and apostrophes. *)
Lemma words_of_shape (text w : str) :
  In w (words_of text) -> 1 <= length w /\ Forall (fun c => word_cp c = true) w.
Proof.
  intros H. unfold words_of in H. split.
  - apply findall_min_len in H. exact H.
  - pose proof (findall_Plus _ _ _ H) as Hc.
    apply findall_from_match in H. destruct H as [Ho _].
    pose proof (occurs_Forall _ _ _ Ho (lower_no_capitals text)) as Hu.
    rewrite Forall_forall in *. intros c Hin.
    specialize (Hc c Hin). specialize (Hu c Hin). simpl in Hu.
    unfold word_cp, either in *. rewrite Hu in Hc. simpl in Hc. exact Hc.
Qed.

Lemma counted_words_shape (text w : str) :
  In w (counted_words text) ->
  2 <= length w /\ Forall (fun c => word_cp c = true) w
  /\ mem w stopwords = false.
Proof.
  unfold counted_words. intros H. apply filter_In in H.
  destruct H as [H E]. apply andb_true_iff in E. destruct E as [E1 E2].
  apply Nat.leb_le in E1. apply negb_true_iff in E2.
  split; [exact E1|]. split; [|exact E2].
  apply (words_of_shape text w H).
Qed.

(** ** The two counters *)

Lemma tally_app (K : Type) (eqb : K -> K -> bool) (l1 l2 : list K)
  (c : list (K * nat)) :
  tally eqb (l1 ++ l2) c = tally eqb l2 (tally eqb l1 c).
Proof.
  unfold tally. apply fold_left_app.
Qed.

Lemma word_counter_of_tally (ms : list message) :
  word_counter_of ms = counted (all_counted_words ms).
Proof.
  unfold counted. rewrite <- tally_first_occurrences.
  unfold word_counter_of, all_counted_words. generalize (@nil (str * nat)).
  induction ms as [|m ms IH]; intros c; simpl; [reflexivity|].
  rewrite IH, tally_app.
  destruct (truthy (contents_of m)); reflexivity.
Qed.

Lemma emoji_counter_of_tally (word_char : N -> bool) (ms : list message) :
  emoji_counter_of word_char ms = counted (all_emoji word_char ms).
Proof.
  unfold counted. rewrite <- tally_first_occurrences.
  unfold emoji_counter_of, all_emoji. generalize (@nil (str * nat)).
  induction ms as [|m ms IH]; intros c; simpl; [reflexivity|].
  rewrite IH, tally_app.
  destruct (truthy (contents_of m)); simpl; [|reflexivity].
  rewrite tally_app. reflexivity.
Qed.

Lemma first_occurrences_In (l : list str) (x : str) :
  In x (first_occurrences l) <-> In x l.
Proof.
  rewrite <- set_of_first_occurrences. apply set_of_In.
Qed.

Lemma first_occurrences_NoDup (l : list str) : NoDup (first_occurrences l).
Proof.
  rewrite <- set_of_first_occurrences. apply set_of_NoDup.
Qed.

Lemma counted_fst (l : list str) : map fst (counted l) = first_occurrences l.
Proof.
  unfold counted. rewrite map_map. simpl. apply map_id.
Qed.

Lemma counted_In (l : list str) (w : str) (n : nat) :
  In (w, n) (counted l)
  <-> In w l /\ n = occurrences str_eqb w l.
Proof.
  unfold counted. rewrite in_map_iff. split.
  - intros (k & E & H). inversion E; subst.
    split; [apply (proj1 (first_occurrences_In l w)), H|reflexivity].
  - intros [H ->]. exists w. split; [reflexivity|].
    apply first_occurrences_In, H.
Qed.

(** ** [most_common] *)

Lemma StronglySorted_app (A : Type) (R : A -> A -> Prop) (l1 l2 : list A) :
  StronglySorted R (l1 ++ l2) ->
  forall x y, In x l1 -> In y l2 -> R x y.
Proof.
  induction l1 as [|a l1 IH]; simpl; intros H x y Hx Hy; [destruct Hx|].
  inversion H as [|? ? Hs Hf]; subst.
  destruct Hx as [<-|Hx]; [|apply IH; assumption].
  rewrite Forall_forall in Hf. apply Hf, in_or_app. right. exact Hy.
Qed.

Lemma NoDup_firstn (A : Type) (n : nat) (l : list A) :
  NoDup l -> NoDup (firstn n l).
Proof.
  intros H. rewrite <- (firstn_skipn n l) in H.
  apply NoDup_app_remove_r in H. exact H.
Qed.

(** [most_common n] of a counter: a ranking of its items, with distinct
    keys, and no item left out has a greater count than one that is in. *)
Lemma most_common_spec (n : nat) (c : list (str * nat)) :
  NoDup (map fst c) ->
  ranking snd n c (most_common n c)
  /\ length (most_common n c) <= n
  /\ StronglySorted (fun x y => snd y <= snd x) (most_common n c)
  /\ NoDup (map fst (most_common n c))
  /\ (forall x, In x (most_common n c) -> In x c)
  /\ forall x y, In x (most_common n c) -> In y c ->
       ~ In y (most_common n c) -> snd y <= snd x.
Proof.
  intros Hnd. unfold most_common.
  pose proof (sorted_ranking (str * nat) snd n c) as Hr.
  split; [exact Hr|].
  destruct Hr as (full & Htop & Hperm & Hsorted & _).
  set (top := firstn n (sorted (fun x y => snd y <=? snd x) c)) in *.
  split; [rewrite Htop; apply firstn_le_length|].
  split; [rewrite Htop; apply StronglySorted_firstn, Hsorted|].
  split.
  { rewrite Htop, <- firstn_map. apply NoDup_firstn.
    eapply Permutation_NoDup; [|exact Hnd].
    apply Permutation_map. symmetry. exact Hperm. }
  split.
  { intros x Hx. rewrite Htop in Hx. apply In_firstn_full in Hx.
    eapply Permutation_in; [exact Hperm|exact Hx]. }
  intros x y Hx Hy Hny. rewrite Htop in Hx, Hny.
  assert (Hy' : In y full)
    by (eapply Permutation_in; [symmetry; exact Hperm|exact Hy]).
  rewrite <- (firstn_skipn n full) in Hy', Hsorted.
  apply in_app_or in Hy'. destruct Hy' as [Hy'|Hy']; [contradiction|].
  apply (StronglySorted_app _ _ _ _ Hsorted x y Hx Hy').
Qed.

Lemma counted_NoDup (l : list str) : NoDup (map fst (counted l)).
Proof.
  rewrite counted_fst. apply first_occurrences_NoDup.
Qed.

Lemma all_counted_words_shape (ms : list message) (w : str) :
  In w (all_counted_words ms) ->
  2 <= length w /\ Forall (fun c => word_cp c = true) w
  /\ mem w stopwords = false.
Proof.
  unfold all_counted_words. rewrite in_flat_map.
  intros (m & _ & H). destruct (truthy (contents_of m)); [|destruct H].
  apply (counted_words_shape _ _ H).
Qed.

(** X12.  The top words: the distinct counted words of the stream in the
    order in which they first occur, each with the number of its
    occurrences, sorted by descending count without changing the order of
    words of equal count, cut to the first 30.  So there are at most 30, no
    word comes twice, and no word left out occurs more often than one that
    is in.  Every word in has two characters or more, all of them
    lower-case letters a-z or apostrophes, and is not a stop word; its count
    is at least 1. *)
Theorem X12_top_words (word_char : N -> bool) (d : package) :
  ranking snd 30 (counted (all_counted_words (messages d)))
    (top_words (compute_more word_char d))
  /\ length (top_words (compute_more word_char d)) <= 30
  /\ StronglySorted (fun x y => snd y <= snd x)
       (top_words (compute_more word_char d))
  /\ NoDup (map fst (top_words (compute_more word_char d)))
  /\ (forall w n,
        In (w, n) (top_words (compute_more word_char d)) ->
        2 <= length w
        /\ Forall (fun c => word_cp c = true) w
        /\ mem w stopwords = false
        /\ n = occurrences str_eqb w (all_counted_words (messages d))
        /\ 1 <= n)
  /\ forall w n w',
       In (w, n) (top_words (compute_more word_char d)) ->
       In w' (all_counted_words (messages d)) ->
       ~ In w' (map fst (top_words (compute_more word_char d))) ->
       occurrences str_eqb w' (all_counted_words (messages d)) <= n.
Proof.
  unfold compute_more; cbn [top_words].
  rewrite word_counter_of_tally.
  set (l := all_counted_words (messages d)).
  destruct (most_common_spec 30 (counted l) (counted_NoDup l))
    as (H1 & H2 & H3 & H4 & H5 & H6).
  split; [exact H1|]. split; [exact H2|]. split; [exact H3|].
  split; [exact H4|]. split.
  - intros w n Hin. apply H5, counted_In in Hin. destruct Hin as [Hw Hn].
    destruct (all_counted_words_shape _ _ Hw) as (S1 & S2 & S3).
    split; [exact S1|]. split; [exact S2|]. split; [exact S3|].
    split; [exact Hn|]. rewrite Hn.
    apply (occurrences_pos str str_eqb str_eqb_eq), Hw.
  - intros w n w' Hin Hw' Hout.
    apply (H6 (w, n) (w', occurrences str_eqb w' l) Hin).
    + apply counted_In. auto.
    + intros F. apply Hout. apply (in_map fst) in F. exact F.
Qed.

Lemma all_emoji_shape (word_char : N -> bool) (ms : list message)
  (w : str) :
  In w (all_emoji word_char ms) ->
  1 <= length w
  /\ exists m, In m ms /\ occurs w (contents_of m).
Proof.
  unfold all_emoji. rewrite in_flat_map.
  intros (m & Hm & H). destruct (truthy (contents_of m)); [|destruct H].
  apply in_app_or in H. destruct H as [H|H].
  - split; [apply findall_min_len in H; exact H|].
    exists m. split; [exact Hm|]. apply findall_from_match in H. tauto.
  - split; [apply findall_min_len in H; simpl in H; lia|].
    exists m. split; [exact Hm|]. apply findall_from_match in H. tauto.
Qed.

(** X13.  The top emoji: the distinct matches of the two emoji patterns over
    the stream (for each message with text the matches of the Unicode
    pattern, then those of the Discord pattern) in the order in which they
    first occur, each with the number of its occurrences, sorted by
    descending count without changing the order of those of equal count,
    cut to the first 20.  So there are at most 20, none comes twice, and
    none left out occurs more often than one that is in.  Every one is a
    non-empty piece of the text of a message, and its count is at least
    1. *)
Theorem X13_top_emoji (word_char : N -> bool) (d : package) :
  ranking snd 20 (counted (all_emoji word_char (messages d)))
    (top_emoji (compute_more word_char d))
  /\ length (top_emoji (compute_more word_char d)) <= 20
  /\ StronglySorted (fun x y => snd y <= snd x)
       (top_emoji (compute_more word_char d))
  /\ NoDup (map fst (top_emoji (compute_more word_char d)))
  /\ (forall w n,
        In (w, n) (top_emoji (compute_more word_char d)) ->
        w <> []
        /\ (exists m, In m (messages d) /\ occurs w (contents_of m))
        /\ n = occurrences str_eqb w (all_emoji word_char (messages d))
        /\ 1 <= n)
  /\ forall w n w',
       In (w, n) (top_emoji (compute_more word_char d)) ->
       In w' (all_emoji word_char (messages d)) ->
       ~ In w' (map fst (top_emoji (compute_more word_char d))) ->
       occurrences str_eqb w' (all_emoji word_char (messages d)) <= n.
Proof.
  unfold compute_more; cbn [top_emoji].
  rewrite emoji_counter_of_tally.
  set (l := all_emoji word_char (messages d)).
  destruct (most_common_spec 20 (counted l) (counted_NoDup l))
    as (H1 & H2 & H3 & H4 & H5 & H6).
  split; [exact H1|]. split; [exact H2|]. split; [exact H3|].
  split; [exact H4|]. split.
  - intros w n Hin. apply H5, counted_In in Hin. destruct Hin as [Hw Hn].
    destruct (all_emoji_shape _ _ _ Hw) as (S1 & S2).
    split; [intros ->; simpl in S1; lia|]. split; [exact S2|].
    split; [exact Hn|]. rewrite Hn.
    apply (occurrences_pos str str_eqb str_eqb_eq), Hw.
  - intros w n w' Hin Hw' Hout.
    apply (H6 (w, n) (w', occurrences str_eqb w' l) Hin).
    + apply counted_In. auto.
    + intros F. apply Hout. apply (in_map fst) in F. exact F.
Qed.

(** * Lengths, words and attachments *)

Lemma split_from_length (s word : str) :
  length (split_from s word)
  = word_starts (negb (truthy word)) s + (if truthy word then 1 else 0).
Proof.
  revert word; induction s as [|c s IH]; intros word.
  - simpl. destruct (truthy word); reflexivity.
  - cbn [split_from word_starts].
    destruct (is_space c) eqn:E.
    + destruct (truthy word); cbn [negb andb length]; rewrite IH; simpl; lia.
    + rewrite IH.
      assert (T : truthy (word ++ [c]) = true) by (destruct word; reflexivity).
      rewrite T. destruct (truthy word); cbn [negb andb]; lia.
Qed.

Lemma split_ws_length (s : str) : length (split_ws s) = word_starts true s.
Proof.
  unfold split_ws. rewrite split_from_length. simpl. lia.
Qed.

Lemma word_starts_le (s : str) (b : bool) : word_starts b s <= length s.
Proof.
  revert b; induction s as [|c s IH]; intros b; simpl; [lia|].
  specialize (IH (is_space c)).
  destruct (b && negb (is_space c)); lia.
Qed.

Lemma max_of_spec (x : nat) (l : list nat) :
  In (max_of (x :: l)) (x :: l)
  /\ forall y, In y (x :: l) -> y <= max_of (x :: l).
Proof.
  unfold max_of. revert x; induction l as [|z l IH]; intros x; simpl.
  - split; [left; reflexivity|]. intros y [<-|[]]; lia.
  - destruct (Nat.ltb_spec x z).
    + destruct (IH z) as [H1 H2]. split; [right; exact H1|].
      intros y [<-|Hy]; [|apply H2, Hy].
      specialize (H2 z (or_introl eq_refl)). lia.
    + destruct (IH x) as [H1 H2]. split.
      * destruct H1 as [H1|H1]; [left; exact H1|right; right; exact H1].
      * intros y [<-|[<-|Hy]]; [apply H2; left; reflexivity| |].
        -- specialize (H2 x (or_introl eq_refl)). lia.
        -- apply H2. right. exact Hy.
Qed.

Lemma In_le_total (x : nat) (l : list nat) : In x l -> x <= total l.
Proof.
  unfold total. induction l as [|y l IH]; simpl; [tauto|].
  intros [->|H]; [lia|]. apply IH in H. lia.
Qed.

Lemma total_map_le (A : Type) (f g : A -> nat) (l : list A) :
  (forall x, f x <= g x) -> total (map f l) <= total (map g l).
Proof.
  intros H. unfold total. induction l as [|x l IH]; simpl; [lia|].
  specialize (H x). lia.
Qed.

(** X14.  The figures on the texts of the messages with text: the longest
    length is the length of one of the texts and no text is longer; the
    total of characters is the sum of the lengths; the total of words counts
    in each text the places where a word starts, a character that is not
    white space standing first or after white space.  So neither the longest
    length nor the number of words exceeds the number of characters, and all
    three are 0 when no message has text.  The attachments counted are the
    messages with a non-empty [Attachments]. *)
Theorem X14_text_figures (word_char : N -> bool) (d : package) :
  total_characters (compute_more word_char d)
  = total (map (@length N) (texts_of (messages d)))
  /\ total_words (compute_more word_char d)
     = total (map (word_starts true) (texts_of (messages d)))
  /\ (forall t, In t (texts_of (messages d)) ->
        length t <= max_msg_length (compute_more word_char d))
  /\ (texts_of (messages d) <> [] ->
        exists t, In t (texts_of (messages d))
                  /\ length t = max_msg_length (compute_more word_char d))
  /\ (texts_of (messages d) = [] ->
        max_msg_length (compute_more word_char d) = 0
        /\ total_characters (compute_more word_char d) = 0
        /\ total_words (compute_more word_char d) = 0)
  /\ max_msg_length (compute_more word_char d)
     <= total_characters (compute_more word_char d)
  /\ total_words (compute_more word_char d)
     <= total_characters (compute_more word_char d)
  /\ attachment_count (compute_more word_char d)
     = length (filter (fun m => truthy (attachments_of m)) (messages d))
  /\ attachment_count (compute_more word_char d) <= length (messages d).
Proof.
  unfold compute_more; cbv zeta;
    cbn [total_characters total_words max_msg_length attachment_count].
  unfold lengths_of.
  set (ts := texts_of (messages d)).
  assert (Hmax : match map (@length N) ts with
                 | [] => 0
                 | _ :: _ => max_of (map (@length N) ts)
                 end = max_of (map (@length N) ts))
    by (destruct ts; reflexivity).
  assert (Hsum : match map (@length N) ts with
                 | [] => 0
                 | _ :: _ => list_sum (map (@length N) ts)
                 end = total (map (@length N) ts))
    by (destruct ts; reflexivity).
  assert (Hw : match map (@length N) ts with
               | [] => 0
               | _ :: _ => list_sum (map (fun t => length (split_ws t)) ts)
               end
               = total (map (word_starts true) ts)).
  { destruct ts as [|t ts']; [reflexivity|].
    cbn [map]. unfold total. f_equal.
    change (length (split_ws t) :: map (fun t0 => length (split_ws t0)) ts')
      with (map (fun t0 => length (split_ws t0)) (t :: ts')).
    change (word_starts true t :: map (word_starts true) ts')
      with (map (word_starts true) (t :: ts')).
    apply map_ext. intros a. apply split_ws_length. }
  rewrite Hmax, Hsum, Hw. clear Hmax Hsum Hw.
  split; [reflexivity|]. split; [reflexivity|].
  assert (Hmax : ts <> [] ->
            In (max_of (map (@length N) ts)) (map (@length N) ts)
            /\ forall y, In y (map (@length N) ts) ->
                 y <= max_of (map (@length N) ts)).
  { destruct ts as [|t ts']; [congruence|]. intros _.
    cbn [map]. apply max_of_spec. }
  split.
  { intros t Ht. apply Hmax; [intros E; rewrite E in Ht; destruct Ht|].
    apply in_map, Ht. }
  split.
  { intros Hne. destruct (Hmax Hne) as [Hin _].
    apply in_map_iff in Hin. destruct Hin as (t & E & Ht).
    exists t. auto. }
  split.
  { intros E. rewrite E. auto. }
  split.
  { destruct ts as [|t ts'] eqn:E; [simpl; unfold total; simpl; lia|].
    apply In_le_total, Hmax. discriminate. }
  split.
  { apply total_map_le. intros t. apply word_starts_le. }
  split.
  { rewrite (filter_map_swap message str attachments_of truthy).
    apply length_map. }
  rewrite (filter_map_swap message str attachments_of truthy), length_map.
  apply filter_length_le.
Qed.

(** * The page: escaping, numbers and tables *)

(** ** [html.escape] *)

Lemma replace_single (a : N) (new s : str) :
  replace [a] new s = flat_map (fun c => if N.eqb a c then new else [c]) s.
Proof.
  unfold replace. induction s as [|c s IH]; [reflexivity|].
  cbn [replace_from startswith flat_map length Nat.sub].
  rewrite andb_true_r. destruct (N.eqb a c).
  - rewrite IH. reflexivity.
  - rewrite IH. reflexivity.
Qed.

Lemma flat_map_flat_map (A B C : Type) (f : A -> list B) (g : B -> list C)
  (l : list A) :
  flat_map g (flat_map f l) = flat_map (fun x => flat_map g (f x)) l.
Proof.
  induction l as [|x l IH]; simpl; [reflexivity|].
  rewrite flat_map_app, IH. reflexivity.
Qed.

Lemma escape_flat_map (s : str) : escape s = flat_map escape_cp s.
Proof.
  unfold escape.
  change (lit ">") with [62%N]. change (lit "<") with [60%N].
  change (lit "&") with [38%N].
  rewrite !replace_single, !flat_map_flat_map.
  apply flat_map_ext. intros c. unfold escape_cp.
  destruct (N.eqb_spec 38 c) as [<-|H1]; [reflexivity|].
  cbn [flat_map]. rewrite !app_nil_r.
  destruct (N.eqb_spec 60 c) as [<-|H2]; [reflexivity|].
  cbn [flat_map]. rewrite !app_nil_r.
  destruct (N.eqb_spec 62 c) as [<-|H3]; [reflexivity|].
  cbn [flat_map]. rewrite !app_nil_r.
  destruct (N.eqb_spec 34 c) as [<-|H4]; [reflexivity|].
  cbn [flat_map]. rewrite !app_nil_r.
  destruct (N.eqb_spec 39 c) as [<-|H5]; reflexivity.
Qed.

Lemma escape_cp_markup (c : N) :
  Forall (fun x => markup x = false) (escape_cp c).
Proof.
  unfold escape_cp.
  destruct (N.eqb_spec 38 c) as [<-|H1]; [repeat constructor|].
  destruct (N.eqb_spec 60 c) as [<-|H2]; [repeat constructor|].
  destruct (N.eqb_spec 62 c) as [<-|H3]; [repeat constructor|].
  destruct (N.eqb_spec 34 c) as [<-|H4]; [repeat constructor|].
  destruct (N.eqb_spec 39 c) as [<-|H5]; [repeat constructor|].
  constructor; [|constructor]. unfold markup.
  rewrite !orb_false_iff, !N.eqb_neq. repeat split; congruence.
Qed.

Lemma escape_markup (s : str) : Forall (fun x => markup x = false) (escape s).
Proof.
  rewrite escape_flat_map. apply Forall_flat_map, Forall_forall.
  intros c _. apply escape_cp_markup.
Qed.

(** ** Counting characters *)

Lemma count_chr_app (c : N) (s t : str) :
  count_chr c (s ++ t) = count_chr c s + count_chr c t.
Proof.
  unfold count_chr, occurrences. rewrite filter_app, length_app. reflexivity.
Qed.

Lemma count_chr_none (c : N) (s : str) :
  Forall (fun x => x <> c) s -> count_chr c s = 0.
Proof.
  unfold count_chr, occurrences.
  induction 1 as [|x s Hx Hs IH]; [reflexivity|]. simpl.
  destruct (N.eqb_spec c x); [congruence|exact IH].
Qed.

Lemma count_chr_flat_map (A : Type) (c : N) (f : A -> str) (l : list A) :
  count_chr c (flat_map f l) = total (map (fun x => count_chr c (f x)) l).
Proof.
  unfold total. induction l as [|x l IH]; [reflexivity|]. simpl.
  rewrite count_chr_app, IH. reflexivity.
Qed.

Lemma count_chr_rev (c : N) (s : str) : count_chr c (rev s) = count_chr c s.
Proof.
  unfold count_chr, occurrences. rewrite filter_rev. apply length_rev.
Qed.

Lemma total_const (A : Type) (n : nat) (f : A -> nat) (l : list A) :
  (forall x, f x = n) -> total (map f l) = n * length l.
Proof.
  intros H. unfold total. induction l as [|x l IH]; simpl; [lia|].
  rewrite H, IH. lia.
Qed.

Lemma count_chr_escape (c : N) (s : str) :
  markup c = true -> count_chr c (escape s) = 0.
Proof.
  intros Hc. apply count_chr_none.
  eapply Forall_impl; [|apply escape_markup].
  intros x Hx ->. congruence.
Qed.

(** ** Numbers *)

Lemma uint_digits_ascii (u : Decimal.uint) :
  Forall (fun c => ascii_digit c = true) (uint_digits u).
Proof.
  induction u; simpl; constructor; auto.
Qed.

Lemma str_of_nat_ascii (n : nat) :
  Forall (fun c => ascii_digit c = true) (str_of_nat n).
Proof.
  apply uint_digits_ascii.
Qed.

Lemma ascii_digit_range (c : N) :
  ascii_digit c = true <-> (48 <= c <= 57)%N.
Proof.
  unfold ascii_digit, arng, rng. simpl.
  rewrite andb_true_iff, !N.leb_le. tauto.
Qed.

Lemma commas_from_filter (ds : str) (k : nat) :
  filter (fun c => negb (N.eqb c comma)) (commas_from ds k)
  = filter (fun c => negb (N.eqb c comma)) ds.
Proof.
  revert k; induction ds as [|d ds IH]; intros k; [reflexivity|].
  cbn [commas_from].
  destruct k as [|[|[|[|k]]]]; cbn [filter];
    destruct (negb (N.eqb d comma)); rewrite IH; reflexivity.
Qed.

Lemma filter_all (A : Type) (f : A -> bool) (l : list A) :
  Forall (fun x => f x = true) l -> filter f l = l.
Proof.
  induction 1 as [|x l Hx Hl IH]; [reflexivity|].
  simpl. rewrite Hx, IH. reflexivity.
Qed.

Lemma digits_no_comma (s : str) :
  Forall (fun c => ascii_digit c = true) s ->
  Forall (fun c => negb (N.eqb c comma) = true) s.
Proof.
  apply Forall_impl. intros c H. apply ascii_digit_range in H.
  apply negb_true_iff, N.eqb_neq. unfold comma. lia.
Qed.

Lemma commas_from_chars (ds : str) (k : nat) :
  Forall (fun c => ascii_digit c = true) ds ->
  Forall (fun c => ascii_digit c = true \/ c = comma) (commas_from ds k).
Proof.
  intros H. revert k. induction H as [|d ds Hd Hds IH]; intros k;
    [constructor|].
  cbn [commas_from].
  destruct k as [|[|[|[|k]]]];
    try (constructor; [left; exact Hd|apply IH]).
  constructor; [right; reflexivity|].
  constructor; [left; exact Hd|apply IH].
Qed.

Lemma with_commas_chars (n : nat) :
  Forall (fun c => ascii_digit c = true \/ c = comma) (with_commas n).
Proof.
  unfold with_commas. apply Forall_rev, commas_from_chars, Forall_rev.
  apply str_of_nat_ascii.
Qed.

Lemma count_chr_digits (c : N) (s : str) :
  markup c = true ->
  Forall (fun x => ascii_digit x = true \/ x = comma) s ->
  count_chr c s = 0.
Proof.
  intros Hc H. apply count_chr_none.
  eapply Forall_impl; [|exact H].
  intros x [Hx|Hx] E; subst x.
  - apply ascii_digit_range in Hx. unfold markup in Hc.
    rewrite !orb_true_iff, !N.eqb_eq in Hc. lia.
  - subst c. vm_compute in Hc. discriminate.
Qed.

Lemma count_chr_str_of_nat (c : N) (n : nat) :
  markup c = true -> count_chr c (str_of_nat n) = 0.
Proof.
  intros Hc. apply count_chr_digits; [exact Hc|].
  eapply Forall_impl; [|apply str_of_nat_ascii]. auto.
Qed.

Lemma count_chr_with_commas (c : N) (n : nat) :
  markup c = true -> count_chr c (with_commas n) = 0.
Proof.
  intros Hc. apply count_chr_digits; [exact Hc|apply with_commas_chars].
Qed.

Lemma digits_value_uint (u : Decimal.uint) (acc : nat) :
  digits_value (uint_digits u) (N.of_nat acc)
  = Some (N.of_nat (Nat.of_uint_acc u acc)).
Proof.
  revert acc; induction u as [|u IH|u IH|u IH|u IH|u IH|u IH|u IH|u IH|u IH
                              |u IH]; intros acc;
    [reflexivity|..];
    cbn [uint_digits digits_value Nat.of_uint_acc];
    match goal with
    | |- context [decimal ?c] =>
        let v := eval vm_compute in (decimal c) in
        change (decimal c) with v
    end;
    cbv iota beta; rewrite <- IH; f_equal;
    rewrite Nat.tail_mul_spec; lia.
Qed.

Lemma str_of_nat_value (n : nat) :
  digits_value (str_of_nat n) 0 = Some (N.of_nat n).
Proof.
  unfold str_of_nat. change 0%N with (N.of_nat 0).
  rewrite (digits_value_uint (Nat.to_uint n) 0).
  change (Nat.of_uint_acc (Nat.to_uint n) 0) with (Nat.of_uint (Nat.to_uint n)).
  rewrite DecimalNat.Unsigned.of_to. reflexivity.
Qed.

Lemma str_of_nat_nonempty (n : nat) : str_of_nat n <> [].
Proof.
  intros E. unfold str_of_nat in E.
  assert (Hn : Nat.to_uint n = Decimal.Nil)
    by (destruct (Nat.to_uint n); try discriminate; reflexivity).
  pose proof (DecimalNat.Unsigned.of_to n) as H. rewrite Hn in H.
  simpl in H. subst n. discriminate.
Qed.

Lemma lstrip_digits (s : str) :
  Forall (fun c => ascii_digit c = true) s -> lstrip s = s.
Proof.
  destruct 1 as [|c s Hc Hs]; [reflexivity|]. simpl.
  apply ascii_digit_range in Hc.
  assert (E : is_space c = false).
  { unfold is_space.
    repeat match goal with
           | |- context [N.leb ?a c] => destruct (N.leb_spec a c); try lia
           | |- context [N.leb c ?a] => destruct (N.leb_spec c a); try lia
           | |- context [N.eqb c ?a] => destruct (N.eqb_spec c a); try lia
           end; reflexivity. }
  rewrite E. reflexivity.
Qed.

Lemma commas_from_count (ds : str) (k : nat) :
  Forall (fun c => ascii_digit c = true) ds ->
  1 <= k <= 3 ->
  count_chr comma (commas_from ds k) = (length ds + k - 1) / 3.
Proof.
  intros H. revert k. induction H as [|d ds Hd Hds IH]; intros k Hk.
  - simpl. destruct k as [|[|[|[|k]]]]; try lia; reflexivity.
  - assert (Hc : N.eqb comma d = false).
    { apply N.eqb_neq. apply ascii_digit_range in Hd. unfold comma. lia. }
    cbn [commas_from].
    destruct k as [|[|[|[|k]]]]; try lia.
    + unfold count_chr, occurrences in *. cbn [filter]. rewrite Hc.
      rewrite (IH 2) by lia. f_equal. simpl. lia.
    + unfold count_chr, occurrences in *. cbn [filter]. rewrite Hc.
      rewrite (IH 3) by lia. f_equal. simpl. lia.
    + unfold count_chr, occurrences in *. cbn [filter].
      rewrite N.eqb_refl, Hc. cbn [length]. rewrite (IH 1) by lia.
      replace (S (length ds) + 3 - 1) with (length ds + 1 * 3) by lia.
      rewrite Nat.div_add by lia.
      replace (length ds + 1 - 1) with (length ds) by lia. lia.
Qed.

(** ** Chips and tables *)

Ltac literal_counts :=
  repeat match goal with
         | |- context [count_chr ?c (lit ?s)] =>
             let v := eval vm_compute in (count_chr c (lit s)) in
             change (count_chr c (lit s)) with v
         | |- context [count_chr ?c dq] =>
             let v := eval vm_compute in (count_chr c dq) in
             change (count_chr c dq) with v
         end.

Ltac content_counts :=
  rewrite ?count_chr_app, ?count_chr_escape, ?count_chr_str_of_nat,
    ?count_chr_with_commas by reflexivity.

Lemma rank_row_tags (c : N) (row : nat * rank) :
  c = 60%N \/ c = 62%N -> count_chr c (rank_row row) = 8.
Proof.
  intros [->| ->]; unfold rank_row; content_counts; literal_counts;
    reflexivity.
Qed.

Lemma channel_row_tags (c : N) (row : nat * channel_rank) :
  c = 60%N \/ c = 62%N -> count_chr c (channel_row row) = 10.
Proof.
  intros [->| ->]; unfold channel_row; content_counts; literal_counts;
    reflexivity.
Qed.

Lemma enumerate1_length (A : Type) (l : list A) :
  length (enumerate1 l) = length l.
Proof.
  unfold enumerate1. rewrite length_combine, length_seq. lia.
Qed.

Lemma rank_table_tags (c : N) (cap : nat) (l : list rank) :
  c = 60%N \/ c = 62%N ->
  count_chr c (rank_table cap l) = 8 * Nat.min cap (length l).
Proof.
  intros Hc. unfold rank_table.
  rewrite count_chr_flat_map, (total_const _ 8)
    by (intros row; apply rank_row_tags, Hc).
  rewrite enumerate1_length, length_firstn. reflexivity.
Qed.

Lemma channel_table_tags (c : N) (cap : nat) (l : list channel_rank) :
  c = 60%N \/ c = 62%N ->
  count_chr c (channel_table cap l) = 10 * Nat.min cap (length l).
Proof.
  intros Hc. unfold channel_table.
  rewrite count_chr_flat_map, (total_const _ 10)
    by (intros row; apply channel_row_tags, Hc).
  rewrite enumerate1_length, length_firstn. reflexivity.
Qed.

Lemma chips_tags (c : N) (class : string) (items : list (str * nat)) :
  count_chr 60 (lit class) = 0 -> count_chr 62 (lit class) = 0 ->
  c = 60%N \/ c = 62%N ->
  count_chr c (chips (lit class) items) = 4 * length items.
Proof.
  intros H1 H2 Hc. unfold chips.
  rewrite count_chr_flat_map. apply total_const. intros item.
  destruct Hc as [->| ->]; content_counts; rewrite ?H1, ?H2;
    literal_counts; reflexivity.
Qed.

Lemma build_html_page (st : stats) (more : more_stats) (u : user_profile)
  (p : page) :
  build_html st more u = inr p ->
  p_username p = escape (username_of u)
  /\ p_first_day p = escape (slice_to 10 (first_message st))
  /\ p_last_day p = escape (slice_to 10 (last_message st))
  /\ p_busiest_day p = escape (busiest_day st)
  /\ p_streak_start p = escape (longest_streak_start st)
  /\ p_top_words_html p = chips (lit "word-chip") (top_words more)
  /\ p_top_emoji_html p
     = str_or (chips (lit "emoji-chip") (top_emoji more)) no_emoji
  /\ p_dm_table p = rank_table 25 (top_dms st)
  /\ p_gdm_table p = rank_table 15 (top_group_dms st)
  /\ p_ch_table p = channel_table 20 (top_channels st)
  /\ p_srv_table p = rank_table 20 (top_servers st).
Proof.
  unfold build_html.
  destruct (max_by_count (hourly st)) as [e|ph]; [discriminate|].
  destruct (max_by_count (daily_dow st)) as [e|pd]; [discriminate|].
  destruct (_ =? 0); [discriminate|].
  intros H; inversion H; subst; clear H. cbn.
  repeat split; reflexivity.
Qed.

(** X15.  The texts of the archive that the page shows in its title,
    heading and facts are escaped: the user name, the first and the last
    day, the busiest day and the start of the streak hold no [<], [>] or
    quote.  The names in the tables and the chips add no markup either:
    whatever they are, a table of direct messages, group conversations or
    servers has 8 [<] and 8 [>] for each of its rows, the table of channels
    10, and a chip 4, the rows being the first 25, 15, 20 and 20 entries of
    the rankings.  Where there is no emoji the page shows one fixed element
    in place of the chips.  (The labels of the charts, written as JSON, are
    not among these values.) *)
Theorem X15_page_markup (st : stats) (more : more_stats) (u : user_profile)
  (p : page) :
  build_html st more u = inr p ->
  Forall (fun c => markup c = false) (p_username p)
  /\ Forall (fun c => markup c = false) (p_first_day p)
  /\ Forall (fun c => markup c = false) (p_last_day p)
  /\ Forall (fun c => markup c = false) (p_busiest_day p)
  /\ Forall (fun c => markup c = false) (p_streak_start p)
  /\ forall c, c = 60%N \/ c = 62%N ->
       count_chr c (p_dm_table p) = 8 * Nat.min 25 (length (top_dms st))
       /\ count_chr c (p_gdm_table p)
          = 8 * Nat.min 15 (length (top_group_dms st))
       /\ count_chr c (p_srv_table p)
          = 8 * Nat.min 20 (length (top_servers st))
       /\ count_chr c (p_ch_table p)
          = 10 * Nat.min 20 (length (top_channels st))
       /\ count_chr c (p_top_words_html p) = 4 * length (top_words more)
       /\ count_chr c (p_top_emoji_html p)
          = match top_emoji more with
            | [] => 2
            | _ :: _ => 4 * length (top_emoji more)
            end.
Proof.
  intros H. apply build_html_page in H.
  destruct H as (-> & -> & -> & -> & -> & -> & -> & -> & -> & -> & ->).
  repeat (split; [apply escape_markup|]).
  intros c Hc.
  split; [apply rank_table_tags, Hc|].
  split; [apply rank_table_tags, Hc|].
  split; [apply rank_table_tags, Hc|].
  split; [apply channel_table_tags, Hc|].
  split; [apply chips_tags; try reflexivity; exact Hc|].
  destruct (top_emoji more) as [|item items] eqn:E.
  - destruct Hc as [->| ->]; reflexivity.
  - assert (T : truthy (chips (lit "emoji-chip") (item :: items)) = true)
      by reflexivity.
    unfold str_or. rewrite T. apply chips_tags; try reflexivity; exact Hc.
Qed.

Lemma X15_page_markup_witness :
  exists st p,
    compute_stats namesake_package = Ok st
    /\ build_html st (compute_more (fun _ => false) namesake_package)
         empty_user = inr p
    /\ count_chr 60 (p_dm_table p) = 8 * Nat.min 25 (length (top_dms st)).
Proof.
  eexists. eexists. split; [vm_compute; reflexivity|].
  split; [vm_compute; reflexivity|].
  match goal with
  | |- count_chr _ (p_dm_table ?p) = 8 * Nat.min 25 (length (top_dms ?st)) =>
      destruct (X15_page_markup st
                  (compute_more (fun _ => false) namesake_package)
                  empty_user p ltac:(vm_compute; reflexivity))
        as (_ & _ & _ & _ & _ & H)
  end.
  apply H. left. reflexivity.
Defined.

(** X16.  A count written with thousands separators holds digits and commas
    only; without the commas it is the decimal text of the count, which
    reads back as the count; and there is one comma for every three digits
    after the first. *)
Theorem X16_with_commas (n : nat) :
  Forall (fun c => ascii_digit c = true \/ c = comma) (with_commas n)
  /\ filter (fun c => negb (N.eqb c comma)) (with_commas n) = str_of_nat n
  /\ py_int (str_of_nat n) = Some (Z.of_nat n)
  /\ count_chr comma (with_commas n) = (length (str_of_nat n) - 1) / 3.
Proof.
  split; [apply with_commas_chars|]. split; [|split].
  - unfold with_commas. rewrite filter_rev, commas_from_filter, <- filter_rev,
      rev_involutive.
    apply filter_all, digits_no_comma, str_of_nat_ascii.
  - unfold py_int. rewrite lstrip_digits by apply str_of_nat_ascii.
    pose proof (str_of_nat_nonempty n) as Hne.
    destruct (str_of_nat n) as [|c s] eqn:E; [congruence|].
    rewrite <- E, str_of_nat_value. simpl. f_equal. lia.
  - unfold with_commas. rewrite count_chr_rev.
    pose proof (str_of_nat_nonempty n) as Hne.
    pose proof (str_of_nat_ascii n) as Hd.
    rewrite <- (length_rev (str_of_nat n)).
    apply Forall_rev in Hd.
    destruct (rev (str_of_nat n)) as [|d ds] eqn:E.
    + exfalso. apply Hne. rewrite <- (rev_involutive (str_of_nat n)), E.
      reflexivity.
    + inversion Hd as [|? ? Hd1 Hd2]; subst.
      cbn [commas_from]. unfold count_chr, occurrences. cbn [filter].
      assert (Hc : N.eqb comma d = false).
      { apply N.eqb_neq. apply ascii_digit_range in Hd1. unfold comma. lia. }
      rewrite Hc. fold (occurrences N.eqb comma (commas_from ds 1)).
      fold (count_chr comma (commas_from ds 1)).
      rewrite commas_from_count by (auto; lia).
      f_equal. simpl. lia.
Qed.

(** * [build_html] and the whole run *)

Lemma first_max_In (K : Type) (kv : K * nat) (c : list (K * nat)) :
  In (first_max kv c) (kv :: c).
Proof.
  destruct (first_max_first K kv c) as (before & after & Hs & _).
  rewrite Hs. apply in_or_app. right. left. reflexivity.
Qed.

Lemma range_In (n : nat) (h : Z) :
  In h (range n) <-> (0 <= h < Z.of_nat n)%Z.
Proof.
  unfold range. rewrite in_map_iff. split.
  - intros (k & <- & Hk). apply in_seq in Hk. lia.
  - intros H. exists (Z.to_nat h). split; [lia|]. apply in_seq. lia.
Qed.

Lemma seq_sorted (a n : nat) :
  StronglySorted (fun x y => (x < y)%Z) (map Z.of_nat (seq a n)).
Proof.
  revert a; induction n as [|n IH]; intros a; simpl; constructor.
  - apply IH.
  - apply Forall_forall. intros y Hy. apply in_map_iff in Hy.
    destruct Hy as (k & <- & Hk). apply in_seq in Hk. lia.
Qed.

Lemma sorted_split (l1 l2 : list Z) (h : Z) :
  StronglySorted (fun x y => (x < y)%Z) (l1 ++ h :: l2) ->
  (forall x, In x l1 -> (x < h)%Z) /\ (forall x, In x l2 -> (h < x)%Z).
Proof.
  intros H. split.
  - intros x Hx.
    apply (StronglySorted_app _ _ _ _ H x h Hx). left. reflexivity.
  - induction l1 as [|a l1 IH]; simpl in H.
    + inversion H as [|? ? _ Hf]; subst. rewrite Forall_forall in Hf.
      exact Hf.
    + inversion H; subst. apply IH. assumption.
Qed.

(** The first item of greatest count of a list made over [range n]. *)
Lemma peak_of_range (K : Type) (n : nat) (name : Z -> K) (cnt : Z -> nat)
  (kv : K * nat) (l : list (K * nat)) :
  map (fun h => (name h, cnt h)) (range n) = kv :: l ->
  exists h,
    (0 <= h < Z.of_nat n)%Z
    /\ first_max kv l = (name h, cnt h)
    /\ (forall h', (0 <= h' < Z.of_nat n)%Z -> cnt h' <= cnt h)
    /\ (forall h', (0 <= h' < h)%Z -> cnt h' < cnt h).
Proof.
  intros Hm.
  destruct (first_max_first K kv l) as (before & after & Hs & Hb & Ha).
  rewrite <- Hm in Hs. apply map_eq_app in Hs.
  destruct Hs as (l1 & l2' & Hr & Hb' & Hrest).
  apply map_eq_cons in Hrest.
  destruct Hrest as (h & l2 & -> & Hh & Ha').
  pose proof (seq_sorted 0 n) as Hsort. fold (range n) in Hsort.
  rewrite Hr in Hsort. destruct (sorted_split _ _ _ Hsort) as [Hlt Hgt].
  assert (Hin : forall x, In x (range n) <-> In x l1 \/ x = h \/ In x l2).
  { intros x. rewrite Hr, in_app_iff. simpl. intuition. }
  exists h. rewrite <- Hh.
  split; [apply range_In, Hin; auto|].
  split; [reflexivity|].
  assert (Hl1 : forall x, In x l1 -> cnt x < cnt h).
  { intros x Hx.
    assert (In (name x, cnt x) before)
      by (rewrite <- Hb'; apply (in_map (fun h => (name h, cnt h))), Hx).
    apply Hb in H. rewrite <- Hh in H. exact H. }
  assert (Hl2 : forall x, In x l2 -> cnt x <= cnt h).
  { intros x Hx.
    assert (In (name x, cnt x) after)
      by (rewrite <- Ha'; apply (in_map (fun h => (name h, cnt h))), Hx).
    apply Ha in H. rewrite <- Hh in H. exact H. }
  split.
  - intros h' Hh'. apply range_In, Hin in Hh'.
    destruct Hh' as [Hx|[->|Hx]]; [apply Hl1 in Hx; lia|lia|apply Hl2, Hx].
  - intros h' Hh'.
    assert (Hr' : In h' (range n)).
    { apply range_In. assert (In h (range n)) by (apply Hin; auto).
      apply range_In in H. lia. }
    apply Hin in Hr'. destruct Hr' as [Hx|[->|Hx]]; [apply Hl1, Hx|lia|].
    apply Hgt in Hx. lia.
Qed.

Lemma hourly_of_counts (ms : list message) :
  hourly_of ms = map (fun h => (h, hour_count ms h)) (range 24).
Proof.
  unfold hourly_of, bucket_loop. rewrite bucket_fold. apply map_ext.
  intros h. cbn [b_hourly no_buckets].
  rewrite (counter_get_tally Z Z.eqb Z.eqb_eq). reflexivity.
Qed.

Lemma daily_dow_of_counts (ms : list message) :
  daily_dow_of ms
  = map (fun w => (nth (Z.to_nat w) dow_names [], dow_count ms w)) (range 7).
Proof.
  unfold daily_dow_of, bucket_loop. rewrite bucket_fold. apply map_ext.
  intros h. cbn [b_daily_dow no_buckets].
  rewrite (counter_get_tally Z Z.eqb Z.eqb_eq). reflexivity.
Qed.

Lemma map_range_cons (A : Type) (f : Z -> A) (n : nat) :
  map f (range (S n)) = f 0%Z :: map f (map Z.of_nat (seq 1 n)).
Proof. reflexivity. Qed.

(** What [build_html] does with what [compute_stats] returns. *)
Lemma build_html_outcome (word_char : N -> bool) (d : package) (st : stats)
  (u : user_profile) :
  compute_stats d = Ok st ->
  (filter parses (messages d) = [] ->
   build_html st (compute_more word_char d) u = inl ZeroDivisionError)
  /\ (filter parses (messages d) <> [] ->
      exists p, build_html st (compute_more word_char d) u = inr p).
Proof.
  intros H. apply compute_stats_Ok in H.
  destruct H as (_ & _ & _ & _ & _ & _ & _ & _ & Hh & Hd & _).
  unfold build_html. rewrite Hh, Hd, hourly_of_counts, daily_dow_of_counts.
  rewrite !map_range_cons. cbn [max_by_count].
  unfold compute_more; cbn [tod]. rewrite tod_total.
  split.
  - intros E. rewrite E. reflexivity.
  - intros E. destruct (filter parses (messages d)) as [|m l]; [congruence|].
    cbn [length Nat.eqb]. eexists. reflexivity.
Qed.

(** The values of the page that come from a maximum. *)
Lemma build_html_peaks (st : stats) (more : more_stats) (u : user_profile)
  (p : page) :
  build_html st more u = inr p ->
  exists kv l kv' l',
    hourly st = kv :: l /\ daily_dow st = kv' :: l'
    /\ p_peak_hour p
       = (two_digits (Z.to_nat (fst (first_max kv l))) ++ lit ":00",
          snd (first_max kv l))
    /\ p_peak_dow p = first_max kv' l'
    /\ night (tod more) + morning (tod more) + afternoon (tod more)
       + evening (tod more) <> 0
    /\ p_night_owl p
       = (morning (tod more) + afternoon (tod more)
          <? night (tod more) + evening (tod more))
    /\ p_share p
       = (max_of (tod_counts (tod more)),
          night (tod more) + morning (tod more) + afternoon (tod more)
          + evening (tod more))
    /\ p_hours p
       = replace (lit "evening") (lit "evening")
           (replace (lit "night") (lit "late night")
              (fst (first_max (lit "night", night (tod more))
                      [(lit "morning", morning (tod more));
                       (lit "afternoon", afternoon (tod more));
                       (lit "evening", evening (tod more))]))).
Proof.
  unfold build_html.
  destruct (hourly st) as [|kv l]; [discriminate|].
  destruct (daily_dow st) as [|kv' l']; [discriminate|].
  cbn [max_by_count].
  destruct (_ =? 0) eqn:E; [discriminate|].
  apply Nat.eqb_neq in E.
  intros H; inversion H; subst; clear H. cbn.
  exists kv, l, kv', l'. repeat (split; [reflexivity|]).
  split; [exact E|]. repeat split; reflexivity.
Qed.

(** X18.  The peak hour and the favourite day of the page: the hour shown,
    written with two digits, is the earliest hour of the day in which the
    most messages with an accepted timestamp fall, and the number shown with
    it is that number of messages; likewise the day shown is the first day
    of the week, from Monday on, on which the most such messages fall. *)
Theorem X18_peaks (word_char : N -> bool) (d : package) (st : stats)
  (u : user_profile) (p : page) :
  compute_stats d = Ok st ->
  build_html st (compute_more word_char d) u = inr p ->
  (exists h,
     (0 <= h < 24)%Z
     /\ p_peak_hour p
        = (two_digits (Z.to_nat h) ++ lit ":00", hour_count (messages d) h)
     /\ (forall h', (0 <= h' < 24)%Z ->
           hour_count (messages d) h' <= hour_count (messages d) h)
     /\ (forall h', (0 <= h' < h)%Z ->
           hour_count (messages d) h' < hour_count (messages d) h))
  /\ exists w,
       (0 <= w < 7)%Z
       /\ p_peak_dow p
          = (nth (Z.to_nat w) dow_names [], dow_count (messages d) w)
       /\ (forall w', (0 <= w' < 7)%Z ->
             dow_count (messages d) w' <= dow_count (messages d) w)
       /\ (forall w', (0 <= w' < w)%Z ->
             dow_count (messages d) w' < dow_count (messages d) w).
Proof.
  intros Hs Hb. apply compute_stats_Ok in Hs.
  destruct Hs as (_ & _ & _ & _ & _ & _ & _ & _ & Hh & Hd & _).
  apply build_html_peaks in Hb.
  destruct Hb as (kv & l & kv' & l' & Eh & Ed & -> & -> & _).
  rewrite Hh, hourly_of_counts in Eh. rewrite Hd, daily_dow_of_counts in Ed.
  split.
  - destruct (peak_of_range Z 24 (fun h => h) (hour_count (messages d)) kv l Eh)
      as (h & Hr & -> & Hmax & Hfirst).
    exists h. split; [exact Hr|]. split; [reflexivity|].
    split; [exact Hmax|exact Hfirst].
  - destruct (peak_of_range str 7 (fun w => nth (Z.to_nat w) dow_names [])
                (dow_count (messages d)) kv' l' Ed)
      as (w & Hr & -> & Hmax & Hfirst).
    exists w. split; [exact Hr|]. split; [reflexivity|].
    split; [exact Hmax|exact Hfirst].
Qed.

Lemma X18_peaks_witness :
  exists st p,
    compute_stats (stream [early; late]) = Ok st
    /\ build_html st (compute_more (fun _ => false) (stream [early; late]))
         empty_user = inr p
    /\ exists h,
         (0 <= h < 24)%Z
         /\ p_peak_hour p
            = (two_digits (Z.to_nat h) ++ lit ":00",
               hour_count [early; late] h).
Proof.
  eexists. eexists. split; [vm_compute; reflexivity|].
  split; [vm_compute; reflexivity|].
  match goal with
  | |- exists h, _ /\ p_peak_hour ?p = _ =>
      destruct (X18_peaks (fun _ => false) (stream [early; late]) _
                  empty_user p
                  ltac:(vm_compute; reflexivity)
                  ltac:(vm_compute; reflexivity))
        as ((h & H1 & H2 & _) & _)
  end.
  exists h. split; [exact H1|exact H2].
Defined.

Lemma day_and_night (l : list datetime) :
  Forall (fun dt => (0 <= hour dt <= 23)%Z) l ->
  length (filter (in_window 6 18) l)
  = length (filter (in_window 6 12) l) + length (filter (in_window 12 18) l)
  /\ length (filter (fun dt => negb (in_window 6 18 dt)) l)
     = length (filter (in_window 0 6) l)
       + length (filter (in_window 18 24) l).
Proof.
  induction 1 as [|dt l Hdt Hl IH]; [simpl; lia|].
  rewrite !filter_length_cons.
  assert (E : (if in_window 6 18 dt then 1 else 0)
              = (if in_window 6 12 dt then 1 else 0)
                + (if in_window 12 18 dt then 1 else 0)
              /\ (if negb (in_window 6 18 dt) then 1 else 0)
                 = (if in_window 0 6 dt then 1 else 0)
                   + (if in_window 18 24 dt then 1 else 0)).
  { unfold in_window.
    destruct (Z.leb_spec (Z.of_nat 0) (hour dt)),
      (Z.ltb_spec (hour dt) (Z.of_nat 6)),
      (Z.leb_spec (Z.of_nat 6) (hour dt)),
      (Z.ltb_spec (hour dt) (Z.of_nat 12)),
      (Z.leb_spec (Z.of_nat 12) (hour dt)),
      (Z.ltb_spec (hour dt) (Z.of_nat 18)),
      (Z.leb_spec (Z.of_nat 18) (hour dt)),
      (Z.ltb_spec (hour dt) (Z.of_nat 24));
      cbn [andb negb]; lia. }
  lia.
Qed.

(** X19.  The line of the page on the times of day: the share shown is the
    greatest of the four counts over their sum, the sum being the number of
    messages with an accepted timestamp, which is not 0; so the share lies
    between a quarter and the whole.  The hours named are those of the first
    of the four times of day (late night, morning, afternoon, evening) that
    has the greatest count.  The page says night owl exactly when evening
    and night together have more messages than morning and afternoon. *)
Theorem X19_time_of_day_line (word_char : N -> bool) (d : package)
  (st : stats) (u : user_profile) (p : page) :
  compute_stats d = Ok st ->
  build_html st (compute_more word_char d) u = inr p ->
  snd (p_share p) = length (filter parses (messages d))
  /\ 0 < snd (p_share p)
  /\ fst (p_share p) <= snd (p_share p) <= 4 * fst (p_share p)
  /\ (exists i,
        i < 4
        /\ p_hours p = nth i tod_labels []
        /\ fst (p_share p) = nth i (tod_counts (tod (compute_more word_char d))) 0
        /\ (forall j, j < 4 ->
              nth j (tod_counts (tod (compute_more word_char d))) 0
              <= nth i (tod_counts (tod (compute_more word_char d))) 0)
        /\ (forall j, j < i ->
              nth j (tod_counts (tod (compute_more word_char d))) 0
              < nth i (tod_counts (tod (compute_more word_char d))) 0))
  /\ (p_night_owl p = true
      <-> length (filter (in_window 6 18) (parsed_times (messages d)))
          < length (filter (fun dt => negb (in_window 6 18 dt))
                      (parsed_times (messages d)))).
Proof.
  intros Hs Hb. apply build_html_peaks in Hb.
  destruct Hb as (kv & l & kv' & l' & _ & _ & _ & _ & Hne & Ho & Hsh & Hh).
  rewrite Hsh, Hh, Ho. clear Hsh Hh Ho. cbn [fst snd].
  pose proof (tod_total (messages d)) as Ht.
  assert (Hw : forall a b, a <= b ->
            window (b_hourly (bucket_loop (messages d))) a b
            = length (filter (in_window a b) (parsed_times (messages d))))
    by (intros a b Hab; apply window_spec, Hab).
  unfold compute_more in *; cbn [tod] in *.
  unfold time_of_day_of in *;
    cbn [night morning afternoon evening tod_counts] in *.
  set (n := window (b_hourly (bucket_loop (messages d))) 0 6) in *.
  set (m := window (b_hourly (bucket_loop (messages d))) 6 12) in *.
  set (a := window (b_hourly (bucket_loop (messages d))) 12 18) in *.
  set (e := window (b_hourly (bucket_loop (messages d))) 18 24) in *.
  split; [exact Ht|]. split; [lia|].
  assert (Hmax : max_of [n; m; a; e]
                 = snd (first_max (lit "night", n)
                          [(lit "morning", m); (lit "afternoon", a);
                           (lit "evening", e)])).
  { unfold max_of. cbn [fold_left first_max snd].
    destruct (n <? m); cbn [snd];
      destruct (_ <? a); cbn [snd]; destruct (_ <? e); reflexivity. }
  assert (Hcase :
            exists i,
              i < 4
              /\ replace (lit "evening") (lit "evening")
                   (replace (lit "night") (lit "late night")
                      (fst (first_max (lit "night", n)
                              [(lit "morning", m); (lit "afternoon", a);
                               (lit "evening", e)])))
                 = nth i tod_labels []
              /\ snd (first_max (lit "night", n)
                        [(lit "morning", m); (lit "afternoon", a);
                         (lit "evening", e)])
                 = nth i [n; m; a; e] 0
              /\ (forall j, j < 4 -> nth j [n; m; a; e] 0 <= nth i [n; m; a; e] 0)
              /\ (forall j, j < i -> nth j [n; m; a; e] 0 < nth i [n; m; a; e] 0)).
  { cbn [first_max snd].
    destruct (Nat.ltb_spec n m) as [H1|H1]; cbn [snd];
      [destruct (Nat.ltb_spec m a) as [H2|H2]
      |destruct (Nat.ltb_spec n a) as [H2|H2]]; cbn [snd];
      match goal with
      | |- context [?x <? e] => destruct (Nat.ltb_spec x e) as [H3|H3]
      end; cbn [fst snd];
      [exists 3|exists 2|exists 3|exists 1|exists 3|exists 2|exists 3|exists 0];
      (split; [lia|]); (split; [vm_compute; reflexivity|]);
      (split; [reflexivity|]);
      (split; intros [|[|[|[|j]]]] Hj; cbn [nth]; lia). }
  destruct Hcase as (i & Hi & Hl & Hv & Hall & Hfirst).
  assert (Hle : nth i [n; m; a; e] 0 <= n + m + a + e
                /\ n + m + a + e <= 4 * nth i [n; m; a; e] 0).
  { pose proof (Hall 0). pose proof (Hall 1). pose proof (Hall 2).
    pose proof (Hall 3). cbn [nth] in *.
    destruct i as [|[|[|[|i]]]]; cbn [nth] in *; lia. }
  unfold tod_counts; cbn [night morning afternoon evening].
  rewrite Hmax, Hv. split; [exact Hle|].
  split.
  { exists i. split; [exact Hi|]. split; [exact Hl|].
    split; [reflexivity|]. split; [exact Hall|exact Hfirst]. }
  rewrite Nat.ltb_lt.
  unfold n, m, a, e. rewrite !Hw by lia.
  destruct (day_and_night _ (parsed_times_hour (messages d))) as [G1 G2].
  lia.
Qed.

Lemma X19_time_of_day_line_witness :
  exists st p,
    compute_stats (stream [early; late]) = Ok st
    /\ build_html st (compute_more (fun _ => false) (stream [early; late]))
         empty_user = inr p
    /\ snd (p_share p) = length (filter parses [early; late])
    /\ p_hours p = lit "morning".
Proof.
  eexists. eexists. split; [vm_compute; reflexivity|].
  split; [vm_compute; reflexivity|].
  match goal with
  | |- snd (p_share ?p) = _ /\ _ =>
      destruct (X19_time_of_day_line (fun _ => false)
                  (stream [early; late]) _ empty_user p
                  ltac:(vm_compute; reflexivity)
                  ltac:(vm_compute; reflexivity))
        as (H & _)
  end.
  split; [exact H|reflexivity].
Defined.

(** ** The run *)

Lemma run_report_parsed (word_char : N -> bool) (zf : zipfile)
  (d : package) :
  parse_package (Some zf) = Ok d ->
  run_report word_char (Some zf)
  = match compute_stats d with
    | Raise e => inl (Raised e)
    | Ok st => build_html st (compute_more word_char d) (user d)
    end.
Proof.
  intros H. unfold run_report. rewrite H. reflexivity.
Qed.

(** * From the folders of the archive to the channel list *)

Lemma split_chr_app (c : N) (w rest : str) :
  Forall (fun x => x <> c) w ->
  split_chr c (w ++ c :: rest) = w :: split_chr c rest.
Proof.
  induction 1 as [|x w Hx Hw IH]; simpl.
  - rewrite N.eqb_refl. reflexivity.
  - destruct (N.eqb_spec x c); [contradiction|]. rewrite IH. reflexivity.
Qed.

Lemma endswith_app (p s : str) : endswith p (s ++ p) = true.
Proof.
  unfold endswith. rewrite rev_app_distr. apply startswith_app.
Qed.

Lemma dict_get_In (V : Type) (k : str) (d : dict V) (v : V) :
  dict_get k d = Some v -> In k (map fst d).
Proof.
  induction d as [|[k' v'] d IH]; simpl; [discriminate|].
  destruct (str_eqb k k') eqn:E.
  - intros _. left. symmetry. apply str_eqb_eq, E.
  - intros H. right. apply IH, H.
Qed.

(** A folder [Messages/c<id>/] with a [channel.json] is among the channel
    folders, when the id holds no slash. *)
Lemma channel_dirs_found (zf : zipfile) (id : str) (b : body channel_meta) :
  Forall (fun x => x <> slash) id ->
  dict_get (lit "Messages/" ++ (N_of_ascii "c" :: id) ++ lit "/channel.json")
    (channel_jsons zf) = Some b ->
  In (N_of_ascii "c" :: id) (channel_dirs zf).
Proof.
  intros Hid Hget. unfold channel_dirs. apply set_of_In, in_map_iff.
  exists (lit "Messages/" ++ (N_of_ascii "c" :: id) ++ lit "/channel.json").
  split.
  - change (lit "Messages/" ++ (N_of_ascii "c" :: id) ++ lit "/channel.json")
      with (lit "Messages"
            ++ slash :: (N_of_ascii "c" :: id) ++ slash :: lit "channel.json").
    rewrite split_chr_app by (repeat constructor; vm_compute; discriminate).
    rewrite split_chr_app; [reflexivity|].
    constructor; [vm_compute; discriminate|exact Hid].
  - apply filter_In. split.
    + unfold namelist. apply in_or_app. right. apply in_or_app. right.
      apply in_or_app. left. eapply dict_get_In. exact Hget.
    + apply andb_true_iff. split.
      * change (lit "Messages/" ++ (N_of_ascii "c" :: id)
                ++ lit "/channel.json")
          with (lit "Messages/c" ++ id ++ lit "/channel.json").
        apply startswith_app.
      * rewrite app_assoc. apply endswith_app.
Qed.

(** One turn of the loop adds the entry of its folder. *)
Lemma channel_step_entry (zf : zipfile) (index : dict str)
  (st st' : list channel * list message) (cdir : str) :
  channel_step zf index st cdir = Ok st' ->
  fst st' = fst st ++ folder_entry zf index cdir.
Proof.
  unfold channel_step, folder_entry, folder_messages. cbv zeta.
  destruct (dict_get _ (channel_jsons zf)) as [[|meta]|]; cbn [load].
  - intros H; inversion H; subst. symmetry. apply app_nil_r.
  - unfold entry_of.
    destruct (resolve_channel meta (slice_from 1 cdir)
                (get_or (slice_from 1 cdir) [] index)) as [display grp].
    destruct (dict_get _ (messages_jsons zf)) as [[|ms]|];
      cbn [load try_except KeyError_or_JSONDecodeError bind];
      intros H; inversion H; subst; reflexivity.
  - intros H; inversion H; subst. symmetry. apply app_nil_r.
Qed.

Lemma channel_loop_entries (zf : zipfile) (index : dict str)
  (dirs : list str) (st st' : list channel * list message) :
  channel_loop zf index st dirs = Ok st' ->
  fst st' = fst st ++ flat_map (folder_entry zf index) dirs.
Proof.
  revert st; induction dirs as [|cdir dirs IH]; intros st; simpl.
  - intros H; inversion H; subst. symmetry. apply app_nil_r.
  - destruct (channel_step zf index st cdir) as [st1|e] eqn:E; simpl;
      [|discriminate].
    intros H. rewrite (IH _ H), (channel_step_entry _ _ _ _ _ E).
    symmetry. apply app_assoc.
Qed.

(** The channel list and the user of a package that is read. *)
Lemma parse_package_entries (zf : zipfile) (d : package) :
  parse_package (Some zf) = Ok d ->
  channels d
  = flat_map (folder_entry zf (the_index zf))
      (sorted str_leb (channel_dirs zf))
  /\ user d = match user_json zf with
              | Some (Json u) => u
              | _ => empty_user
              end.
Proof.
  simpl. unfold the_index.
  destruct (index_json zf) as [[|idx]|]; simpl; try discriminate;
    (destruct (user_json zf) as [[|u]|]; simpl; try discriminate);
    match goal with
    | |- context [channel_loop zf ?i ?s ?l] =>
        destruct (channel_loop zf i s l) as [st|] eqn:E; simpl;
          [|discriminate]
    end;
    intros H; inversion H; subst; simpl;
    (split; [apply (channel_loop_entries _ _ _ _ _ E)|reflexivity]).
Qed.

Lemma NoDup_map_eq (A B : Type) (f : A -> B) (l : list A) (x y : A) :
  NoDup (map f l) -> In x l -> In y l -> f x = f y -> x = y.
Proof.
  induction l as [|a l IH]; simpl; [tauto|].
  intros Hnd Hx Hy E. inversion Hnd as [|? ? Hn Hd]; subst.
  destruct Hx as [->|Hx], Hy as [->|Hy]; auto.
  - exfalso. apply Hn. rewrite E. apply in_map, Hy.
  - exfalso. apply Hn. rewrite <- E. apply in_map, Hx.
Qed.

(** X21.  Every folder [Messages/c<id>/] of the archive whose
    [channel.json] is JSON (the id holding no slash) has its entry in the
    channel list, and only one: the id, the type of [channel.json]
    ([UNKNOWN] when it gives none), the name and the group resolved from
    [channel.json] and the index entry of the id (the empty text when the
    index has none or is missing), the recipients of [channel.json], and
    as number of messages the length of its [messages.json], which is 0
    when that file is missing or is not JSON.  The user of the package is
    the content of [Account/user.json], empty when the archive has none. *)
Theorem X21_folder_entry (zf : zipfile) (d : package) (id : str)
  (meta : channel_meta) :
  parse_package (Some zf) = Ok d ->
  Forall (fun x => x <> slash) id ->
  dict_get (lit "Messages/c" ++ id ++ lit "/channel.json") (channel_jsons zf)
  = Some (Json meta) ->
  In (entry_of meta id (get_or id [] (the_index zf))
        (length (folder_messages zf (N_of_ascii "c" :: id))))
    (channels d)
  /\ (forall c, In c (channels d) -> c_id c = id ->
        c = entry_of meta id (get_or id [] (the_index zf))
              (length (folder_messages zf (N_of_ascii "c" :: id))))
  /\ user d = match user_json zf with
              | Some (Json u) => u
              | _ => empty_user
              end.
Proof.
  intros Hp Hid Hget.
  destruct (parse_package_entries zf d Hp) as [Hc Hu].
  assert (Hin : In (entry_of meta id (get_or id [] (the_index zf))
                      (length (folder_messages zf (N_of_ascii "c" :: id))))
                  (channels d)).
  { rewrite Hc. apply in_flat_map. exists (N_of_ascii "c" :: id). split.
    - apply sorted_In. eapply channel_dirs_found; [exact Hid|exact Hget].
    - unfold folder_entry.
      change (lit "Messages/" ++ (N_of_ascii "c" :: id) ++ lit "/channel.json")
        with (lit "Messages/c" ++ id ++ lit "/channel.json").
      rewrite Hget. left. reflexivity. }
  split; [exact Hin|]. split; [|exact Hu].
  intros c Hcin Hcid.
  destruct (parse_package_ids zf d Hp) as [_ Hs].
  apply (NoDup_map_eq _ _ c_id (channels d)); auto.
  apply StronglySorted_NoDup, Hs.
Qed.

Lemma X21_folder_entry_witness :
  In {| c_id := lit "2"; c_name := lit "#chat"; c_group := lit "T";
        c_type := lit "GUILD_TEXT"; message_count := 1; recipients := [] |}
    (channels tie_package).
Proof.
  destruct (X21_folder_entry tie_archive tie_package (lit "2") server_meta)
    as (H & _).
  - vm_compute. reflexivity.
  - repeat constructor. vm_compute. discriminate.
  - vm_compute. reflexivity.
  - exact H.
Defined.

Lemma channel_step_stream (zf : zipfile) (index : dict str)
  (st st' : list channel * list message) (cdir : str) :
  channel_step zf index st cdir = Ok st' ->
  map msg (snd st')
  = map msg (snd st)
    ++ (if has_meta zf cdir then folder_messages zf cdir else []).
Proof.
  unfold channel_step, has_meta, folder_messages. cbv zeta.
  destruct (dict_get _ (channel_jsons zf)) as [[|meta]|]; cbn [load].
  - intros H; inversion H; subst. symmetry. apply app_nil_r.
  - destruct (resolve_channel meta (slice_from 1 cdir)
                (get_or (slice_from 1 cdir) [] index)) as [display grp].
    destruct (dict_get _ (messages_jsons zf)) as [[|ms]|];
      cbn [load try_except KeyError_or_JSONDecodeError bind];
      intros H; inversion H; subst; cbn [snd map];
      rewrite ?map_app, ?map_map, ?app_nil_r; cbn [msg tag];
      rewrite ?map_id; reflexivity.
  - intros H; inversion H; subst. symmetry. apply app_nil_r.
Qed.

Lemma channel_loop_stream (zf : zipfile) (index : dict str)
  (dirs : list str) (st st' : list channel * list message) :
  channel_loop zf index st dirs = Ok st' ->
  map msg (snd st')
  = map msg (snd st)
    ++ flat_map (folder_messages zf) (filter (has_meta zf) dirs).
Proof.
  revert st; induction dirs as [|cdir dirs IH]; intros st; simpl.
  - intros H; inversion H; subst. symmetry. apply app_nil_r.
  - destruct (channel_step zf index st cdir) as [st1|e] eqn:E; simpl;
      [|discriminate].
    intros H. rewrite (IH _ H), (channel_step_stream _ _ _ _ _ E).
    rewrite <- app_assoc. destruct (has_meta zf cdir); reflexivity.
Qed.

(** X22.  The stream of a package that is read holds the messages of the
    [messages.json] files of the listed folders, unchanged but for the tags
    and in the order of the files, the folders taken in the order of the
    channel list; a folder without metadata gives none of its messages, and
    nothing else is in the stream. *)
Theorem X22_stream_content (zf : zipfile) (d : package) :
  parse_package (Some zf) = Ok d ->
  map msg (messages d)
  = flat_map (folder_messages zf)
      (filter (has_meta zf) (sorted str_leb (channel_dirs zf)))
  /\ map message_count (channels d)
     = map (fun cdir => length (folder_messages zf cdir))
         (filter (has_meta zf) (sorted str_leb (channel_dirs zf))).
Proof.
  intros Hp. split.
  - revert Hp. simpl.
    destruct (try_except only_KeyError [] _) as [idx|]; simpl;
      [|discriminate].
    destruct (try_except only_KeyError empty_user _) as [u|]; simpl;
      [|discriminate].
    destruct (channel_loop zf idx _ _) as [st|] eqn:E; simpl; [|discriminate].
    intros H; inversion H; subst; simpl.
    apply (channel_loop_stream _ _ _ _ _ E).
  - destruct (parse_package_entries zf d Hp) as [-> _].
    induction (sorted str_leb (channel_dirs zf)) as [|cdir dirs IH];
      [reflexivity|].
    cbn [flat_map filter]. rewrite map_app, IH.
    unfold folder_entry at 1, has_meta.
    destruct (dict_get _ (channel_jsons zf)) as [[|meta]|]; reflexivity.
Qed.

Lemma X22_stream_content_witness :
  map msg (messages namesake_package)
  = [raw "2024-01-01 10:00:00"; raw "2024-01-02 11:30:00";
     raw "2024-01-03 09:00:00"].
Proof.
  destruct (X22_stream_content namesake_archive namesake_package
              ltac:(vm_compute; reflexivity)) as [H _].
  rewrite H. vm_compute. reflexivity.
Defined.

(** * The labels of the bar charts *)

Lemma hex_digit_plain (c n : N) :
  c = 60%N \/ c = 62%N -> (n < 16)%N -> hex_digit n <> c.
Proof.
  intros Hc Hn. unfold hex_digit.
  destruct (N.ltb_spec n 10); lia.
Qed.

Lemma u_escape_count (c n : N) :
  c = 60%N \/ c = 62%N -> count_chr c (u_escape n) = 0.
Proof.
  intros Hc. apply count_chr_none. unfold u_escape, hex4.
  repeat constructor;
    try (apply hex_digit_plain; [exact Hc|apply N.mod_upper_bound; lia]);
    destruct Hc as [->| ->]; vm_compute; discriminate.
Qed.

(** [json.dumps] neither adds nor takes away a [<] or a [>]. *)
Lemma json_cp_count (c x : N) :
  c = 60%N \/ c = 62%N -> count_chr c (json_cp x) = count_chr c [x].
Proof.
  intros Hc. unfold json_cp.
  destruct (N.eqb_spec x 34) as [->|H1];
    [destruct Hc as [->| ->]; reflexivity|].
  destruct (N.eqb_spec x backslash) as [->|H2];
    [destruct Hc as [->| ->]; reflexivity|].
  destruct (N.eqb_spec x 8) as [->|H3];
    [destruct Hc as [->| ->]; reflexivity|].
  destruct (N.eqb_spec x 12) as [->|H4];
    [destruct Hc as [->| ->]; reflexivity|].
  destruct (N.eqb_spec x 10) as [->|H5];
    [destruct Hc as [->| ->]; reflexivity|].
  destruct (N.eqb_spec x 13) as [->|H6];
    [destruct Hc as [->| ->]; reflexivity|].
  destruct (N.eqb_spec x 9) as [->|H7];
    [destruct Hc as [->| ->]; reflexivity|].
  destruct ((32 <=? x)%N && (x <=? 126)%N) eqn:E; [reflexivity|].
  assert (Hx : count_chr c [x] = 0).
  { apply count_chr_none. constructor; [|constructor]. intros ->.
    destruct Hc as [->| ->]; vm_compute in E; discriminate. }
  rewrite Hx.
  destruct (x <? 65536)%N; [apply u_escape_count, Hc|].
  cbv zeta. rewrite count_chr_app, !u_escape_count by exact Hc. reflexivity.
Qed.

Lemma total_indicator_count (c : N) (f : N -> nat) (s : str) :
  (forall x, f x = if N.eqb c x then 1 else 0) ->
  total (map f s) = count_chr c s.
Proof.
  intros Hf. unfold total, count_chr, occurrences.
  induction s as [|x s IH]; [reflexivity|].
  change (list_sum (map f (x :: s))) with (f x + list_sum (map f s)).
  rewrite IH, Hf. cbn [filter].
  destruct (N.eqb c x); reflexivity.
Qed.

Lemma total_single_count (c : N) (s : str) :
  total (map (fun x => count_chr c [x]) s) = count_chr c s.
Proof.
  apply total_indicator_count. intros x.
  unfold count_chr, occurrences. simpl. destruct (N.eqb c x); reflexivity.
Qed.

Lemma json_string_count (c : N) (s : str) :
  c = 60%N \/ c = 62%N -> count_chr c (json_string s) = count_chr c s.
Proof.
  intros Hc. unfold json_string.
  rewrite !count_chr_app, count_chr_flat_map.
  assert (Hq : count_chr c dq = 0) by (destruct Hc as [->| ->]; reflexivity).
  rewrite Hq.
  rewrite (map_ext _ (fun x => count_chr c [x]))
    by (intros x; apply json_cp_count, Hc).
  rewrite total_single_count. lia.
Qed.

Lemma json_plain_string (s : str) :
  Forall (fun c => json_plain c = true) s -> json_string s = dq ++ s ++ dq.
Proof.
  intros H. unfold json_string. do 2 f_equal.
  induction H as [|x s Hx Hs IH]; [reflexivity|].
  cbn [flat_map]. rewrite IH. unfold json_plain in Hx.
  apply andb_true_iff in Hx. destruct Hx as [Hx H2].
  apply andb_true_iff in Hx. destruct Hx as [Hx H1].
  apply negb_true_iff in H1, H2.
  unfold json_cp. rewrite H1, H2, Hx.
  apply andb_true_iff in Hx. destruct Hx as [Ha Hb].
  apply N.leb_le in Ha.
  destruct (N.eqb_spec x 8); [exfalso; lia|].
  destruct (N.eqb_spec x 12); [exfalso; lia|].
  destruct (N.eqb_spec x 10); [exfalso; lia|].
  destruct (N.eqb_spec x 13); [exfalso; lia|].
  destruct (N.eqb_spec x 9); [exfalso; lia|]. reflexivity.
Qed.

Lemma join_count (c : N) (sep : str) (items : list str) :
  count_chr c sep = 0 ->
  count_chr c (join sep items) = total (map (count_chr c) items).
Proof.
  intros Hs. unfold total.
  induction items as [|x [|y rest] IH]; [reflexivity|simpl; lia|].
  change (join sep (x :: y :: rest)) with (x ++ sep ++ join sep (y :: rest)).
  rewrite !count_chr_app, Hs, IH. reflexivity.
Qed.

Lemma json_list_count (c : N) (items : list str) :
  c = 60%N \/ c = 62%N ->
  count_chr c (json_list items) = total (map (count_chr c) items).
Proof.
  intros Hc. unfold json_list. rewrite !count_chr_app.
  rewrite join_count by (destruct Hc as [->| ->]; reflexivity).
  destruct Hc as [->| ->]; literal_counts; lia.
Qed.

Lemma map_ext_total (A : Type) (f g : A -> nat) (l : list A) :
  (forall x, f x = g x) -> total (map f l) = total (map g l).
Proof.
  intros H. f_equal. apply map_ext, H.
Qed.

Lemma total_const_zero (A : Type) (f : A -> nat) (l : list A) :
  (forall x, f x = 0) -> total (map f l) = 0.
Proof.
  intros H. rewrite (total_const A 0 f l H). reflexivity.
Qed.

Lemma build_html_charts (st : stats) (more : more_stats) (u : user_profile)
  (p : page) :
  build_html st more u = inr p ->
  p_dm_labels p
  = json_list (map (fun d => json_string (slice_to 20 (r_name d)))
                 (firstn 15 (top_dms st)))
  /\ p_dm_values p
     = json_list (map (fun d => str_of_nat (r_count d))
                    (firstn 15 (top_dms st)))
  /\ p_srv_labels p
     = json_list (map (fun s => json_string (slice_to 25 (r_name s)))
                    (firstn 15 (top_servers st)))
  /\ p_srv_values p
     = json_list (map (fun s => str_of_nat (r_count s))
                    (firstn 15 (top_servers st))).
Proof.
  unfold build_html.
  destruct (max_by_count (hourly st)) as [e|ph]; [discriminate|].
  destruct (max_by_count (daily_dow st)) as [e|pd]; [discriminate|].
  destruct (_ =? 0); [discriminate|].
  intros H; inversion H; subst; clear H. cbn.
  repeat split; reflexivity.
Qed.

(** X23.  The labels of the two bar charts are the names of the first 15
    direct messages and servers of the rankings, cut to 20 and 25
    characters and written as JSON into the script of the page.  Unlike the
    tables, they are not escaped: writing them as JSON neither adds nor
    takes away a [<] or a [>], so each one of the cut names is on the page
    as it stands; a name of plain characters is written between two quotes
    and nothing else.  The values of the charts hold no [<] or [>]. *)
Theorem X23_chart_labels (st : stats) (more : more_stats) (u : user_profile)
  (p : page) :
  build_html st more u = inr p ->
  (forall c, c = 60%N \/ c = 62%N ->
     count_chr c (p_dm_labels p)
     = total (map (fun d => count_chr c (slice_to 20 (r_name d)))
                (firstn 15 (top_dms st)))
     /\ count_chr c (p_srv_labels p)
        = total (map (fun s => count_chr c (slice_to 25 (r_name s)))
                   (firstn 15 (top_servers st)))
     /\ count_chr c (p_dm_values p) = 0
     /\ count_chr c (p_srv_values p) = 0)
  /\ forall s, Forall (fun c => json_plain c = true) s ->
       json_string s = dq ++ s ++ dq.
Proof.
  intros H. apply build_html_charts in H. destruct H as (-> & -> & -> & ->).
  split; [|exact json_plain_string].
  intros c Hc.
  assert (Hm : markup c = true) by (destruct Hc as [->| ->]; reflexivity).
  rewrite !json_list_count, !map_map by exact Hc.
  split; [apply map_ext_total; intros d; apply json_string_count, Hc|].
  split; [apply map_ext_total; intros d; apply json_string_count, Hc|].
  split; apply total_const_zero; intros d; apply count_chr_str_of_nat, Hm.
Qed.

Lemma X23_chart_labels_witness :
  exists st p,
    compute_stats markup_package = Ok st
    /\ build_html st (compute_more (fun _ => false) markup_package)
         empty_user = inr p
    /\ count_chr 60 (p_dm_labels p)
       = total (map (fun d => count_chr 60 (slice_to 20 (r_name d)))
                  (firstn 15 (top_dms st)))
    /\ p_dm_labels p = lit "[" ++ dq ++ lit "<b>" ++ dq ++ lit "]".
Proof.
  eexists. eexists. split; [vm_compute; reflexivity|].
  split; [vm_compute; reflexivity|].
  match goal with
  | |- count_chr _ (p_dm_labels ?p) = total (map _ (firstn 15 (top_dms ?st)))
       /\ _ =>
      destruct (X23_chart_labels st
                  (compute_more (fun _ => false) markup_package)
                  empty_user p ltac:(vm_compute; reflexivity))
        as (H & _)
  end.
  split; [|vm_compute; reflexivity].
  destruct (H 60%N (or_introl eq_refl)) as (H1 & _). exact H1.
Defined.

(** * Unparsable timestamps and the total of messages *)

(** The busiest day is a date prefix of greatest count among those of all
    the non-empty timestamps. *)
Lemma busiest_of_greatest (ms : list message) :
  timestamps_of ms <> [] ->
  In (fst (busiest_of ms)) (date_prefixes ms)
  /\ snd (busiest_of ms)
     = occurrences str_eqb (fst (busiest_of ms)) (date_prefixes ms)
  /\ forall s, In s (date_prefixes ms) ->
       occurrences str_eqb s (date_prefixes ms) <= snd (busiest_of ms).
Proof.
  intros Hne. rewrite busiest_of_spec.
  set (l := date_prefixes ms).
  set (f := fun k => (k, occurrences str_eqb k l)).
  destruct (first_occurrences l) as [|x xs] eqn:Hfo.
  { exfalso. apply Hne. unfold l, date_prefixes in Hfo.
    destruct (timestamps_of ms); [reflexivity|discriminate]. }
  cbn [map].
  destruct (first_max_first str (f x) (map f xs))
    as (before & after & Hs & Hbef & Haft).
  set (b := first_max (f x) (map f xs)) in *.
  change (f x :: map f xs) with (map f (x :: xs)) in Hs.
  rewrite <- Hfo in Hs.
  assert (Hin : In b (map f (first_occurrences l))).
  { rewrite Hs. apply in_or_app. right. left. reflexivity. }
  apply in_map_iff in Hin. destruct Hin as (k & Hk & Hkin).
  apply (proj1 (first_occurrences_In l k)) in Hkin.
  rewrite <- Hk. cbn [fst snd f].
  split; [exact Hkin|]. split; [reflexivity|].
  intros s Hsin. apply (proj2 (first_occurrences_In l s)) in Hsin.
  apply (in_map f) in Hsin. rewrite Hs in Hsin.
  apply in_app_or in Hsin.
  change (occurrences str_eqb s l) with (snd (f s)).
  change (occurrences str_eqb k l) with (snd (f k)). rewrite Hk.
  destruct Hsin as [Hsin|[Hsin|Hsin]].
  - apply Nat.lt_le_incl, Hbef, Hsin.
  - rewrite Hsin. apply Nat.le_refl.
  - apply Haft, Hsin.
Qed.

Lemma monthly_total (ms : list message) :
  total (map snd (monthly_of ms)) = length (filter parses ms).
Proof.
  rewrite monthly_of_tally, sorted_total, (tally_total (Z * Z) pair_eqb),
    length_map. simpl. apply parsed_times_length.
Qed.

Lemma yearly_total (ms : list message) :
  total (map snd (yearly_of ms)) = length (filter parses ms).
Proof.
  rewrite yearly_of_tally, sorted_total, (tally_total Z Z.eqb), length_map.
  simpl. apply parsed_times_length.
Qed.

(** C1, amended: in what [compute_stats] returns for a package that
    [parse_package] read, a message whose timestamp does not parse is left
    out of the monthly, hourly, weekday and yearly buckets: they are those
    of the stream without such messages, and their counts add up to the
    number of messages that parse.  Such a message is counted in
    [total_messages] and in the per-channel counts.  The active days, the
    streak and the busiest day are computed from the first ten characters
    of every non-empty timestamp, whether or not it parses: [active_days]
    is the number of distinct such prefixes, [longest_streak] and
    [longest_streak_start] are the length and the first date of the first
    longest run of consecutive days among them, and [busiest_day] is one of
    them with, as [busiest_day_count], the greatest number of messages; the
    prefix of every message with a non-empty timestamp is among the dates
    of the streak and is counted for the busiest day. *)
Theorem C1_unparsable_timestamps (container : option zipfile) (d : package)
  (st : stats) :
  parse_package container = Ok d ->
  compute_stats d = Ok st ->
  (monthly st = monthly_of (filter parses (messages d))
   /\ hourly st = hourly_of (filter parses (messages d))
   /\ daily_dow st = daily_dow_of (filter parses (messages d))
   /\ yearly st = yearly_of (filter parses (messages d)))
  /\ (total (map snd (monthly st)) = length (filter parses (messages d))
      /\ total (map snd (hourly st)) = length (filter parses (messages d))
      /\ total (map snd (daily_dow st)) = length (filter parses (messages d))
      /\ total (map snd (yearly st)) = length (filter parses (messages d)))
  /\ (total_messages st
      = length (filter parses (messages d))
        + length (filter (fun m => negb (parses m)) (messages d))
      /\ total (map message_count (channels d))
         = length (filter parses (messages d))
           + length (filter (fun m => negb (parses m)) (messages d)))
  /\ active_days st = distinct (date_prefixes (messages d))
  /\ (timestamps_of (messages d) <> [] ->
      (longest_streak st, longest_streak_start st)
      = run_info (longest (runs (sorted str_leb (msg_dates_of (messages d)))))
      /\ In (busiest_day st) (date_prefixes (messages d))
      /\ busiest_day_count st
         = occurrences str_eqb (busiest_day st) (date_prefixes (messages d)))
  /\ forall m, In m (messages d) -> truthy (timestamp_of m) = true ->
       In (slice_to 10 (timestamp_of m))
         (sorted str_leb (msg_dates_of (messages d)))
       /\ 1 <= occurrences str_eqb (slice_to 10 (timestamp_of m))
                 (date_prefixes (messages d))
       /\ occurrences str_eqb (slice_to 10 (timestamp_of m))
            (date_prefixes (messages d))
          <= busiest_day_count st.
Proof.
  intros Hp Hs. pose proof (compute_stats_Ok d st Hs) as H.
  destruct H as (Hstreak & Hf & Ht & _ & _ & _ & _ & Sm & Sh & Sw & Sy & Sb).
  assert (Hbd : busiest_day st = fst (busiest_of (messages d)))
    by (rewrite <- Sb; reflexivity).
  assert (Hbc : busiest_day_count st = snd (busiest_of (messages d)))
    by (rewrite <- Sb; reflexivity).
  split.
  { rewrite Sm, Sh, Sw, Sy. unfold monthly_of, hourly_of, daily_dow_of,
      yearly_of. rewrite bucket_loop_filter. repeat split; reflexivity. }
  split.
  { rewrite Sm, Sh, Sw, Sy.
    split; [apply monthly_total|]. split; [apply hourly_total|].
    split; [apply daily_dow_total|apply yearly_total]. }
  split.
  { split; [rewrite Ht; apply filter_split_length|].
    rewrite <- (parse_package_counts _ _ Hp). apply filter_split_length. }
  split.
  { unfold first_last_of in Hf.
    destruct (timestamps_of (messages d)) as [|t ts] eqn:E.
    - injection Hf as _ _ Hf. rewrite Hf.
      unfold date_prefixes; rewrite E; reflexivity.
    - injection Hf as _ _ Hf. rewrite Hf. apply set_of_length. }
  split.
  { intros Hne.
    destruct (busiest_of_greatest (messages d) Hne) as (B1 & B2 & _).
    split; [|rewrite Hbd, Hbc; split; [exact B1|exact B2]].
    apply streak_of_dates_Ok; [|exact Hstreak].
    intros F.
    destruct (timestamps_of (messages d)) as [|t ts] eqn:E; [congruence|].
    assert (Hin : In (slice_to 10 t)
                    (sorted str_leb (msg_dates_of (messages d)))).
    { apply sorted_dates_spec. unfold date_prefixes. rewrite E. left.
      reflexivity. }
    rewrite F in Hin. destruct Hin. }
  intros m Hin Htr.
  assert (Hpre : In (slice_to 10 (timestamp_of m))
                   (date_prefixes (messages d))).
  { unfold date_prefixes. apply (in_map (slice_to 10)), timestamps_of_In;
      assumption. }
  assert (Hne : timestamps_of (messages d) <> []).
  { intros E. unfold date_prefixes in Hpre. rewrite E in Hpre.
    destruct Hpre. }
  destruct (busiest_of_greatest (messages d) Hne) as (_ & _ & B3).
  split; [apply sorted_dates_spec, Hpre|].
  split; [apply (occurrences_pos str str_eqb str_eqb_eq), Hpre|].
  rewrite Hbc. apply B3, Hpre.
Qed.

Lemma C1_unparsable_timestamps_witness :
  parses (tag [] (lit "Direct Messages") DM (raw "2024-01-02 99:00:00"))
  = false
  /\ exists st,
       compute_stats late_package = Ok st
       /\ total (map snd (hourly st)) = 1
       /\ total_messages st = 2
       /\ active_days st = 2
       /\ (longest_streak st, longest_streak_start st)
          = (2, lit "2024-01-01").
Proof.
  split; [vm_compute; reflexivity|].
  eexists. split; [vm_compute; reflexivity|].
  match goal with
  | |- total (map snd (hourly ?s)) = _ /\ _ =>
      destruct (C1_unparsable_timestamps (Some late_archive) late_package s
                  ltac:(vm_compute; reflexivity)
                  ltac:(vm_compute; reflexivity))
        as (_ & (_ & Hh & _) & (Ht & _) & Ha & Hd & _)
  end.
  split; [rewrite Hh; vm_compute; reflexivity|].
  split; [rewrite Ht; vm_compute; reflexivity|].
  split; [rewrite Ha; vm_compute; reflexivity|].
  destruct Hd as (Hr & _); [vm_compute; discriminate|].
  rewrite Hr. vm_compute. reflexivity.
Defined.

(** C2: for a package that [parse_package] read, the [total_messages] entry
    of what [compute_stats] returns is the sum of the [message_count]s of
    the channel summaries: the stream is that long for every archive that is
    read, and [compute_stats] reports its length. *)
Theorem C2_total_messages (container : option zipfile) (d : package)
  (st : stats) :
  parse_package container = Ok d ->
  compute_stats d = Ok st ->
  total_messages st = total (map message_count (channels d))
  /\ total_messages st = length (messages d)
  /\ length (messages d) = total (map message_count (channels d)).
Proof.
  intros Hp Hs. pose proof (parse_package_counts _ _ Hp) as Hc.
  apply compute_stats_Ok in Hs. destruct Hs as (_ & _ & Ht & _).
  split; [rewrite Ht; exact Hc|]. split; [exact Ht|exact Hc].
Qed.

Lemma C2_total_messages_witness :
  exists st,
    compute_stats namesake_package = Ok st
    /\ map message_count (channels namesake_package) = [2; 1]
    /\ total_messages st = 3.
Proof.
  eexists. split; [vm_compute; reflexivity|].
  split; [reflexivity|].
  match goal with
  | |- total_messages ?s = _ =>
      destruct (C2_total_messages (Some namesake_archive) namesake_package s
                  ltac:(vm_compute; reflexivity)
                  ltac:(vm_compute; reflexivity)) as (H & _)
  end.
  rewrite H. reflexivity.
Defined.

(** * When the reader, the statistics and the page fail

    The archives of this development are those in which each file the reader
    opens is absent, or is text that is not JSON, or is JSON of the shape
    the code expects: the index maps ids to texts, the names of the user,
    the channels and the guilds are texts or absent, [messages.json] is a
    list of objects whose [Timestamp], [Contents] and [Attachments] are
    texts or absent.  What follows is stated of these archives, and of the
    packages made of such values.  Bytes that are no text and JSON of
    another shape are not covered: on them the code can fail in other
    ways. *)



(** X10.  On a package whose channel names, groups and types are texts and
    whose messages have texts or nothing as [Timestamp], [Contents] and
    [Attachments], [compute_stats] raises [ValueError] when the stream has
    two or more distinct date prefixes (the first ten characters of the
    non-empty timestamps) and one of them is not a date; otherwise, that is
    with at most one distinct date prefix, whatever it is, or with date
    prefixes that are all dates, it returns.  Whenever it returns, the
    stream is of the second sort. *)
Theorem X10_compute_stats_raises (d : package) :
  (2 <= distinct (date_prefixes (messages d)) ->
   (exists s, In s (date_prefixes (messages d)) /\ day_number s = None) ->
   compute_stats d = Raise ValueError)
  /\ (distinct (date_prefixes (messages d)) <= 1
      \/ Forall (fun s => day_number s <> None)
           (date_prefixes (messages d)) ->
      exists st, compute_stats d = Ok st)
  /\ forall st, compute_stats d = Ok st ->
       distinct (date_prefixes (messages d)) <= 1
       \/ Forall (fun s => day_number s <> None)
            (date_prefixes (messages d)).
Proof.
  split; [|split].
  - intros Hl Hbad. apply compute_stats_raises_iff. auto.
  - intros H. apply compute_stats_returns_iff, H.
  - intros st Hst. apply compute_stats_returns_iff. exists st. exact Hst.
Qed.

Lemma X10_compute_stats_raises_witness :
  compute_stats (stream two_bad_dates) = Raise ValueError
  /\ exists st, compute_stats (stream one_bad_date) = Ok st
                /\ longest_streak st = 1.
Proof.
  split.
  - destruct (X10_compute_stats_raises (stream two_bad_dates)) as (H & _).
    apply H; [vm_compute; lia|].
    exists (lit "yesterday"). split; [vm_compute; auto|reflexivity].
  - destruct (X10_compute_stats_raises (stream one_bad_date)) as (_ & H & _).
    destruct H as [st Hst]; [left; vm_compute; lia|].
    exists st. split; [exact Hst|].
    assert (E : Ok st = compute_stats (stream one_bad_date))
      by (symmetry; exact Hst).
    vm_compute in E. injection E as ->. reflexivity.
Defined.

(** X17.  On what [compute_stats] returns for a package whose channel
    names, groups and types are texts and whose messages have texts or
    nothing as [Timestamp], [Contents] and [Attachments], and with a user
    whose names are texts or absent, [build_html] raises
    [ZeroDivisionError], from the share of the busiest time of day, when no
    message of the stream has a timestamp the bucket loop accepts (so also
    when there is no message at all), and returns a page when some message
    has one.  It does not raise the [ValueError] of [max] on an empty list,
    and whenever it returns a page some message has an accepted
    timestamp. *)
Theorem X17_build_html_outcomes (word_char : N -> bool) (d : package)
  (st : stats) (u : user_profile) :
  compute_stats d = Ok st ->
  (filter parses (messages d) = [] ->
   build_html st (compute_more word_char d) u = inl ZeroDivisionError)
  /\ (filter parses (messages d) <> [] ->
      exists p, build_html st (compute_more word_char d) u = inr p)
  /\ build_html st (compute_more word_char d) u <> inl (Raised ValueError)
  /\ forall p, build_html st (compute_more word_char d) u = inr p ->
       filter parses (messages d) <> [].
Proof.
  intros H. destruct (build_html_outcome word_char d st u H) as [H0 H1].
  split; [exact H0|]. split; [exact H1|].
  destruct (filter parses (messages d)) as [|m l] eqn:E.
  - rewrite (H0 eq_refl). split; [discriminate|]. intros p Hp. discriminate.
  - destruct H1 as [p Hp]; [discriminate|]. rewrite Hp.
    split; [discriminate|]. intros _ _. discriminate.
Qed.

Lemma X17_build_html_outcomes_witness :
  (exists st,
     compute_stats (stream []) = Ok st
     /\ build_html st (compute_more (fun _ => false) (stream [])) empty_user
        = inl ZeroDivisionError)
  /\ exists st p,
       compute_stats (stream [early; late]) = Ok st
       /\ build_html st (compute_more (fun _ => false) (stream [early; late]))
            empty_user = inr p.
Proof.
  split.
  - eexists. split; [vm_compute; reflexivity|].
    match goal with
    | |- build_html ?s _ _ = _ =>
        destruct (X17_build_html_outcomes (fun _ => false) (stream []) s
                    empty_user ltac:(vm_compute; reflexivity)) as (H & _)
    end.
    apply H. reflexivity.
  - eexists. 
    match goal with
    | |- exists p, compute_stats ?d = Ok ?s /\ _ =>
        assert (Hs : compute_stats d = Ok s) by (vm_compute; reflexivity)
    end.
    match type of Hs with
    | compute_stats _ = Ok ?s =>
        destruct (X17_build_html_outcomes (fun _ => false)
                    (stream [early; late]) s empty_user Hs) as (_ & H & _)
    end.
    destruct H as [p Hp]; [vm_compute; discriminate|].
    exists p. split; [exact Hs|exact Hp].
Defined.

(** X20.  The run of [main], from reading the archive to the page, on an
    archive in which each file the reader opens is absent, or is text that
    is not JSON, or is JSON of the shape the code expects.  It fails with the decoding error when the index or the user
    file is text that is not JSON.  When the archive is read, it fails with
    [ValueError] when the stream has two or more distinct date prefixes and
    one is not a date; with at most one distinct date prefix, or with date
    prefixes that are all dates, it fails with [ZeroDivisionError] when no
    message has an accepted timestamp, so on every archive without
    messages, and produces the page when some message has one.  Whenever it
    produces the page, the statistics were computed and some message has an
    accepted timestamp. *)
Theorem X20_run_outcomes (word_char : N -> bool) (zf : zipfile) :
  (index_json zf = Some Undecodable \/ user_json zf = Some Undecodable ->
   run_report word_char (Some zf) = inl (Raised JSONDecodeError))
  /\ forall d,
       parse_package (Some zf) = Ok d ->
       (2 <= distinct (date_prefixes (messages d)) ->
        (exists s, In s (date_prefixes (messages d))
                   /\ day_number s = None) ->
        run_report word_char (Some zf) = inl (Raised ValueError))
       /\ (distinct (date_prefixes (messages d)) <= 1
           \/ Forall (fun s => day_number s <> None)
                (date_prefixes (messages d)) ->
           (filter parses (messages d) = [] ->
            run_report word_char (Some zf) = inl ZeroDivisionError)
           /\ (filter parses (messages d) <> [] ->
               exists p, run_report word_char (Some zf) = inr p))
       /\ (messages d = [] ->
           run_report word_char (Some zf) = inl ZeroDivisionError)
       /\ forall p, run_report word_char (Some zf) = inr p ->
            (exists st, compute_stats d = Ok st)
            /\ filter parses (messages d) <> [].
Proof.
  split.
  { intros H. unfold run_report.
    assert (E : parse_package (Some zf) = Raise JSONDecodeError).
    { apply parse_package_raises. right. exists zf. auto. }
    rewrite E. reflexivity. }
  intros d Hd. rewrite (run_report_parsed word_char zf d Hd).
  assert (Hret : distinct (date_prefixes (messages d)) <= 1
                 \/ Forall (fun s => day_number s <> None)
                      (date_prefixes (messages d)) ->
                 (filter parses (messages d) = [] ->
                  match compute_stats d with
                  | Ok st => build_html st (compute_more word_char d) (user d)
                  | Raise e => inl (Raised e)
                  end = inl ZeroDivisionError)
                 /\ (filter parses (messages d) <> [] ->
                     exists p,
                       match compute_stats d with
                       | Ok st =>
                           build_html st (compute_more word_char d) (user d)
                       | Raise e => inl (Raised e)
                       end = inr p)).
  { intros H. apply compute_stats_returns_iff in H. destruct H as [st Hst].
    rewrite Hst. apply (build_html_outcome word_char d st (user d) Hst). }
  split.
  { intros Hl Hbad.
    assert (E : compute_stats d = Raise ValueError)
      by (apply compute_stats_raises_iff; auto).
    rewrite E. reflexivity. }
  split; [exact Hret|]. split.
  { intros E. apply Hret.
    - left. unfold date_prefixes, timestamps_of. rewrite E. simpl.
      unfold distinct. simpl. lia.
    - rewrite E. reflexivity. }
  intros p Hp. case_eq (compute_stats d).
  - intros st Hst. rewrite Hst in Hp. split; [exists st; reflexivity|].
    intros E.
    destruct (build_html_outcome word_char d st (user d) Hst) as [H0 _].
    rewrite (H0 E) in Hp. discriminate.
  - intros e He. rewrite He in Hp. discriminate.
Qed.

Lemma X20_run_outcomes_witness :
  run_report (fun _ => false) (Some (one_channel (Some Undecodable)))
  = inl (Raised JSONDecodeError)
  /\ exists p, run_report (fun _ => false) (Some namesake_archive) = inr p.
Proof.
  destruct (X20_run_outcomes (fun _ => false)
              (one_channel (Some Undecodable))) as (H1 & _).
  split; [apply H1; left; reflexivity|].
  destruct (X20_run_outcomes (fun _ => false) namesake_archive) as (_ & H).
  destruct (H namesake_package ltac:(vm_compute; reflexivity))
    as (_ & H3 & _).
  destruct H3 as (_ & H4).
  - right. repeat constructor; vm_compute; discriminate.
  - apply H4. vm_compute. discriminate.
Defined.
